(** * Corpus enrichment pipeline of the LinkedIn post generator

    A shallow embedding of [src/preprocess.py]: the text normaliser
    ([clean_text], [clean_metadata]), the brace extraction
    ([extract_json_from_response]), the metadata extractor
    ([extract_metadata]), the tag unifier ([get_unified_tags]) and the
    batch loop ([process_posts]), followed by the properties the
    specification states about them.

    Conventions of the embedding.
    - A Python [str] is the list of its code points, each a [Z] in
      [0 .. 0x10FFFF] ([pystr_wf]); lone surrogates are legal code points
      of a [str], as in CPython.
    - [bytes] are lists of [Z] in [0 .. 255].
    - A call that may raise returns a [pyresult]; the exception carries
      its class and its message.
    - Logging, [print] and the calls to the language model are threaded
      through an explicit [world]; writing a log record does not raise.
      Standard output is a UTF-8 stream: [print] raises
      [UnicodeEncodeError] on a message that holds a lone surrogate,
      and writes any other message. *)

From Stdlib Require Import ZArith List Bool Lia String Ascii.
From Stdlib Require Import DecimalString.
Import ListNotations.

Local Open Scope Z_scope.

Set Warnings "-register-all".

(* ================================================================== *)
(** * Python strings and exceptions *)
(* ================================================================== *)

Definition pystr := list Z.

Definition valid_cp (c : Z) : Prop := 0 <= c <= 0x10FFFF.

Definition pystr_wf (s : pystr) : Prop := Forall valid_cp s.

(** ASCII literal of the source as a [pystr]. *)
Definition py (s : string) : pystr :=
  map (fun a => Z.of_N (N_of_ascii a)) (list_ascii_of_string s).

Definition pystr_eq_dec : forall a b : pystr, {a = b} + {a <> b} :=
  list_eq_dec Z.eq_dec.

Definition pystr_eqb (a b : pystr) : bool :=
  if pystr_eq_dec a b then true else false.

(** The exception classes that occur in [preprocess.py].  Every one of
    them is a subclass of [Exception]; [PyException] is the class
    [Exception] itself, raised by the re-raising handlers. *)
Inductive pyexc : Type :=
| KeyError (key : pystr)
| TypeError (msg : pystr)
| AttributeError (msg : pystr)
| ValueError (msg : pystr)
| UnicodeEncodeError (msg : pystr)
| UnicodeDecodeError (msg : pystr)
| OutputParserException (msg : pystr)
| PyException (msg : pystr).

Inductive pyresult (A : Type) : Type :=
| Ok (a : A)
| Raise (e : pyexc).

Arguments Ok {A} a.
Arguments Raise {A} e.

Definition rbind {A B} (r : pyresult A) (f : A -> pyresult B) : pyresult B :=
  match r with
  | Ok a => f a
  | Raise e => Raise e
  end.

(** [str(e)]: the single argument of the exception, except for
    [KeyError], whose [str] is the [repr] of the key.  The only key the
    code looks up without a guard is ['text'], so the quoting of [repr]
    is the plain single-quote form.  [OutputParserException m] is the
    exception built with the message [m], and [m] is what is taken for
    its text: a release of the library that appends a reference to its
    troubleshooting page to [m] is not followed there. *)
Definition str_exc (e : pyexc) : pystr :=
  match e with
  | KeyError k => py "'" ++ k ++ py "'"
  | TypeError m | AttributeError m | ValueError m
  | UnicodeEncodeError m | UnicodeDecodeError m
  | OutputParserException m | PyException m => m
  end.

Definition is_UnicodeEncodeError (e : pyexc) : bool :=
  match e with UnicodeEncodeError _ => true | _ => false end.

Definition is_OutputParserException (e : pyexc) : bool :=
  match e with OutputParserException _ => true | _ => false end.

(* ================================================================== *)
(** * The UTF-8 codec used by [clean_text] *)
(* ================================================================== *)

Definition is_surrogate (c : Z) : bool := (0xD800 <=? c) && (c <=? 0xDFFF).

(** The [errors] argument of [str.encode]. *)
Inductive errors_mode : Type := Strict | Ignore.

Definition utf8_encode_cp (c : Z) : list Z :=
  if c <? 0x80 then [c]
  else if c <? 0x800 then
    [Z.lor 0xC0 (Z.shiftr c 6); Z.lor 0x80 (Z.land c 0x3F)]
  else if c <? 0x10000 then
    [Z.lor 0xE0 (Z.shiftr c 12);
     Z.lor 0x80 (Z.land (Z.shiftr c 6) 0x3F);
     Z.lor 0x80 (Z.land c 0x3F)]
  else
    [Z.lor 0xF0 (Z.shiftr c 18);
     Z.lor 0x80 (Z.land (Z.shiftr c 12) 0x3F);
     Z.lor 0x80 (Z.land (Z.shiftr c 6) 0x3F);
     Z.lor 0x80 (Z.land c 0x3F)].

(** [text.encode('utf-8', errors=...)].  A surrogate has no UTF-8
    encoding: under [Strict] it raises, under [Ignore] it is dropped. *)
Fixpoint str_encode (errors : errors_mode) (s : pystr) : pyresult (list Z) :=
  match s with
  | [] => Ok []
  | c :: r =>
      if is_surrogate c then
        match errors with
        | Strict => Raise (UnicodeEncodeError (py "surrogates not allowed"))
        | Ignore => str_encode errors r
        end
      else rbind (str_encode errors r) (fun b => Ok (utf8_encode_cp c ++ b))
  end.

Definition is_cont (b : Z) : bool := (0x80 <=? b) && (b <=? 0xBF).

Definition cont_bits (b : Z) : Z := Z.land b 0x3F.

Definition bad_utf8 : pyexc := UnicodeDecodeError (py "invalid utf-8").

(** [bytes.decode('utf-8')], strict: overlong forms, encoded surrogates
    and values above U+10FFFF are refused. *)
Fixpoint bytes_decode (bs : list Z) : pyresult pystr :=
  match bs with
  | [] => Ok []
  | b0 :: r =>
    if b0 <? 0x80 then rbind (bytes_decode r) (fun s => Ok (b0 :: s))
    else if b0 <? 0xC2 then Raise bad_utf8
    else if b0 <? 0xE0 then
      match r with
      | b1 :: r1 =>
        if is_cont b1 then
          let c := Z.lor (Z.shiftl (Z.land b0 0x1F) 6) (cont_bits b1) in
          rbind (bytes_decode r1) (fun s => Ok (c :: s))
        else Raise bad_utf8
      | _ => Raise bad_utf8
      end
    else if b0 <? 0xF0 then
      match r with
      | b1 :: b2 :: r2 =>
        if is_cont b1 && is_cont b2 then
          let c := Z.lor (Z.shiftl (Z.land b0 0x0F) 12)
                     (Z.lor (Z.shiftl (cont_bits b1) 6) (cont_bits b2)) in
          if (c <? 0x800) || is_surrogate c then Raise bad_utf8
          else rbind (bytes_decode r2) (fun s => Ok (c :: s))
        else Raise bad_utf8
      | _ => Raise bad_utf8
      end
    else if b0 <? 0xF5 then
      match r with
      | b1 :: b2 :: b3 :: r3 =>
        if is_cont b1 && is_cont b2 && is_cont b3 then
          let c := Z.lor (Z.shiftl (Z.land b0 0x07) 18)
                     (Z.lor (Z.shiftl (cont_bits b1) 12)
                        (Z.lor (Z.shiftl (cont_bits b2) 6) (cont_bits b3))) in
          if (c <? 0x10000) || (0x10FFFF <? c) then Raise bad_utf8
          else rbind (bytes_decode r3) (fun s => Ok (c :: s))
        else Raise bad_utf8
      | _ => Raise bad_utf8
      end
    else Raise bad_utf8
  end.

(* ================================================================== *)
(** * Text normaliser: [clean_text] *)
(* ================================================================== *)

(** The character class [\x20-\x7E\u00A0-\uFFFF\u0D80-\u0DFF] of the
    substitution pattern (the pattern is its complement). *)
Definition in_keep_class (c : Z) : bool :=
  ((0x20 <=? c) && (c <=? 0x7E))
  || ((0xA0 <=? c) && (c <=? 0xFFFF))
  || ((0x0D80 <=? c) && (c <=? 0x0DFF)).

Definition space : Z := 0x20.

(** [re.sub(r'[^...]', ' ', text)]: every character outside the class
    becomes one space. *)
Definition re_sub_keep (s : pystr) : pystr :=
  map (fun c => if in_keep_class c then c else space) s.

(** [str.isspace] on one character, the set [str.strip()] removes. *)
Definition py_isspace (c : Z) : bool :=
  ((0x09 <=? c) && (c <=? 0x0D))
  || ((0x1C <=? c) && (c <=? 0x20))
  || (c =? 0x85) || (c =? 0xA0) || (c =? 0x1680)
  || ((0x2000 <=? c) && (c <=? 0x200A))
  || (c =? 0x2028) || (c =? 0x2029) || (c =? 0x202F)
  || (c =? 0x205F) || (c =? 0x3000).

Fixpoint lstrip (s : pystr) : pystr :=
  match s with
  | [] => []
  | c :: r => if py_isspace c then lstrip r else s
  end.

Definition rstrip (s : pystr) : pystr := rev (lstrip (rev s)).

Definition strip (s : pystr) : pystr := rstrip (lstrip s).

Definition drop_surrogates (s : pystr) : pystr :=
  filter (fun c => negb (is_surrogate c)) s.

(** The body of the [try]: [text.encode('utf-8', errors='ignore')
    .decode('utf-8')]. *)
Definition reencode (text : pystr) : pyresult pystr :=
  rbind (str_encode Ignore text) bytes_decode.

Section Normalizer.

(** [unicodedata.normalize('NFKC', _)], a table of the Unicode
    database that the source only reaches in its [except] branch. *)
Variable nfkc : pystr -> pystr.

Definition clean_text_fallback (text : pystr) : pystr :=
  drop_surrogates (nfkc text).

Definition clean_text (text : pystr) : pyresult pystr :=
  let recoded :=
    match reencode text with
    | Ok t => Ok t
    | Raise e =>
        if is_UnicodeEncodeError e then Ok (clean_text_fallback text)
        else Raise e
    end in
  rbind recoded (fun t => Ok (strip (re_sub_keep t))).

End Normalizer.

(* ================================================================== *)
(** * JSON values and Python dictionaries *)
(* ================================================================== *)

(** The objects [json] parsing produces.  Numbers are the integers: a
    fractional number is outside the embedding. *)
Inductive json : Type :=
| JNull
| JBool (b : bool)
| JInt (n : Z)
| JStr (s : pystr)
| JList (l : list json)
| JDict (d : list (pystr * json)).

(** A [dict] with [str] keys, in insertion order. *)
Definition dict := list (pystr * json).

Fixpoint dict_get (k : pystr) (d : dict) : option json :=
  match d with
  | [] => None
  | (k', v) :: r => if pystr_eqb k k' then Some v else dict_get k r
  end.

(** [k in d] *)
Definition dict_mem (k : pystr) (d : dict) : bool :=
  match dict_get k d with Some _ => true | None => false end.

(** [d[k] = v]: an existing key keeps its place, a new one goes last. *)
Fixpoint dict_set (k : pystr) (v : json) (d : dict) : dict :=
  match d with
  | [] => [(k, v)]
  | (k', v') :: r =>
      if pystr_eqb k k' then (k, v) :: r else (k', v') :: dict_set k v r
  end.

(** [d.update(m)] *)
Definition dict_update (d m : dict) : dict :=
  fold_left (fun acc kv => dict_set (fst kv) (snd kv) acc) m d.

Definition dict_keys (d : dict) : list pystr := map fst d.

Definition type_name (v : json) : pystr :=
  match v with
  | JNull => py "NoneType"
  | JBool _ => py "bool"
  | JInt _ => py "int"
  | JStr _ => py "str"
  | JList _ => py "list"
  | JDict _ => py "dict"
  end.

Fixpoint mapM {A B} (f : A -> pyresult B) (l : list A) : pyresult (list B) :=
  match l with
  | [] => Ok []
  | x :: r => rbind (f x) (fun y => rbind (mapM f r) (fun ys => Ok (y :: ys)))
  end.

(** [for x in v]: the items of a list, the characters of a [str], the
    keys of a [dict]. *)
Definition py_iter (v : json) : pyresult (list json) :=
  match v with
  | JList l => Ok l
  | JStr s => Ok (map (fun c => JStr [c]) s)
  | JDict d => Ok (map (fun kv => JStr (fst kv)) d)
  | _ => Raise (TypeError (py "'" ++ type_name v ++ py "' object is not iterable"))
  end.

(** [v[:100]]: a [str] and a [list] can be sliced, nothing else among
    the JSON values (a [dict] raises as well, with this message up to
    Python 3.11). *)
Definition slice100 (v : json) : pyresult json :=
  match v with
  | JStr s => Ok (JStr (firstn 100 s))
  | JList l => Ok (JList (firstn 100 l))
  | JDict _ => Raise (TypeError (py "unhashable type: 'slice'"))
  | _ => Raise (TypeError (py "'" ++ type_name v ++ py "' object is not subscriptable"))
  end.

(** Hashable values and their equality, as a [set] sees them
    ([True == 1] and [False == 0]). *)
Definition hashable (v : json) : bool :=
  match v with JList _ | JDict _ => false | _ => true end.

Definition py_eqb (a b : json) : bool :=
  match a, b with
  | JNull, JNull => true
  | JStr s, JStr t => pystr_eqb s t
  | JInt n, JInt m => n =? m
  | JBool x, JBool y => Bool.eqb x y
  | JBool x, JInt m => (if x then 1 else 0) =? m
  | JInt n, JBool y => n =? (if y then 1 else 0)
  | _, _ => false
  end.

Definition unhashable (v : json) : pyexc :=
  TypeError (py "unhashable type: '" ++ type_name v ++ py "'").

(** [s.add(v)] on a set kept as the list of its members. The order in
    which Python iterates a set depends on hashes; the properties below
    speak of membership only. *)
Definition set_add (v : json) (s : list json) : pyresult (list json) :=
  if hashable v then
    Ok (if existsb (py_eqb v) s then s else s ++ [v])
  else Raise (unhashable v).

Fixpoint join (sep : pystr) (l : list pystr) : pystr :=
  match l with
  | [] => []
  | [x] => x
  | x :: r => x ++ sep ++ join sep r
  end.

Definition dec (n : nat) : pystr := py (NilEmpty.string_of_uint (Nat.to_uint n)).

(* ================================================================== *)
(** * Metadata cleaning: [clean_metadata] *)
(* ================================================================== *)

Section Metadata.

Variable nfkc : pystr -> pystr.

(** [clean_text(v)] on a value of any type: only a [str] has
    [.encode]. *)
Definition call_clean_text (v : json) : pyresult pystr :=
  match v with
  | JStr s => clean_text nfkc s
  | _ => Raise (AttributeError
                  (py "'" ++ type_name v ++ py "' object has no attribute 'encode'"))
  end.

Definition clean_item (item : json) : pyresult json :=
  match item with
  | JStr s => rbind (clean_text nfkc s) (fun t => Ok (JStr t))
  | _ => Ok item
  end.

Definition clean_value (value : json) : pyresult json :=
  match value with
  | JStr s => rbind (clean_text nfkc s) (fun t => Ok (JStr t))
  | JList l => rbind (mapM clean_item l) (fun l' => Ok (JList l'))
  | _ => Ok value
  end.

Fixpoint clean_metadata_from (cleaned : dict) (items : dict) : pyresult dict :=
  match items with
  | [] => Ok cleaned
  | (key, value) :: r =>
      rbind (clean_value value)
            (fun v => clean_metadata_from (dict_set key v cleaned) r)
  end.

Definition clean_metadata (metadata : dict) : pyresult dict :=
  clean_metadata_from [] metadata.

End Metadata.

(* ================================================================== *)
(** * Brace extraction: [extract_json_from_response] *)
(* ================================================================== *)

Definition lbrace : Z := 123.
Definition rbrace : Z := 125.

(** The lazy [.*?\}] from a given position: the shortest run of any
    characters (newlines included, the pattern is compiled with DOTALL)
    up to and including the first closing brace. *)
Fixpoint upto_rbrace (s : pystr) : option pystr :=
  match s with
  | [] => None
  | c :: r =>
      if c =? rbrace then Some [c]
      else match upto_rbrace r with
           | Some m => Some (c :: m)
           | None => None
           end
  end.

(** [re.search(r'\{.*?\}', s, re.DOTALL)]: the start positions are
    tried from the left, and the match at a position is the lazy one. *)
Fixpoint re_search_braces (s : pystr) : option pystr :=
  match s with
  | [] => None
  | c :: r =>
      if c =? lbrace then
        match upto_rbrace r with
        | Some m => Some (c :: m)
        | None => re_search_braces r
        end
      else re_search_braces r
  end.

Definition no_json_msg : pystr := py "No valid JSON object found in response".

Definition extract_json_from_response (response_text : pystr) : pyresult pystr :=
  match re_search_braces response_text with
  | Some m => Ok m
  | None => Raise (ValueError no_json_msg)
  end.

(* ================================================================== *)
(** * The world: log, standard output, calls to the language model *)
(* ================================================================== *)

Inductive level : Type := INFO | WARNING | ERROR.

Record world : Type := mkWorld {
  log : list (level * pystr);   (* records of preprocess_errors.log, oldest first *)
  stdout : list pystr;          (* lines written by print *)
  calls : nat                   (* chain invocations made so far *)
}.

Definition M (A : Type) : Type := world -> pyresult A * world.

Definition ret {A} (a : A) : M A := fun w => (Ok a, w).

Definition raise {A} (e : pyexc) : M A := fun w => (Raise e, w).

Definition lift {A} (r : pyresult A) : M A := fun w => (r, w).

Definition bind {A B} (m : M A) (f : A -> M B) : M B :=
  fun w =>
    match m w with
    | (Ok a, w1) => f a w1
    | (Raise e, w1) => (Raise e, w1)
    end.

(** [try: m  except Exception as e: h e] *)
Definition try_except {A} (m : M A) (h : pyexc -> M A) : M A :=
  fun w =>
    match m w with
    | (Ok a, w1) => (Ok a, w1)
    | (Raise e, w1) => h e w1
    end.

Notation "x <- m ;; k" := (bind m (fun x => k))
  (at level 61, m at next level, right associativity).
Notation "m ;;; k" := (bind m (fun _ => k))
  (at level 61, right associativity).

Definition logged (lvl : level) (msg : pystr) (w : world) : world :=
  mkWorld (log w ++ [(lvl, msg)]) (stdout w) (calls w).

Definition printed (msg : pystr) (w : world) : world :=
  mkWorld (log w) (stdout w ++ [msg]) (calls w).

Definition called (w : world) : world :=
  mkWorld (log w) (stdout w) (S (calls w)).

Definition logging (lvl : level) (msg : pystr) : M unit :=
  fun w => (Ok tt, logged lvl msg w).

(** The first lone surrogate of a message, with its position and the
    number of surrogates that follow one another from there: what the
    UTF-8 encoder of the output stream reports. *)
Fixpoint surrogate_run (s : pystr) : nat :=
  match s with
  | c :: r => if is_surrogate c then S (surrogate_run r) else 0%nat
  | [] => 0%nat
  end.

Fixpoint find_surrogate (pos : nat) (s : pystr) : option (nat * Z * nat) :=
  match s with
  | [] => None
  | c :: r =>
      if is_surrogate c then Some (pos, c, S (surrogate_run r))
      else find_surrogate (S pos) r
  end.

Definition hex_char (d : Z) : Z := if d <? 10 then 48 + d else 87 + d.

(** [%04x] of a code point below [0x10000]. *)
Definition hex_quad (c : Z) : pystr :=
  [hex_char (c / 4096); hex_char ((c / 256) mod 16);
   hex_char ((c / 16) mod 16); hex_char (c mod 16)].

(** [str(e)] of the [UnicodeEncodeError] of the stream. *)
Definition cannot_encode (pos : nat) (c : Z) (run : nat) : pyexc :=
  UnicodeEncodeError
    (if Nat.eqb run 1 then
       py "'utf-8' codec can't encode character '\u" ++ hex_quad c
          ++ py "' in position " ++ dec pos ++ py ": surrogates not allowed"
     else
       py "'utf-8' codec can't encode characters in position " ++ dec pos
          ++ py "-" ++ dec (pos + run - 1) ++ py ": surrogates not allowed").

(** [print(msg)]: the message is encoded as a whole before anything is
    written. *)
Definition print (msg : pystr) : M unit :=
  fun w =>
    match find_surrogate 0 msg with
    | Some (pos, c, run) => (Raise (cannot_encode pos c run), w)
    | None => (Ok tt, printed msg w)
    end.

(** The two prompt templates piped into the model. *)
Inductive template : Type := MetadataPrompt | TagsPrompt.

Definition text_key : pystr := py "text".
Definition line_count_key : pystr := py "line_count".
Definition language_key : pystr := py "language".
Definition tags_key : pystr := py "tags".

Definition required_keys : list pystr := [line_count_key; language_key; tags_key].

Definition invalid_format_msg : pystr := py "Invalid metadata format returned by LLM.".

Definition empty_msg : pystr := py "No posts were successfully processed.".

(* ================================================================== *)
(** * Extractor, unifier and the batch loop *)
(* ================================================================== *)

Section Pipeline.

Variable nfkc : pystr -> pystr.

(** [format(v)] of a value that is not a [str], as an f-string field
    renders it (the [repr]-based text of lists, numbers, [None]). *)
Variable py_format : json -> pystr.

(** [JsonOutputParser().parse], the parser of the LangChain library. *)
Variable json_parse : pystr -> pyresult json.

(** [(pt | llm).invoke(input={...}).content]: what the model answers,
    or the exception the call raises, at the [n]-th invocation, for a
    template and the text substituted in it. *)
Variable llm : nat -> template -> pystr -> pyresult pystr.

Definition invoke (t : template) (input : pystr) : M pystr :=
  fun w => (llm (calls w) t input, called w).

Definition format (v : json) : pystr :=
  match v with
  | JStr s => s
  | _ => py_format v
  end.

Definition invalid_language_msg (v : json) : pystr :=
  py "Invalid language '" ++ format v ++ py "' returned by LLM.".

(** Lines 141-145 of [extract_metadata]. *)
Definition validate_metadata (res : json) : pyresult dict :=
  match res with
  | JDict d =>
      if forallb (fun k => dict_mem k d) required_keys then
        match dict_get language_key d with
        | Some lang =>
            if existsb (py_eqb lang) [JStr (py "English"); JStr (py "Sinhala")]
            then Ok d
            else Raise (ValueError (invalid_language_msg lang))
        | None => Raise (KeyError language_key)
        end
      else Raise (ValueError invalid_format_msg)
  | _ => Raise (ValueError invalid_format_msg)
  end.

(** The two [except] clauses shared by [extract_metadata] and
    [get_unified_tags], with their message prefixes. *)
Definition relabel {A} (parse_prefix other_prefix : pystr) (e : pyexc) : M A :=
  if is_OutputParserException e then
    let m := parse_prefix ++ str_exc e in
    logging ERROR m ;;; raise (OutputParserException m)
  else
    let m := other_prefix ++ str_exc e in
    logging ERROR m ;;; raise (PyException m).

Definition extract_metadata (post : pystr) : M dict :=
  try_except
    (response <- invoke MetadataPrompt post ;;
     json_str <- lift (extract_json_from_response response) ;;
     res <- lift (json_parse json_str) ;;
     lift (validate_metadata res))
    (relabel (py "Failed to parse LLM response: ")
             (py "Error extracting metadata: ")).

(** [unique_tags.update(clean_text(tag) for tag in tags)] *)
Fixpoint update_tags (unique_tags : list json) (tags : list json)
  : pyresult (list json) :=
  match tags with
  | [] => Ok unique_tags
  | tag :: r =>
      rbind (call_clean_text nfkc tag)
            (fun t => rbind (set_add (JStr t) unique_tags)
                            (fun s => update_tags s r))
  end.

Definition post_tags (post : dict) : json :=
  match dict_get tags_key post with
  | Some v => v
  | None => JList []
  end.

Fixpoint collect_tags (unique_tags : list json) (posts : list dict)
  : pyresult (list json) :=
  match posts with
  | [] => Ok unique_tags
  | post :: r =>
      rbind (py_iter (post_tags post))
            (fun tags => rbind (update_tags unique_tags tags)
                               (fun s => collect_tags s r))
  end.

Definition str_items (l : list json) : list pystr :=
  flat_map (fun v => match v with JStr s => [s] | _ => [] end) l.

(** [','.join(unique_tags)] of line 160 joins the members in the order
    in which Python iterates the set; they are joined here in the order
    of their insertion, one of these orders; the properties of the
    pipeline do not depend on which. *)
Definition get_unified_tags (posts_with_metadata : list dict) : M dict :=
  unique_tags <- lift (collect_tags [] posts_with_metadata) ;;
  let unique_tags_list := join (py ",") (str_items unique_tags) in
  try_except
    (tags <- lift (clean_text nfkc unique_tags_list) ;;
     response <- invoke TagsPrompt tags ;;
     json_str <- lift (extract_json_from_response response) ;;
     res <- lift (json_parse json_str) ;;
     match res with
     | JDict d => ret d
     | _ => raise (ValueError (py "Invalid tag unification format returned by LLM."))
     end)
    (relabel (py "Failed to parse tag unification response: ")
             (py "Error unifying tags: ")).

(** [f"{post['text'][:100]}"] *)
Definition excerpt (post : dict) : pyresult pystr :=
  match dict_get text_key post with
  | None => Raise (KeyError text_key)
  | Some v => rbind (slice100 v) (fun x => Ok (format x))
  end.

Definition subscript (post : dict) (k : pystr) : pyresult json :=
  match dict_get k post with
  | Some v => Ok v
  | None => Raise (KeyError k)
  end.

Definition processing_msg (i : nat) (ex : pystr) : pystr :=
  py "Processing post " ++ dec i ++ py ": " ++ ex ++ py "...".

Definition missing_msg (i : nat) : pystr :=
  py "Post " ++ dec i ++ py " missing 'text' field. Skipping.".

Definition error_msg (i : nat) (ex : pystr) (e : pyexc) : pystr :=
  py "Error processing post " ++ dec i ++ py ": " ++ ex
     ++ py "... | Error: " ++ str_exc e.

(** Lines 71-79: clean, extract, clean the metadata, merge. *)
Definition enrich_post (post : dict) : M dict :=
  text <- lift (subscript post text_key) ;;
  cleaned_post_text <- lift (call_clean_text nfkc text) ;;
  metadata <- extract_metadata cleaned_post_text ;;
  cleaned_metadata <- lift (clean_metadata nfkc metadata) ;;
  let post_with_metadata :=
    dict_update (dict_set text_key (JStr cleaned_post_text) post)
                cleaned_metadata in
  ret post_with_metadata.

(** The body of the inner [try], lines 65-79.  [None] is [continue]
    without an append. *)
Definition try_post (i : nat) (post : dict) : M (option dict) :=
  ex <- lift (excerpt post) ;;
  logging INFO (processing_msg i ex) ;;;
  if negb (dict_mem text_key post) then
    logging WARNING (missing_msg i) ;;;
    print (py "Warning: " ++ missing_msg i) ;;;
    ret None
  else
    p <- enrich_post post ;;
    ret (Some p).

(** The inner [except Exception as e], lines 80-84. *)
Definition except_post (i : nat) (post : dict) (e : pyexc) : M (option dict) :=
  ex <- lift (excerpt post) ;;
  logging ERROR (error_msg i ex e) ;;;
  print (error_msg i ex e) ;;;
  ret None.

Definition process_post (i : nat) (post : dict) : M (option dict) :=
  try_except (try_post i post) (except_post i post).

(** [for i, post in enumerate(posts)], from index [i] on. *)
Fixpoint process_loop (i : nat) (posts : list dict) (enriched_posts : list dict)
  : M (list dict) :=
  match posts with
  | [] => ret enriched_posts
  | post :: rest =>
      r <- process_post i post ;;
      process_loop (S i) rest
        (match r with
         | Some p => enriched_posts ++ [p]
         | None => enriched_posts
         end)
  end.

(** [cleaned_unified_tags.get(tag, tag)]: the lookup hashes [tag];
    the keys of the map are strings. *)
Definition tagmap_get (cleaned_unified_tags : dict) (tag : json) : pyresult json :=
  match tag with
  | JStr s => Ok (match dict_get s cleaned_unified_tags with
                  | Some v => v
                  | None => tag
                  end)
  | _ => if hashable tag then Ok tag else Raise (unhashable tag)
  end.

(** [{cleaned_unified_tags.get(tag, tag) for tag in current_tags}] *)
Fixpoint map_tags (cleaned_unified_tags : dict) (new_tags : list json)
         (current_tags : list json) : pyresult (list json) :=
  match current_tags with
  | [] => Ok new_tags
  | tag :: r =>
      rbind (tagmap_get cleaned_unified_tags tag)
            (fun v => rbind (set_add v new_tags)
                            (fun s => map_tags cleaned_unified_tags s r))
  end.

(** Lines 95-97 for one post. *)
Definition unify_post_tags (cleaned_unified_tags : dict) (post : dict)
  : pyresult dict :=
  rbind (py_iter (post_tags post))
        (fun current_tags =>
           rbind (map_tags cleaned_unified_tags [] current_tags)
                 (fun new_tags => Ok (dict_set tags_key (JList new_tags) post))).

(** The body of the outer [try] once [posts] is loaded, with
    [processed_file_path] left at its default [None] (nothing is
    written). *)
Definition process_posts_body (posts : list dict) : M (list dict) :=
  enriched_posts <- process_loop 0 posts [] ;;
  match enriched_posts with
  | [] => logging ERROR empty_msg ;;; raise (ValueError empty_msg)
  | _ =>
      unified_tags <- get_unified_tags enriched_posts ;;
      cleaned_unified_tags <- lift (clean_metadata nfkc unified_tags) ;;
      lift (mapM (unify_post_tags cleaned_unified_tags) enriched_posts)
  end.

Definition run_error_prefix : pystr := py "Error processing posts: ".

(** The last [except Exception as e] clause.  The two clauses before
    it name [FileNotFoundError] and [json.JSONDecodeError], which only
    [open] and [json.load] raise. *)
Definition process_posts (posts : list dict) : M (list dict) :=
  try_except (process_posts_body posts)
    (fun e =>
       let m := run_error_prefix ++ str_exc e in
       logging ERROR m ;;; raise (PyException m)).

End Pipeline.

Definition w0 : world := mkWorld [] [] 0.

(* ================================================================== *)
(** * A JSON reader for concrete responses *)
(* ================================================================== *)

(** [json_loads] reads a document by the JSON grammar (objects, arrays,
    strings with their escapes, integers, [true], [false], [null]); on
    such a document it is what [JsonOutputParser().parse] returns.  A
    document with a fractional number, or one that is no JSON at all,
    is reported as unreadable, where the parser of the library accepts
    more (a truncated object, a fenced block).  The reader is used to
    run the pipeline on concrete, complete responses only; the general
    statements hold for any parser. *)

Definition is_ws (c : Z) : bool :=
  (c =? 32) || (c =? 9) || (c =? 10) || (c =? 13).

Fixpoint skip_ws (s : pystr) : pystr :=
  match s with
  | c :: r => if is_ws c then skip_ws r else s
  | [] => []
  end.

Definition is_digit (c : Z) : bool := (48 <=? c) && (c <=? 57).

Fixpoint read_digits (acc : Z) (s : pystr) : Z * pystr :=
  match s with
  | c :: r => if is_digit c then read_digits (10 * acc + (c - 48)) r else (acc, s)
  | [] => (acc, [])
  end.

Definition starts_fraction (s : pystr) : bool :=
  match s with
  | c :: _ => (c =? 46) || (c =? 101) || (c =? 69)
  | [] => false
  end.

(** An integer literal: no leading zero, no fraction, no exponent. *)
Definition read_nat_literal (s : pystr) : option (Z * pystr) :=
  match s with
  | c :: r =>
      if c =? 48 then
        match r with
        | d :: _ => if is_digit d then None else
                      if starts_fraction r then None else Some (0, r)
        | [] => Some (0, r)
        end
      else if is_digit c then
        let '(n, rest) := read_digits 0 s in
        if starts_fraction rest then None else Some (n, rest)
      else None
  | [] => None
  end.

Definition hex_digit (c : Z) : option Z :=
  if is_digit c then Some (c - 48)
  else if (97 <=? c) && (c <=? 102) then Some (c - 87)
  else if (65 <=? c) && (c <=? 70) then Some (c - 55)
  else None.

Definition hex4 (s : pystr) : option (Z * pystr) :=
  match s with
  | a :: b :: c :: d :: r =>
      match hex_digit a, hex_digit b, hex_digit c, hex_digit d with
      | Some x, Some y, Some z, Some t => Some (((x * 16 + y) * 16 + z) * 16 + t, r)
      | _, _, _, _ => None
      end
  | _ => None
  end.

(** A high surrogate escape followed by a low surrogate escape is one
    character; any other escaped code unit stands for itself. *)
Definition join_surrogates (u : Z) (s : pystr) : Z * pystr :=
  if (0xD800 <=? u) && (u <=? 0xDBFF) then
    match s with
    | b :: x :: r =>
        if (b =? 92) && (x =? 117) then
          match hex4 r with
          | Some (v, r') =>
              if (0xDC00 <=? v) && (v <=? 0xDFFF)
              then (0x10000 + (u - 0xD800) * 1024 + (v - 0xDC00), r')
              else (u, s)
          | None => (u, s)
          end
        else (u, s)
    | _ => (u, s)
    end
  else (u, s).

Definition simple_escape (c : Z) : option Z :=
  if c =? 34 then Some 34
  else if c =? 92 then Some 92
  else if c =? 47 then Some 47
  else if c =? 98 then Some 8
  else if c =? 102 then Some 12
  else if c =? 110 then Some 10
  else if c =? 114 then Some 13
  else if c =? 116 then Some 9
  else None.

(** The characters of a string literal after its opening quote. *)
Fixpoint read_string (fuel : nat) (s : pystr) : option (pystr * pystr) :=
  match fuel with
  | O => None
  | S f =>
    match s with
    | [] => None
    | c :: r =>
      if c =? 34 then Some ([], r)
      else if c =? 92 then
        match r with
        | e :: r' =>
          if e =? 117 then
            match hex4 r' with
            | Some (u, r'') =>
                let '(c, r3) := join_surrogates u r'' in
                match read_string f r3 with
                | Some (t, rest) => Some (c :: t, rest)
                | None => None
                end
            | None => None
            end
          else
            match simple_escape e with
            | Some x =>
                match read_string f r' with
                | Some (t, rest) => Some (x :: t, rest)
                | None => None
                end
            | None => None
            end
        | [] => None
        end
      else
        match read_string f r with
        | Some (t, rest) => Some (c :: t, rest)
        | None => None
        end
    end
  end.

Definition starts_with (p s : pystr) : option pystr :=
  if pystr_eqb (firstn (List.length p) s) p then Some (skipn (List.length p) s) else None.

Fixpoint read_value (fuel : nat) (s : pystr) : option (json * pystr) :=
  match fuel with
  | O => None
  | S f =>
    let elements :=
      fix elements (n : nat) (acc : list json) (s : pystr)
        : option (list json * pystr) :=
        match n with
        | O => None
        | S n' =>
          match read_value f s with
          | Some (v, s1) =>
            match skip_ws s1 with
            | c :: r =>
                if c =? 44 then elements n' (acc ++ [v]) r
                else if c =? 93 then Some (acc ++ [v], r)
                else None
            | [] => None
            end
          | None => None
          end
        end in
    let members :=
      fix members (n : nat) (acc : dict) (s : pystr) : option (dict * pystr) :=
        match n with
        | O => None
        | S n' =>
          match skip_ws s with
          | q :: s1 =>
            if q =? 34 then
              match read_string f s1 with
              | Some (k, s2) =>
                match skip_ws s2 with
                | colon :: s3 =>
                  if colon =? 58 then
                    match read_value f s3 with
                    | Some (v, s4) =>
                      match skip_ws s4 with
                      | c :: r =>
                          if c =? 44 then members n' (dict_set k v acc) r
                          else if c =? rbrace then Some (dict_set k v acc, r)
                          else None
                      | [] => None
                      end
                    | None => None
                    end
                  else None
                | [] => None
                end
              | None => None
              end
            else None
          | [] => None
          end
        end in
    match skip_ws s with
    | [] => None
    | c :: r =>
      if c =? lbrace then
        match skip_ws r with
        | c' :: r' =>
            if c' =? rbrace then Some (JDict [], r')
            else match members f [] r with
                 | Some (d, rest) => Some (JDict d, rest)
                 | None => None
                 end
        | [] => None
        end
      else if c =? 91 then
        match skip_ws r with
        | c' :: r' =>
            if c' =? 93 then Some (JList [], r')
            else match elements f [] r with
                 | Some (l, rest) => Some (JList l, rest)
                 | None => None
                 end
        | [] => None
        end
      else if c =? 34 then
        match read_string f r with
        | Some (t, rest) => Some (JStr t, rest)
        | None => None
        end
      else if c =? 45 then
        match read_nat_literal r with
        | Some (n, rest) => Some (JInt (- n), rest)
        | None => None
        end
      else if is_digit c then
        match read_nat_literal (c :: r) with
        | Some (n, rest) => Some (JInt n, rest)
        | None => None
        end
      else
        match starts_with (py "true") (c :: r) with
        | Some rest => Some (JBool true, rest)
        | None =>
          match starts_with (py "false") (c :: r) with
          | Some rest => Some (JBool false, rest)
          | None =>
            match starts_with (py "null") (c :: r) with
            | Some rest => Some (JNull, rest)
            | None => None
            end
          end
        end
    end
  end.

Definition json_loads (s : pystr) : pyresult json :=
  match read_value (S (List.length s)) s with
  | Some (v, rest) =>
      match skip_ws rest with
      | [] => Ok v
      | _ => Raise (OutputParserException (py "Invalid json output: " ++ s))
      end
  | None => Raise (OutputParserException (py "Invalid json output: " ++ s))
  end.

(** A literal in which an apostrophe stands for a double quote, to
    write JSON text. *)
Definition pyj (s : string) : pystr :=
  map (fun c => if c =? 39 then 34 else c) (py s).

Definition z_dec (n : Z) : pystr :=
  if n <? 0 then py "-" ++ dec (Z.to_nat (- n)) else dec (Z.to_nat n).

(** [repr(v)], which is also [format(v)] for a value that is not a
    [str].  The [repr] of a string is taken in its plain single-quoted
    form, exact for printable characters without quotes or
    backslashes. *)
Fixpoint py_repr (v : json) : pystr :=
  match v with
  | JNull => py "None"
  | JBool true => py "True"
  | JBool false => py "False"
  | JInt n => z_dec n
  | JStr s => py "'" ++ s ++ py "'"
  | JList l => py "[" ++ join (py ", ") (map py_repr l) ++ py "]"
  | JDict d =>
      py "{"
      ++ join (py ", ")
           (map (fun kv => match kv with
                           | (k, x) => py "'" ++ k ++ py "': " ++ py_repr x
                           end) d)
      ++ py "}"
  end.

(* ================================================================== *)
(** * Notions the statements use *)
(* ================================================================== *)

Definition no_leading_ws (s : pystr) : Prop :=
  match s with
  | c :: _ => py_isspace c = false
  | [] => True
  end.

Definition no_trailing_ws (s : pystr) : Prop := no_leading_ws (rev s).

Definition substitute (c : Z) : Z := if in_keep_class c then c else space.

(** What [clean_text] leaves in a string: a character of the class that
    is no surrogate. *)
Definition kept (c : Z) : Prop :=
  in_keep_class c = true /\ is_surrogate c = false.

(** The alphabet the specification gives for the output of [clean]. *)
Definition emitted (c : Z) : Prop :=
  0x20 <= c <= 0x7E \/ 0xA0 <= c <= 0xFFFF \/ 0x0D80 <= c <= 0x0DFF \/ c = space.

(** The text [clean_text] returns on its primary path. *)
Definition cleaned_text (t : pystr) : pystr :=
  strip (re_sub_keep (drop_surrogates t)).

(** The exception a pair of [except] clauses re-raises for [e]. *)
Definition relabelled (parse_prefix other_prefix : pystr) (e : pyexc) : pyexc :=
  if is_OutputParserException e
  then OutputParserException (parse_prefix ++ str_exc e)
  else PyException (other_prefix ++ str_exc e).

Definition metadata_relabelled : pyexc -> pyexc :=
  relabelled (py "Failed to parse LLM response: ") (py "Error extracting metadata: ").


(** The outcome of the [try] body of [extract_metadata] at the [n]-th
    invocation of the model. *)
Definition extraction_outcome
    (py_format : json -> pystr) (json_parse : pystr -> pyresult json)
    (llm : nat -> template -> pystr -> pyresult pystr)
    (n : nat) (post : pystr) : pyresult dict :=
  rbind (llm n MetadataPrompt post) (fun response =>
  rbind (extract_json_from_response response) (fun json_str =>
  rbind (json_parse json_str) (validate_metadata py_format))).

(** The error kinds of the specification, as the exceptions that leave
    [extract_metadata] and [process_posts]. *)
Definition ExtractionFormatError : pyexc :=
  PyException (py "Error extracting metadata: " ++ no_json_msg).

Definition ValidationError (py_format : json -> pystr) (e : pyexc) : Prop :=
  e = PyException (py "Error extracting metadata: " ++ invalid_format_msg)
  \/ exists lang,
       e = PyException (py "Error extracting metadata: "
                           ++ invalid_language_msg py_format lang).

Definition EmptyResultError : pyexc :=
  PyException (run_error_prefix ++ empty_msg).

(** A parsed result that passes the validation of [extract_metadata]. *)
Definition valid_metadata (res : json) (d : dict) : Prop :=
  res = JDict d
  /\ (forall k, In k required_keys -> dict_mem k d = true)
  /\ (dict_get language_key d = Some (JStr (py "English"))
      \/ dict_get language_key d = Some (JStr (py "Sinhala"))).

(** [es] are the survivors of [ps], in order, each related to its
    original by [R]. *)
Inductive enriched_from (R : dict -> dict -> Prop) : list dict -> list dict -> Prop :=
| ef_nil : enriched_from R [] []
| ef_skip p ps es : enriched_from R ps es -> enriched_from R (p :: ps) es
| ef_keep p e ps es :
    R p e -> enriched_from R ps es -> enriched_from R (p :: ps) (e :: es).

(** A set as [set_add] builds it: hashable members, none equal to an
    earlier one. *)
Inductive pyset : list json -> Prop :=
| pyset_nil : pyset []
| pyset_snoc s v :
    pyset s -> hashable v = true -> existsb (py_eqb v) s = false ->
    pyset (s ++ [v]).

Definition dict_values (d : dict) : list json := map snd d.

Definition post_error_prefix : pystr := py "Error processing post ".

(** An error record of the batch loop: an [ERROR] record whose message
    starts with ["Error processing post "]. *)
Definition is_post_error (r : level * pystr) : bool :=
  match fst r with
  | ERROR =>
      pystr_eqb (firstn (List.length post_error_prefix) (snd r)) post_error_prefix
  | _ => false
  end.

Section BatchNotions.

Variable nfkc : pystr -> pystr.
Variable py_format : json -> pystr.
Variable json_parse : pystr -> pyresult json.
Variable llm : nat -> template -> pystr -> pyresult pystr.

(** The merge of lines 76-78. *)
Definition merged (post : dict) (cleaned : pystr) (cleaned_metadata : dict) : dict :=
  dict_update (dict_set text_key (JStr cleaned) post) cleaned_metadata.

(** At the [n]-th invocation of the model, the post (with a string
    as its text) is enriched into [d]. *)
Definition enriches (n : nat) (post d : dict) : Prop :=
  exists t metadata cleaned_metadata,
    dict_get text_key post = Some (JStr t) /\ pystr_wf t
    /\ extraction_outcome py_format json_parse llm n (cleaned_text t) = Ok metadata
    /\ clean_metadata nfkc metadata = Ok cleaned_metadata
    /\ d = merged post (cleaned_text t) cleaned_metadata.

(** At the [n]-th invocation of the model, the extraction for the
    post (with a string as its text, of excerpt [ex]) raises [e]. *)
Definition extraction_throws (n : nat) (post : dict) (ex : pystr) (e : pyexc) : Prop :=
  exists t,
    dict_get text_key post = Some (JStr t) /\ pystr_wf t
    /\ ex = firstn 100 t
    /\ extraction_outcome py_format json_parse llm n (cleaned_text t) = Raise e.

End BatchNotions.

(** The relation of the loop between a post and its enriched copy. *)
Definition merged_from
    (nfkc : pystr -> pystr) (py_format : json -> pystr)
    (json_parse : pystr -> pyresult json)
    (llm : nat -> template -> pystr -> pyresult pystr) (post e : dict) : Prop :=
  exists n cleaned metadata cleaned_metadata,
    extraction_outcome py_format json_parse llm n cleaned = Ok metadata
    /\ clean_metadata nfkc metadata = Ok cleaned_metadata
    /\ e = merged post cleaned cleaned_metadata.

(** The posts are processed in order from the world [w], the first at
    index [i]: a post the loop skips leaves nothing, a post the loop
    keeps leaves a post [q] that [R] relates to it in the world in which
    it was processed. *)
Inductive loop_trace
    (nfkc : pystr -> pystr) (py_format : json -> pystr)
    (json_parse : pystr -> pyresult json)
    (llm : nat -> template -> pystr -> pyresult pystr)
    (R : world -> dict -> dict -> Prop)
  : nat -> world -> list dict -> list dict -> Prop :=
| trace_end i w : loop_trace nfkc py_format json_parse llm R i w [] []
| trace_skip i w p ps qs w1 :
    process_post nfkc py_format json_parse llm i p w = (Ok None, w1) ->
    loop_trace nfkc py_format json_parse llm R (S i) w1 ps qs ->
    loop_trace nfkc py_format json_parse llm R i w (p :: ps) qs
| trace_keep i w p e q ps qs w1 :
    process_post nfkc py_format json_parse llm i p w = (Ok (Some e), w1) ->
    R w p q ->
    loop_trace nfkc py_format json_parse llm R (S i) w1 ps qs ->
    loop_trace nfkc py_format json_parse llm R i w (p :: ps) (q :: qs).

(** The relation of the loop between a post, processed in the world
    [w], and its enriched copy: the text cleaned is the one of the post
    and the metadata are those the extractor returns for it at the
    invocation [calls w]. *)
Definition enriched_at
    (nfkc : pystr -> pystr) (py_format : json -> pystr)
    (json_parse : pystr -> pyresult json)
    (llm : nat -> template -> pystr -> pyresult pystr)
    (w : world) (post e : dict) : Prop :=
  exists text cleaned metadata cleaned_metadata,
    dict_get text_key post = Some (JStr text)
    /\ clean_text nfkc text = Ok cleaned
    /\ extraction_outcome py_format json_parse llm (calls w) cleaned = Ok metadata
    /\ clean_metadata nfkc metadata = Ok cleaned_metadata
    /\ e = merged post cleaned cleaned_metadata.

(** What the merge leaves of a post [p], processed in the world [w],
    in the post [q] returned for it: the fields that are neither
    ['text'] nor a key of the metadata the extractor returned for the
    cleaned text of [p] at that invocation. *)
Definition keeps_other_fields
    (nfkc : pystr -> pystr) (py_format : json -> pystr)
    (json_parse : pystr -> pyresult json)
    (llm : nat -> template -> pystr -> pyresult pystr)
    (w : world) (p q : dict) : Prop :=
  exists text cleaned metadata,
    dict_get text_key p = Some (JStr text)
    /\ clean_text nfkc text = Ok cleaned
    /\ extraction_outcome py_format json_parse llm (calls w) cleaned = Ok metadata
    /\ (forall k, In k required_keys -> In k (dict_keys metadata))
    /\ (forall k, k <> text_key -> ~ In k (dict_keys metadata) ->
                  dict_get k q = dict_get k p).

(** A tag the map sends to itself. *)
Definition fixed_by (m : dict) (tag : json) : Prop := tagmap_get m tag = Ok tag.

(** Every value of the map can be looked up and, when it is a key of
    the map, is its own image. *)
Definition canonical_closed (m : dict) : Prop :=
  forall k v,
    dict_get k m = Some v ->
    hashable v = true
    /\ forall s, v = JStr s -> dict_get s m = None \/ dict_get s m = Some v.

(** The tags of [q] are those of [p], in some order, and the other
    fields are the same. *)
Definition same_tags (p q : dict) : Prop :=
  exists l l',
    dict_get tags_key p = Some (JList l)
    /\ dict_get tags_key q = Some (JList l')
    /\ (forall x, In x l' <-> In x l)
    /\ (forall k, k <> tags_key -> dict_get k q = dict_get k p).

(** No lone surrogate in a message: [print] writes it. *)
Definition printable (msg : pystr) : Prop :=
  Forall (fun c => is_surrogate c = false) msg.

(** What the handler of lines 80-84 does with the exception [e] once
    the excerpt [ex] is taken: the record is logged, then printed if it
    can be. *)
Definition handler_outcome (i : nat) (ex : pystr) (e : pyexc) (w : world)
  : pyresult (option dict) * world :=
  match find_surrogate 0 (error_msg i ex e) with
  | Some (pos, c, run) =>
      (Raise (cannot_encode pos c run), logged ERROR (error_msg i ex e) w)
  | None =>
      (Ok None, printed (error_msg i ex e) (logged ERROR (error_msg i ex e) w))
  end.

(* ================================================================== *)
(** * Concrete inputs *)
(* ================================================================== *)

(** A string with leading blanks, a lone surrogate, a tab, a character
    beyond the Basic Multilingual Plane, a Sinhala letter and a trailing
    no-break space. *)
Definition sample_text : pystr :=
  [0x20; 0xD800; 72; 9; 105; 0x1F600; 0x0D85; 0xA0].

(** The response of the specification, an object between two pieces of
    prose, and the metadata it holds. *)
Definition sure_response : pystr :=
  pyj "Sure! {'line_count': 3, 'language': 'English', 'tags': ['Motivation']} Hope that helps!".

Definition sure_metadata : dict :=
  [(line_count_key, JInt 3);
   (language_key, JStr (py "English"));
   (tags_key, JList [JStr (py "Motivation")])].

(** A well-formed answer in a language outside the two allowed. *)
Definition french_response : pystr :=
  pyj "{'line_count': 2, 'language': 'French', 'tags': ['Travel']}".

(** An answer without any brace. *)
Definition prose_response : pystr := py "I cannot answer that.".

(** A raw post without a ['text'] key. *)
Definition untitled_post : dict := [(py "id", JInt 7)].

(** A model whose every call raises. *)
Definition failing_llm : nat -> template -> pystr -> pyresult pystr :=
  fun _ _ _ => Raise (PyException (py "connection reset")).

(** A model that answers every extraction but the one of its call 3. *)
Definition flaky_llm : nat -> template -> pystr -> pyresult pystr :=
  fun n t _ =>
    match t with
    | MetadataPrompt =>
        if Nat.eqb n 3 then Raise (PyException (py "timeout"))
        else Ok sure_response
    | TagsPrompt => Ok (pyj "{'Motivation': 'Motivation'}")
    end.

(** A raw post that only has a text, and what the loop makes of it
    when the model answers [sure_response]. *)
Definition post_of (s : string) : dict := [(text_key, JStr (py s))].

Definition enriched_of (s : string) : dict :=
  merged (post_of s) (py s) sure_metadata.

(** An answer with a fourth key, a model that gives it, and a post that
    has a field of that name. *)
Definition chatty_response : pystr :=
  pyj "{'line_count': 1, 'language': 'English', 'tags': ['Hiring'], 'author': 'model'}".

Definition chatty_llm : nat -> template -> pystr -> pyresult pystr :=
  fun _ t _ =>
    match t with
    | MetadataPrompt => Ok chatty_response
    | TagsPrompt => Ok (pyj "{'Hiring': 'Hiring'}")
    end.

Definition authored_post : dict :=
  [(text_key, JStr (py "We are hiring")); (py "author", JStr (py "Alice"))].

(** A model whose tag map sends a tag to a tag that it sends
    elsewhere, the map it returns, and a map that sends its values to
    themselves. *)
Definition chained_llm : nat -> template -> pystr -> pyresult pystr :=
  fun _ t _ =>
    match t with
    | MetadataPrompt => Ok sure_response
    | TagsPrompt => Ok (pyj "{'Jobs': 'Careers', 'Careers': 'Work'}")
    end.

Definition chained_map : dict :=
  [(py "Jobs", JStr (py "Careers")); (py "Careers", JStr (py "Work"))].

Definition closed_map : dict :=
  [(py "Jobs", JStr (py "Careers")); (py "Careers", JStr (py "Careers"))].

(** A map none of whose values is a key, and what [clean_metadata]
    makes of it: the blank after "Hiring" is stripped, and the value
    becomes a key that is sent elsewhere. *)
Definition spaced_map : dict :=
  [(py "Jobs", JStr (py "Hiring ")); (py "Hiring", JStr (py "Work"))].

Definition unspaced_map : dict :=
  [(py "Jobs", JStr (py "Hiring")); (py "Hiring", JStr (py "Work"))].

(** A model whose tag map sends its values to themselves. *)
Definition closed_llm : nat -> template -> pystr -> pyresult pystr :=
  fun _ t _ =>
    match t with
    | MetadataPrompt => Ok sure_response
    | TagsPrompt => Ok (pyj "{'Jobs': 'Careers', 'Careers': 'Careers'}")
    end.

(** A post whose text ends with the first half of a surrogate pair, as
    [json.load] reads the escape [\ud83d] when the second half is
    missing, and a post whose text is a number. *)
Definition half_emoji_post : dict := [(text_key, JStr [72; 105; 0xD83D])].

Definition number_post : dict := [(text_key, JInt 5)].

(** A metadata mapping with a string, a list and a number to clean. *)
Definition dirty_metadata : dict :=
  [(language_key, JStr [0x20; 69; 110; 9]);
   (tags_key, JList [JStr [74; 111; 98; 0x1F600; 115; 0xA0]; JInt 3]);
   (line_count_key, JInt 2)].

(** Two enriched posts that share a tag once cleaned, and one whose
    tags hold a number. *)
Definition tagged_posts : list dict :=
  [[(tags_key, JList [JStr (py "Job Search "); JStr (py "Motivation")])];
   [(tags_key, JList [JStr (py "Job Search")])]].

Definition number_tagged_post : dict :=
  [(tags_key, JList [JStr (py "Hiring"); JInt 7])].

(** A model whose metadata hold a tag that is a number. *)
Definition number_tag_llm : nat -> template -> pystr -> pyresult pystr :=
  fun _ t _ =>
    match t with
    | MetadataPrompt =>
        Ok (pyj "{'line_count': 1, 'language': 'English', 'tags': ['Hiring', 7]}")
    | TagsPrompt => Ok (pyj "{'Hiring': 'Hiring'}")
    end.

(* ================================================================== *)
(** * Notions for the further properties of [preprocess.py] *)
(* ================================================================== *)

Definition is_byte (b : Z) : Prop := 0 <= b <= 255.

(** What [clean_metadata] makes of an item of a list and of a value,
    on the primary path of [clean_text]. *)
Definition cleaned_item (item : json) : json :=
  match item with
  | JStr s => JStr (cleaned_text s)
  | _ => item
  end.

Definition cleaned_value (value : json) : json :=
  match value with
  | JStr s => JStr (cleaned_text s)
  | JList l => JList (map cleaned_item l)
  | _ => value
  end.

Definition cleaned_metadata_of (metadata : dict) : dict :=
  map (fun kv => (fst kv, cleaned_value (snd kv))) metadata.

(** The strings [clean_metadata] reaches are Python strings. *)
Definition item_wf (item : json) : Prop :=
  match item with
  | JStr s => pystr_wf s
  | _ => True
  end.

Definition value_wf (value : json) : Prop :=
  match value with
  | JStr s => pystr_wf s
  | JList l => Forall item_wf l
  | _ => True
  end.

Definition metadata_wf (metadata : dict) : Prop :=
  Forall (fun kv => value_wf (snd kv)) metadata.


(** A post whose tags are a list of strings. *)
Definition string_tags (post : dict) (l : list pystr) : Prop :=
  post_tags post = JList (map JStr l) /\ Forall pystr_wf l.

Definition is_str (v : json) : bool :=
  match v with JStr _ => true | _ => false end.

(** [t] is one of the tags of the post. *)
Definition tag_of (post : dict) (t : pystr) : Prop :=
  exists l, post_tags post = JList l /\ In (JStr t) l.

Definition no_encode (v : json) : pyexc :=
  AttributeError (py "'" ++ type_name v ++ py "' object has no attribute 'encode'").

(** From [w] to [w1] at most [n] invocations of the model were made,
    and the log and the output only grew. *)
Definition grows_by (n : nat) (w w1 : world) : Prop :=
  (calls w <= calls w1 <= calls w + n)%nat
  /\ (exists records, log w1 = log w ++ records)
  /\ (exists lines, stdout w1 = stdout w ++ lines).

Definition post_keys : list pystr :=
  [text_key; line_count_key; language_key; tags_key].

(** An enriched post as a run returns it: the four fields are there
    and the tags are a list without duplicate. *)
Definition enriched_shape (q : dict) : Prop :=
  (forall k, In k post_keys -> dict_mem k q = true)
  /\ exists new_tags, dict_get tags_key q = Some (JList new_tags) /\ pyset new_tags.

(** The text and the language of the post [q] returned for the post
    [p], processed in the world [w]: the metadata are those the
    extractor returns for the cleaned text of [p] at the invocation
    [calls w]. *)
Definition enriched_values
    (nfkc : pystr -> pystr) (py_format : json -> pystr)
    (json_parse : pystr -> pyresult json)
    (llm : nat -> template -> pystr -> pyresult pystr)
    (w : world) (p q : dict) : Prop :=
  exists text cleaned metadata,
    dict_get text_key p = Some (JStr text)
    /\ clean_text nfkc text = Ok cleaned
    /\ extraction_outcome py_format json_parse llm (calls w) cleaned = Ok metadata
    /\ (~ In text_key (dict_keys metadata) ->
        dict_get text_key q = Some (JStr cleaned))
    /\ (NoDup (dict_keys metadata) ->
        dict_get language_key q = Some (JStr (py "English"))
        \/ dict_get language_key q = Some (JStr (py "Sinhala"))).

(** [q] is [p] with its tags sent through the map: every new tag is
    the image of a tag of [p], and the image of every tag of [p] is
    among the new tags. *)
Definition tags_rewritten (cleaned_unified_tags p q : dict) : Prop :=
  exists current_tags new_tags,
    py_iter (post_tags p) = Ok current_tags
    /\ q = dict_set tags_key (JList new_tags) p
    /\ (forall x, In x new_tags ->
                  exists t, In t current_tags
                            /\ tagmap_get cleaned_unified_tags t = Ok x)
    /\ (forall t, In t current_tags ->
                  exists v, tagmap_get cleaned_unified_tags t = Ok v
                            /\ existsb (py_eqb v) new_tags = true).

(* ================================================================== *)
(** * [post_generator.py] *)
(* ================================================================== *)

Definition get_length_str (length : pystr) : option pystr :=
  if pystr_eqb length (py "Short") then Some (py "1 to 5 lines")
  else if pystr_eqb length (py "Medium") then Some (py "6 to 10 lines")
  else if pystr_eqb length (py "Long") then Some (py "11 to 15 lines")
  else None.

(** An f-string field holding what [get_length_str] returned. *)
Definition format_length (length_str : option pystr) : pystr :=
  match length_str with
  | Some s => s
  | None => py "None"
  end.

Definition nl : pystr := [10].

Definition em_dash : pystr := [0x2014].

(** The f-string of [get_prompt], lines 29-36. *)
Definition prompt_header (tag : pystr) (length_str : option pystr)
    (language : pystr) : pystr :=
  nl ++ py "    Generate a LinkedIn post using the below information. Do not include any reasoning, planning, or <think> tags in the response"
     ++ em_dash ++ py "provide only the post content. No preamble." ++ nl
     ++ py "    1) Topic: " ++ tag ++ nl
     ++ py "    2) Length: " ++ format_length length_str ++ nl
     ++ py "    3) Language: " ++ language ++ nl
     ++ py "    If Language is Sinhala then it means it is a mix of Sinhala and English. " ++ nl
     ++ py "    The script for the generated post should always be English." ++ nl
     ++ py "    ".

Definition style_line : pystr :=
  py "4) Use the writing style as per the following examples.".

Definition think_open : pystr := py "<think>".
Definition think_close : pystr := py "</think>".

Fixpoint is_prefix (p s : pystr) : bool :=
  match p, s with
  | [], _ => true
  | _ :: _, [] => false
  | a :: p', b :: s' => (a =? b) && is_prefix p' s'
  end.

(** [sub in s] *)
Fixpoint contains (sub s : pystr) : bool :=
  match s with
  | [] => is_prefix sub []
  | _ :: r => is_prefix sub s || contains sub r
  end.

(** [s.split(sep)] for a separator that is not empty, read from the
    left: [cur] holds the piece being read, backwards, and [skip] the
    number of characters of a separator just found still to pass. *)
Fixpoint split_aux (sep : pystr) (skip : nat) (cur : pystr) (s : pystr)
  : list pystr :=
  match s with
  | [] => [rev cur]
  | c :: r =>
      match skip with
      | S k => split_aux sep k cur r
      | O =>
          if is_prefix sep s
          then rev cur :: split_aux sep (List.length sep - 1) [] r
          else split_aux sep 0 (c :: cur) r
      end
  end.

Definition split (sep s : pystr) : list pystr := split_aux sep 0 [] s.

(** [pieces[-1]] *)
Definition last_piece (pieces : list pystr) : pystr := last pieces [].

(** Lines 20-22 of [generate_post]. *)
Definition strip_think (content : pystr) : pystr :=
  if contains think_open content
  then strip (last_piece (split think_close content))
  else content.

(** [sep] occurs in [s]. *)
Definition occurs (sep s : pystr) : Prop :=
  exists pre post, s = pre ++ sep ++ post.

Section PostGenerator.

Variable py_format : json -> pystr.

(** [few_shot.get_filtered_posts], of the module [few_shot] that the
    file imports: the examples selected for a length, a language and a
    tag. *)
Variable get_filtered_posts : pystr -> pystr -> pystr -> list dict.

(** [llm.invoke(prompt).content], or the exception the call raises. *)
Variable llm_invoke : pystr -> pyresult pystr.

(** [f'\n\n Example {i+1}: \n\n {post_text}'] *)
Definition example_block (i : nat) (post_text : json) : pystr :=
  nl ++ nl ++ py " Example " ++ dec (i + 1) ++ py ": " ++ nl ++ nl
     ++ py " " ++ format py_format post_text.

(** The [for] loop of [get_prompt] from index [i] on. *)
Fixpoint add_examples (i : nat) (examples : list dict) (prompt : pystr)
  : pyresult pystr :=
  match examples with
  | [] => Ok prompt
  | post :: rest =>
      match dict_get text_key post with
      | None => Raise (KeyError text_key)
      | Some post_text =>
          let prompt := prompt ++ example_block i post_text in
          if Nat.eqb i 1 then Ok prompt else add_examples (S i) rest prompt
      end
  end.

Definition get_prompt (length language tag : pystr) : pyresult pystr :=
  let length_str := get_length_str length in
  let prompt := prompt_header tag length_str language in
  let examples := get_filtered_posts length language tag in
  let prompt :=
    if Nat.ltb 0 (List.length examples) then prompt ++ style_line else prompt in
  add_examples 0 examples prompt.

Definition generate_post (length language tag : pystr) : pyresult pystr :=
  rbind (get_prompt length language tag) (fun prompt =>
  rbind (llm_invoke prompt) (fun content =>
  Ok (strip_think content))).

End PostGenerator.

(* ================================================================== *)
(** * Concrete inputs of the post generator *)
(* ================================================================== *)

(** An answer of a reasoning model, with its reasoning block, and two
    selectors of examples: one that finds three posts, the third
    without text, and one that finds a post without text. *)
Definition thinking_content : pystr :=
  py "<think>The user wants a post.</think>" ++ nl ++ py "Stay curious! ".

Definition three_examples : pystr -> pystr -> pystr -> list dict :=
  fun _ _ _ => [post_of "First post"; post_of "Second post"; untitled_post].

Definition broken_examples : pystr -> pystr -> pystr -> list dict :=
  fun _ _ _ => [post_of "First post"; untitled_post].

(* ================================================================== *)
(** * The embedding on small inputs *)
(* ================================================================== *)

Example encode_two_bytes : utf8_encode_cp 0xE9 = [0xC3; 0xA9].
Proof. reflexivity. Qed.

Example encode_three_bytes : utf8_encode_cp 0x20AC = [0xE2; 0x82; 0xAC].
Proof. reflexivity. Qed.

Example encode_four_bytes : utf8_encode_cp 0x1F600 = [0xF0; 0x9F; 0x98; 0x80].
Proof. reflexivity. Qed.

Example encode_strict_surrogate :
  str_encode Strict [65; 0xD800]
  = Raise (UnicodeEncodeError (py "surrogates not allowed")).
Proof. reflexivity. Qed.

Example encode_ignore_surrogate : str_encode Ignore [65; 0xD800; 66] = Ok [65; 66].
Proof. reflexivity. Qed.

Example decode_overlong : bytes_decode [0xC0; 0x80] = Raise bad_utf8.
Proof. reflexivity. Qed.

Example decode_encoded_surrogate : bytes_decode [0xED; 0xA0; 0x80] = Raise bad_utf8.
Proof. reflexivity. Qed.

Example clean_sample :
  clean_text (fun s => s) sample_text = Ok [72; 32; 105; 32; 0x0D85].
Proof. reflexivity. Qed.

Example search_nested :
  re_search_braces (py "a {b {c} d} e") = Some (py "{b {c}").
Proof. reflexivity. Qed.

Example search_unclosed : re_search_braces (py "} {") = None.
Proof. reflexivity. Qed.

Example loads_duplicate_key :
  json_loads (pyj "{'a': [1, -2, true, null], 'a': 'z'}")
  = Ok (JDict [(py "a", JStr (py "z"))]).
Proof. reflexivity. Qed.

Example repr_list :
  py_repr (JList [JStr (py "a"); JInt (-3); JNull]) = py "['a', -3, None]".
Proof. reflexivity. Qed.

(** A text that is a list fails in [clean_text] and is skipped; the
    next post is enriched. *)
Example list_text_is_skipped :
  exists out w,
    process_posts (fun s => s) py_repr json_loads chatty_llm
      [[(text_key, JList [JStr (py "x")])]; post_of "We are hiring"] w0
    = (Ok [out], w)
    /\ filter is_post_error (log w)
       = [(ERROR, py "Error processing post 0: ['x']... | Error: 'list' object has no attribute 'encode'")].
Proof. eexists. eexists. split; vm_compute; reflexivity. Qed.

(** A text that cannot be sliced fails on the log line of the [try]
    body and again in the handler: the run stops. *)
Example number_text_stops_run :
  fst (process_posts (fun s => s) py_repr json_loads chatty_llm
         [[(text_key, JInt 5)]; post_of "We are hiring"] w0)
  = Raise (PyException (py "Error processing posts: 'int' object is not subscriptable")).
Proof. reflexivity. Qed.

(* ================================================================== *)
(** * Bit-level facts used by the codec *)
(* ================================================================== *)

Lemma land_high_low (a x n : Z) :
  0 <= n -> 0 <= x < 2 ^ n -> Z.land (a * 2 ^ n) x = 0.
Proof.
  intros Hn Hx. apply Z.bits_inj'. intros k Hk.
  rewrite Z.land_spec, Z.bits_0.
  destruct (Z.lt_ge_cases k n) as [Hlt | Hge].
  - rewrite Z.mul_pow2_bits_low by assumption. reflexivity.
  - destruct (Z.eq_dec x 0) as [-> | Hnz].
    + rewrite Z.bits_0. apply andb_false_r.
    + rewrite (Z.bits_above_log2 x k); [apply andb_false_r | lia | ].
      apply Z.log2_lt_pow2; [lia | ].
      apply Z.lt_le_trans with (2 ^ n); [lia | ].
      apply Z.pow_le_mono_r; lia.
Qed.

Lemma lor_high_low (a x n : Z) :
  0 <= n -> 0 <= x < 2 ^ n -> Z.lor (a * 2 ^ n) x = a * 2 ^ n + x.
Proof.
  intros Hn Hx.
  pose proof (Z.add_lor_land (a * 2 ^ n) x) as H.
  rewrite land_high_low in H by assumption. lia.
Qed.

Lemma land_low (x n : Z) : 0 <= n -> Z.land x (2 ^ n - 1) = x mod 2 ^ n.
Proof.
  intros Hn. rewrite <- Z.land_ones by assumption.
  rewrite Z.ones_equiv. reflexivity.
Qed.

(** The operations of the codec in arithmetic form. *)
Lemma shr6 c : Z.shiftr c 6 = c / 64.
Proof. now rewrite Z.shiftr_div_pow2. Qed.
Lemma shr12 c : Z.shiftr c 12 = c / 4096.
Proof. now rewrite Z.shiftr_div_pow2. Qed.
Lemma shr18 c : Z.shiftr c 18 = c / 262144.
Proof. now rewrite Z.shiftr_div_pow2. Qed.
Lemma shl6 c : Z.shiftl c 6 = c * 64.
Proof. now rewrite Z.shiftl_mul_pow2. Qed.
Lemma shl12 c : Z.shiftl c 12 = c * 4096.
Proof. now rewrite Z.shiftl_mul_pow2. Qed.
Lemma shl18 c : Z.shiftl c 18 = c * 262144.
Proof. now rewrite Z.shiftl_mul_pow2. Qed.
Lemma mask6 c : Z.land c 0x3F = c mod 64.
Proof. exact (land_low c 6 ltac:(lia)). Qed.
Lemma mask5 c : Z.land c 0x1F = c mod 32.
Proof. exact (land_low c 5 ltac:(lia)). Qed.
Lemma mask4 c : Z.land c 0x0F = c mod 16.
Proof. exact (land_low c 4 ltac:(lia)). Qed.
Lemma mask3 c : Z.land c 0x07 = c mod 8.
Proof. exact (land_low c 3 ltac:(lia)). Qed.

Lemma lor_cont x : 0 <= x < 64 -> Z.lor 0x80 x = 128 + x.
Proof. intros. exact (lor_high_low 2 x 6 ltac:(lia) ltac:(lia)). Qed.
Lemma lor_lead2 x : 0 <= x < 64 -> Z.lor 0xC0 x = 192 + x.
Proof. intros. exact (lor_high_low 3 x 6 ltac:(lia) ltac:(lia)). Qed.
Lemma lor_lead3 x : 0 <= x < 32 -> Z.lor 0xE0 x = 224 + x.
Proof. intros. exact (lor_high_low 7 x 5 ltac:(lia) ltac:(lia)). Qed.
Lemma lor_lead4 x : 0 <= x < 16 -> Z.lor 0xF0 x = 240 + x.
Proof. intros. exact (lor_high_low 15 x 4 ltac:(lia) ltac:(lia)). Qed.
Lemma lor_shift6 a x : 0 <= x < 64 -> Z.lor (a * 64) x = a * 64 + x.
Proof. intros. exact (lor_high_low a x 6 ltac:(lia) ltac:(lia)). Qed.
Lemma lor_shift12 a x : 0 <= x < 4096 -> Z.lor (a * 4096) x = a * 4096 + x.
Proof. intros. exact (lor_high_low a x 12 ltac:(lia) ltac:(lia)). Qed.
Lemma lor_shift18 a x : 0 <= x < 262144 -> Z.lor (a * 262144) x = a * 262144 + x.
Proof. intros. exact (lor_high_low a x 18 ltac:(lia) ltac:(lia)). Qed.

Ltac divmod := Z.div_mod_to_equations; lia.

(* ================================================================== *)
(** * Decoding what the encoder wrote *)
(* ================================================================== *)

Lemma is_cont_enc x : 0 <= x < 64 -> is_cont (128 + x) = true.
Proof. intros. unfold is_cont. apply andb_true_iff. split; apply Z.leb_le; lia. Qed.

Lemma cont_bits_enc x : 0 <= x < 64 -> cont_bits (128 + x) = x.
Proof. intros. unfold cont_bits. rewrite mask6. divmod. Qed.

Lemma lead2_bits q : 0 <= q < 32 -> Z.land (192 + q) 0x1F = q.
Proof. intros. rewrite mask5. divmod. Qed.

Lemma lead3_bits q : 0 <= q < 16 -> Z.land (224 + q) 0x0F = q.
Proof. intros. rewrite mask4. divmod. Qed.

Lemma lead4_bits q : 0 <= q < 8 -> Z.land (240 + q) 0x07 = q.
Proof. intros. rewrite mask3. divmod. Qed.

Ltac ltb_false := apply Z.ltb_ge; lia.
Ltac ltb_true := apply Z.ltb_lt; lia.

Lemma decode_step1 b r :
  0 <= b < 128 ->
  bytes_decode (b :: r) = rbind (bytes_decode r) (fun s => Ok (b :: s)).
Proof.
  intros H. cbn [bytes_decode].
  replace (b <? 128) with true by (symmetry; ltb_true). reflexivity.
Qed.

Lemma decode_step2 q x r :
  2 <= q < 32 -> 0 <= x < 64 ->
  bytes_decode ((192 + q) :: (128 + x) :: r)
  = rbind (bytes_decode r) (fun s => Ok ((q * 64 + x) :: s)).
Proof.
  intros Hq Hx. cbn [bytes_decode].
  replace (192 + q <? 128) with false by (symmetry; ltb_false).
  replace (192 + q <? 194) with false by (symmetry; ltb_false).
  replace (192 + q <? 224) with true by (symmetry; ltb_true).
  rewrite is_cont_enc, cont_bits_enc, lead2_bits, shl6, lor_shift6 by lia.
  reflexivity.
Qed.

Lemma decode_step3 q x y r :
  0 <= q < 16 -> 0 <= x < 64 -> 0 <= y < 64 ->
  0x800 <= q * 4096 + x * 64 + y ->
  is_surrogate (q * 4096 + x * 64 + y) = false ->
  bytes_decode ((224 + q) :: (128 + x) :: (128 + y) :: r)
  = rbind (bytes_decode r) (fun s => Ok ((q * 4096 + x * 64 + y) :: s)).
Proof.
  intros Hq Hx Hy Hlo Hs. cbn [bytes_decode].
  replace (224 + q <? 128) with false by (symmetry; ltb_false).
  replace (224 + q <? 194) with false by (symmetry; ltb_false).
  replace (224 + q <? 224) with false by (symmetry; ltb_false).
  replace (224 + q <? 240) with true by (symmetry; ltb_true).
  rewrite !is_cont_enc, !cont_bits_enc, lead3_bits, shl6, shl12 by lia.
  rewrite lor_shift6, lor_shift12 by lia.
  replace (q * 4096 + (x * 64 + y)) with (q * 4096 + x * 64 + y) by lia.
  rewrite Hs.
  replace (q * 4096 + x * 64 + y <? 2048) with false by (symmetry; ltb_false).
  reflexivity.
Qed.

Lemma decode_step4 q x y z r :
  0 <= q < 5 -> 0 <= x < 64 -> 0 <= y < 64 -> 0 <= z < 64 ->
  0x10000 <= q * 262144 + x * 4096 + y * 64 + z <= 0x10FFFF ->
  bytes_decode ((240 + q) :: (128 + x) :: (128 + y) :: (128 + z) :: r)
  = rbind (bytes_decode r)
          (fun s => Ok ((q * 262144 + x * 4096 + y * 64 + z) :: s)).
Proof.
  intros Hq Hx Hy Hz Hc. cbn [bytes_decode].
  replace (240 + q <? 128) with false by (symmetry; ltb_false).
  replace (240 + q <? 194) with false by (symmetry; ltb_false).
  replace (240 + q <? 224) with false by (symmetry; ltb_false).
  replace (240 + q <? 240) with false by (symmetry; ltb_false).
  replace (240 + q <? 245) with true by (symmetry; ltb_true).
  rewrite !is_cont_enc, !cont_bits_enc, lead4_bits, shl6, shl12, shl18 by lia.
  rewrite lor_shift6, lor_shift12, lor_shift18 by lia.
  replace (q * 262144 + (x * 4096 + (y * 64 + z)))
    with (q * 262144 + x * 4096 + y * 64 + z) by lia.
  replace (q * 262144 + x * 4096 + y * 64 + z <? 65536)
    with false by (symmetry; ltb_false).
  replace (1114111 <? q * 262144 + x * 4096 + y * 64 + z)
    with false by (symmetry; ltb_false).
  reflexivity.
Qed.

(** The bytes of one encoded character, in arithmetic form. *)
Lemma utf8_encode_cp_arith c :
  valid_cp c ->
  utf8_encode_cp c =
    if c <? 0x80 then [c]
    else if c <? 0x800 then [192 + c / 64; 128 + c mod 64]
    else if c <? 0x10000 then
      [224 + c / 4096; 128 + (c / 64) mod 64; 128 + c mod 64]
    else [240 + c / 262144; 128 + (c / 4096) mod 64;
          128 + (c / 64) mod 64; 128 + c mod 64].
Proof.
  intros [Hlo Hhi]. unfold utf8_encode_cp.
  destruct (Z.ltb_spec c 0x80); [reflexivity | ].
  rewrite shr6, shr12, shr18, !mask6.
  destruct (Z.ltb_spec c 0x800).
  { rewrite lor_lead2, lor_cont by divmod. reflexivity. }
  destruct (Z.ltb_spec c 0x10000).
  { rewrite lor_lead3, !lor_cont by divmod. reflexivity. }
  rewrite lor_lead4, !lor_cont by divmod. reflexivity.
Qed.

Lemma decode_encode_cp c rest :
  valid_cp c -> is_surrogate c = false ->
  bytes_decode (utf8_encode_cp c ++ rest)
  = rbind (bytes_decode rest) (fun s => Ok (c :: s)).
Proof.
  intros Hv Hs. rewrite utf8_encode_cp_arith by assumption.
  destruct Hv as [Hlo Hhi].
  destruct (Z.ltb_spec c 0x80).
  { cbn [app]. apply decode_step1. lia. }
  destruct (Z.ltb_spec c 0x800).
  { cbn [app]. rewrite decode_step2 by divmod.
    replace (c / 64 * 64 + c mod 64) with c by divmod. reflexivity. }
  destruct (Z.ltb_spec c 0x10000).
  { cbn [app].
    assert (E : c / 4096 * 4096 + (c / 64) mod 64 * 64 + c mod 64 = c) by divmod.
    rewrite decode_step3; rewrite ?E; try assumption; try divmod.
    reflexivity. }
  cbn [app].
  assert (E : c / 262144 * 262144 + (c / 4096) mod 64 * 4096
              + (c / 64) mod 64 * 64 + c mod 64 = c) by divmod.
  rewrite decode_step4; rewrite ?E; try divmod.
  reflexivity.
Qed.

Lemma str_encode_ignore_ok (s : pystr) :
  exists b, str_encode Ignore s = Ok b.
Proof.
  induction s as [| c r [b IH]]; cbn [str_encode].
  - eexists; reflexivity.
  - destruct (is_surrogate c).
    + exists b; exact IH.
    + rewrite IH; cbn [rbind]. eexists; reflexivity.
Qed.

Lemma reencode_drops_surrogates (s : pystr) :
  pystr_wf s -> reencode s = Ok (drop_surrogates s).
Proof.
  unfold reencode. induction 1 as [| c r Hc Hr IH]; [reflexivity | ].
  cbn [str_encode drop_surrogates filter].
  destruct (is_surrogate c) eqn:Hs; cbn [negb].
  - exact IH.
  - destruct (str_encode_ignore_ok r) as [b Hb].
    rewrite Hb in IH |- *. cbn [rbind] in IH |- *.
    rewrite decode_encode_cp by assumption.
    rewrite IH. reflexivity.
Qed.

(* ================================================================== *)
(** * Stripping *)
(* ================================================================== *)

Lemma lstrip_no_leading s : no_leading_ws (lstrip s).
Proof.
  induction s as [| c r IH]; cbn [lstrip]; [exact I | ].
  destruct (py_isspace c) eqn:E; [exact IH | exact E].
Qed.

Lemma lstrip_fixed s : no_leading_ws s -> lstrip s = s.
Proof.
  destruct s as [| c r]; cbn [lstrip no_leading_ws]; [reflexivity | ].
  intros ->. reflexivity.
Qed.

Lemma lstrip_snoc l c :
  py_isspace c = false -> lstrip (l ++ [c]) = lstrip l ++ [c].
Proof.
  intros Hc. induction l as [| a r IH]; cbn [app lstrip].
  - rewrite Hc. reflexivity.
  - destruct (py_isspace a); [exact IH | reflexivity].
Qed.

Lemma rstrip_cons h r :
  py_isspace h = false -> rstrip (h :: r) = h :: rstrip r.
Proof.
  intros Hh. unfold rstrip. cbn [rev].
  rewrite lstrip_snoc by assumption.
  rewrite rev_app_distr. reflexivity.
Qed.

Lemma rstrip_keeps_head s : no_leading_ws s -> no_leading_ws (rstrip s).
Proof.
  destruct s as [| h r]; [intros _; exact I | ].
  cbn [no_leading_ws]. intros Hh. rewrite rstrip_cons by assumption. exact Hh.
Qed.

Lemma rstrip_no_trailing s : no_trailing_ws (rstrip s).
Proof.
  unfold no_trailing_ws, rstrip. rewrite rev_involutive. apply lstrip_no_leading.
Qed.

Lemma rstrip_fixed s : no_trailing_ws s -> rstrip s = s.
Proof.
  unfold no_trailing_ws, rstrip. intros H.
  rewrite lstrip_fixed by assumption. apply rev_involutive.
Qed.

Lemma strip_no_leading s : no_leading_ws (strip s).
Proof. apply rstrip_keeps_head, lstrip_no_leading. Qed.

Lemma strip_no_trailing s : no_trailing_ws (strip s).
Proof. apply rstrip_no_trailing. Qed.

Lemma strip_fixed s : no_leading_ws s -> no_trailing_ws s -> strip s = s.
Proof.
  intros Hl Ht. unfold strip. rewrite lstrip_fixed by assumption.
  apply rstrip_fixed; assumption.
Qed.

Lemma Forall_lstrip (P : Z -> Prop) s : Forall P s -> Forall P (lstrip s).
Proof.
  induction 1 as [| c r Hc Hr IH]; cbn [lstrip]; [constructor | ].
  destruct (py_isspace c); [exact IH | constructor; assumption].
Qed.

Lemma Forall_strip (P : Z -> Prop) s : Forall P s -> Forall P (strip s).
Proof.
  intros H. unfold strip, rstrip.
  apply Forall_rev, Forall_lstrip, Forall_rev, Forall_lstrip, H.
Qed.

(* ================================================================== *)
(** * The normaliser on well-formed strings *)
(* ================================================================== *)

Lemma substitute_kept c : is_surrogate c = false -> kept (substitute c).
Proof.
  intros Hs. unfold substitute. destruct (in_keep_class c) eqn:E.
  - split; assumption.
  - split; reflexivity.
Qed.

Lemma kept_valid c : kept c -> valid_cp c.
Proof.
  intros [Hk _]. unfold in_keep_class in Hk. unfold valid_cp. lia.
Qed.

Lemma Forall_kept_normal s : Forall kept (re_sub_keep (drop_surrogates s)).
Proof.
  unfold re_sub_keep, drop_surrogates.
  induction s as [| c r IH]; cbn [filter map]; [constructor | ].
  destruct (is_surrogate c) eqn:E; cbn [negb map]; [exact IH | ].
  constructor; [apply (substitute_kept c E) | exact IH].
Qed.

Lemma drop_surrogates_kept s : Forall kept s -> drop_surrogates s = s.
Proof.
  unfold drop_surrogates.
  induction 1 as [| c r [_ Hc] Hr IH]; cbn [filter]; [reflexivity | ].
  rewrite Hc. cbn [negb]. f_equal. exact IH.
Qed.

Lemma re_sub_keep_kept s : Forall kept s -> re_sub_keep s = s.
Proof.
  unfold re_sub_keep.
  induction 1 as [| c r [Hc _] Hr IH]; cbn [map]; [reflexivity | ].
  rewrite Hc. f_equal. exact IH.
Qed.

Lemma clean_text_primary nfkc text :
  pystr_wf text ->
  clean_text nfkc text = Ok (strip (re_sub_keep (drop_surrogates text))).
Proof.
  intros H. unfold clean_text.
  rewrite reencode_drops_surrogates by assumption. reflexivity.
Qed.

Lemma clean_text_kept nfkc text out :
  pystr_wf text -> clean_text nfkc text = Ok out ->
  Forall kept out /\ no_leading_ws out /\ no_trailing_ws out.
Proof.
  intros H E. rewrite clean_text_primary in E by assumption.
  injection E as <-. split; [ | split].
  - apply Forall_strip, Forall_kept_normal.
  - apply strip_no_leading.
  - apply strip_no_trailing.
Qed.

Lemma kept_wf s : Forall kept s -> pystr_wf s.
Proof. intros H. eapply Forall_impl; [ | exact H]. exact kept_valid. Qed.

Lemma clean_text_fixed nfkc s :
  Forall kept s -> no_leading_ws s -> no_trailing_ws s ->
  clean_text nfkc s = Ok s.
Proof.
  intros Hk Hl Ht. rewrite clean_text_primary by (apply kept_wf, Hk).
  rewrite drop_surrogates_kept, re_sub_keep_kept by assumption.
  rewrite strip_fixed by assumption. reflexivity.
Qed.

(* ================================================================== *)
(** * Dictionaries *)
(* ================================================================== *)

Lemma pystr_eqb_eq a b : pystr_eqb a b = true <-> a = b.
Proof.
  unfold pystr_eqb. destruct (pystr_eq_dec a b); split; congruence.
Qed.

Lemma pystr_eqb_refl a : pystr_eqb a a = true.
Proof. apply pystr_eqb_eq. reflexivity. Qed.

Lemma pystr_eqb_neq a b : a <> b -> pystr_eqb a b = false.
Proof.
  intros H. destruct (pystr_eqb a b) eqn:E; [ | reflexivity].
  apply pystr_eqb_eq in E. contradiction.
Qed.

Lemma dict_get_set_same k v d : dict_get k (dict_set k v d) = Some v.
Proof.
  induction d as [| [k' v'] r IH]; cbn [dict_set dict_get].
  - rewrite pystr_eqb_refl. reflexivity.
  - destruct (pystr_eqb k k') eqn:E; cbn [dict_get].
    + rewrite pystr_eqb_refl. reflexivity.
    + rewrite E. exact IH.
Qed.

Lemma dict_get_set_other k k' v d :
  k <> k' -> dict_get k (dict_set k' v d) = dict_get k d.
Proof.
  intros Hne. induction d as [| [k0 v0] r IH]; cbn [dict_set dict_get].
  - rewrite pystr_eqb_neq by assumption. reflexivity.
  - destruct (pystr_eqb k' k0) eqn:E; cbn [dict_get].
    + apply pystr_eqb_eq in E. subst k0.
      rewrite pystr_eqb_neq by assumption. reflexivity.
    + destruct (pystr_eqb k k0); [reflexivity | exact IH].
Qed.

Lemma dict_get_update_other k d m :
  ~ In k (dict_keys m) -> dict_get k (dict_update d m) = dict_get k d.
Proof.
  unfold dict_update. revert d.
  induction m as [| [k' v'] r IH]; intros d Hk; cbn [fold_left]; [reflexivity | ].
  cbn [dict_keys map fst In] in Hk.
  rewrite IH by (intros H; apply Hk; right; exact H).
  cbn [fst snd]. apply dict_get_set_other.
  intros ->. apply Hk. left. reflexivity.
Qed.

Lemma dict_keys_set k v d k' :
  In k' (dict_keys (dict_set k v d)) <-> k' = k \/ In k' (dict_keys d).
Proof.
  induction d as [| [k0 v0] r IH]; cbn [dict_set dict_keys map fst In].
  - intuition auto.
  - destruct (pystr_eqb k k0) eqn:E; cbn [dict_keys map fst In].
    + apply pystr_eqb_eq in E. subst k0. intuition auto.
    + fold (dict_keys (dict_set k v r)). fold (dict_keys r).
      rewrite IH. intuition auto.
Qed.

Lemma dict_mem_keys k d : dict_mem k d = true <-> In k (dict_keys d).
Proof.
  unfold dict_mem.
  induction d as [| [k0 v0] r IH]; cbn [dict_get dict_keys map fst In].
  - split; [discriminate | contradiction].
  - destruct (pystr_eqb k k0) eqn:E.
    + apply pystr_eqb_eq in E. subst k0. intuition auto.
    + fold (dict_keys r). rewrite IH. split; [auto | ].
      intros [H | H]; [ | exact H].
      subst k0. rewrite pystr_eqb_refl in E. discriminate.
Qed.

Lemma clean_metadata_from_keys nfkc items :
  forall cleaned r,
    clean_metadata_from nfkc cleaned items = Ok r ->
    forall k, In k (dict_keys r) <-> In k (dict_keys cleaned) \/ In k (dict_keys items).
Proof.
  induction items as [| [key value] rest IH]; intros cleaned r H k;
    cbn [clean_metadata_from] in H.
  - injection H as <-. cbn [dict_keys map In]. intuition auto.
  - destruct (clean_value nfkc value) as [v | e]; cbn [rbind] in H; [ | discriminate].
    rewrite (IH _ _ H k), dict_keys_set.
    cbn [dict_keys map fst In]. fold (dict_keys rest). intuition auto.
Qed.

Lemma clean_metadata_keys nfkc metadata r :
  clean_metadata nfkc metadata = Ok r ->
  forall k, In k (dict_keys r) <-> In k (dict_keys metadata).
Proof.
  intros H k. unfold clean_metadata in H.
  rewrite (clean_metadata_from_keys _ _ _ _ H k).
  cbn [dict_keys map In]. intuition auto.
Qed.

(* ================================================================== *)
(** * The brace search *)
(* ================================================================== *)

Lemma upto_rbrace_some s m :
  upto_rbrace s = Some m ->
  exists body post,
    s = body ++ rbrace :: post /\ m = body ++ [rbrace] /\ ~ In rbrace body.
Proof.
  revert m. induction s as [| c r IH]; intros m H; cbn [upto_rbrace] in H.
  - discriminate.
  - destruct (Z.eqb_spec c rbrace) as [-> | Hne].
    + injection H as <-. exists [], r. repeat split. intros [].
    + destruct (upto_rbrace r) as [m' | ]; [ | discriminate].
      injection H as <-.
      destruct (IH m' eq_refl) as (body & post & -> & -> & Hno).
      exists (c :: body), post. repeat split.
      intros [E | E]; [congruence | contradiction].
Qed.

Lemma upto_rbrace_lazy body post :
  ~ In rbrace body ->
  upto_rbrace (body ++ rbrace :: post) = Some (body ++ [rbrace]).
Proof.
  induction body as [| c r IH]; intros Hno; cbn [app upto_rbrace].
  - rewrite Z.eqb_refl. reflexivity.
  - destruct (Z.eqb_spec c rbrace) as [-> | Hne].
    + exfalso. apply Hno. left. reflexivity.
    + rewrite IH by (intros H; apply Hno; right; exact H). reflexivity.
Qed.

Lemma upto_rbrace_none s : upto_rbrace s = None <-> ~ In rbrace s.
Proof.
  induction s as [| c r IH]; cbn [upto_rbrace In].
  - intuition auto.
  - destruct (Z.eqb_spec c rbrace) as [-> | Hne].
    + split; [discriminate | intros H; exfalso; apply H; left; reflexivity].
    + destruct (upto_rbrace r) as [m | ].
      * split; [discriminate | ].
        intros H. exfalso.
        assert (Hr : ~ In rbrace r) by (intros X; apply H; right; exact X).
        apply IH in Hr. discriminate.
      * split; [ | reflexivity].
        intros _ [E | E]; [congruence | ].
        destruct IH as [IH _]. exact (IH eq_refl E).
Qed.

(** Soundness: the match starts at the first opening brace that has a
    closing brace after it and stops at the first closing brace. *)
Lemma re_search_braces_some s m :
  re_search_braces s = Some m ->
  exists pre body post,
    s = pre ++ lbrace :: body ++ rbrace :: post
    /\ m = lbrace :: body ++ [rbrace]
    /\ ~ In rbrace body
    /\ ~ In lbrace pre.
Proof.
  revert m. induction s as [| c r IH]; intros m H; cbn [re_search_braces] in H.
  - discriminate.
  - destruct (Z.eqb_spec c lbrace) as [-> | Hne].
    + destruct (upto_rbrace r) as [m' | ] eqn:E.
      * injection H as <-.
        destruct (upto_rbrace_some _ _ E) as (body & post & -> & -> & Hno).
        exists [], body, post. repeat split; [exact Hno | intros []].
      * (* no closing brace to the right: no later start can match *)
        exfalso. apply upto_rbrace_none in E.
        destruct (IH m H) as (pre & body & post & -> & _ & _ & _).
        apply E. apply in_or_app. right. right.
        apply in_or_app. right. left. reflexivity.
    + destruct (IH m H) as (pre & body & post & -> & -> & Hb & Hp).
      exists (c :: pre), body, post. repeat split; try assumption.
      intros [X | X]; [congruence | contradiction].
Qed.

(** Completeness: with no opening brace before it and no closing brace
    inside it, a brace-delimited substring is the match. *)
Lemma re_search_braces_first pre body post :
  ~ In lbrace pre -> ~ In rbrace body ->
  re_search_braces (pre ++ lbrace :: body ++ rbrace :: post)
  = Some (lbrace :: body ++ [rbrace]).
Proof.
  intros Hp Hb. induction pre as [| c r IH]; cbn [app re_search_braces].
  - rewrite Z.eqb_refl, upto_rbrace_lazy by assumption. reflexivity.
  - destruct (Z.eqb_spec c lbrace) as [-> | Hne].
    + exfalso. apply Hp. left. reflexivity.
    + apply IH. intros H. apply Hp. right. exact H.
Qed.

Lemma re_search_braces_none s :
  re_search_braces s = None <->
  (forall pre body post, s <> pre ++ lbrace :: body ++ rbrace :: post).
Proof.
  split.
  - intros H pre body post ->.
    revert H. induction pre as [| c r IH]; cbn [app re_search_braces].
    + rewrite Z.eqb_refl.
      destruct (upto_rbrace (body ++ rbrace :: post)) eqn:E; [discriminate | ].
      apply upto_rbrace_none in E. exfalso. apply E.
      apply in_or_app. right. left. reflexivity.
    + destruct (c =? lbrace); [ | exact IH].
      destruct (upto_rbrace _) eqn:E; [discriminate | exact IH].
  - intros H. destruct (re_search_braces s) as [m | ] eqn:E; [ | reflexivity].
    destruct (re_search_braces_some _ _ E) as (pre & body & post & -> & _).
    exfalso. exact (H pre body post eq_refl).
Qed.

(* ================================================================== *)
(** * Runs of the extractor and of the batch loop *)
(* ================================================================== *)

Lemma find_surrogate_none s :
  forall pos, find_surrogate pos s = None <-> printable s.
Proof.
  unfold printable. induction s as [| c r IH]; intros pos; cbn [find_surrogate].
  - split; [constructor | reflexivity].
  - destruct (is_surrogate c) eqn:E.
    + split; [discriminate | ]. intros H. inversion H; subst. congruence.
    + rewrite IH. split.
      * intros H. constructor; assumption.
      * intros H. inversion H; assumption.
Qed.

Lemma print_run msg w : printable msg -> print msg w = (Ok tt, printed msg w).
Proof.
  intros H. unfold print. rewrite (proj2 (find_surrogate_none msg 0) H).
  reflexivity.
Qed.

Lemma printable_app a b : printable a -> printable b -> printable (a ++ b).
Proof. intros Ha Hb. apply Forall_app. split; assumption. Qed.

Lemma printable_py s : printable (py s).
Proof.
  unfold printable, py. apply Forall_forall. intros c Hc.
  apply in_map_iff in Hc. destruct Hc as (a & <- & _).
  pose proof (N_ascii_bounded a) as Hb.
  unfold is_surrogate. apply andb_false_iff. left. apply Z.leb_gt. lia.
Qed.


Lemma printable_kept s : Forall kept s -> printable s.
Proof.
  unfold printable. intros H. eapply Forall_impl; [ | exact H].
  intros c [_ Hc]. exact Hc.
Qed.

Section Runs.

Variable nfkc : pystr -> pystr.
Variable py_format : json -> pystr.
Variable json_parse : pystr -> pyresult json.
Variable llm : nat -> template -> pystr -> pyresult pystr.

Lemma relabel_run {A} p1 p2 e w :
  @relabel A p1 p2 e w
  = (Raise (relabelled p1 p2 e), logged ERROR (str_exc (relabelled p1 p2 e)) w).
Proof.
  unfold relabel, relabelled.
  destruct (is_OutputParserException e); reflexivity.
Qed.

Lemma extract_metadata_run post w :
  extract_metadata py_format json_parse llm post w =
  match extraction_outcome py_format json_parse llm (calls w) post with
  | Ok d => (Ok d, called w)
  | Raise e =>
      (Raise (metadata_relabelled e),
       logged ERROR (str_exc (metadata_relabelled e)) (called w))
  end.
Proof.
  unfold extract_metadata, extraction_outcome, try_except, bind, invoke, lift.
  destruct (llm (calls w) MetadataPrompt post) as [response | e]; cbn [rbind];
    [ | apply relabel_run].
  destruct (extract_json_from_response response) as [js | e]; cbn [rbind];
    [ | apply relabel_run].
  destruct (json_parse js) as [res | e]; cbn [rbind]; [ | apply relabel_run].
  destruct (validate_metadata py_format res) as [d | e]; [reflexivity | ].
  apply relabel_run.
Qed.

Lemma enrich_post_run post w :
  enrich_post nfkc py_format json_parse llm post w =
  match subscript post text_key with
  | Raise e => (Raise e, w)
  | Ok text =>
    match call_clean_text nfkc text with
    | Raise e => (Raise e, w)
    | Ok cleaned =>
      match extraction_outcome py_format json_parse llm (calls w) cleaned with
      | Raise e =>
          (Raise (metadata_relabelled e),
           logged ERROR (str_exc (metadata_relabelled e)) (called w))
      | Ok metadata =>
        match clean_metadata nfkc metadata with
        | Raise e => (Raise e, called w)
        | Ok cleaned_metadata =>
            (Ok (dict_update (dict_set text_key (JStr cleaned) post)
                             cleaned_metadata),
             called w)
        end
      end
    end
  end.
Proof.
  unfold enrich_post, bind, lift, ret.
  destruct (subscript post text_key) as [text | e]; [ | reflexivity].
  destruct (call_clean_text nfkc text) as [cleaned | e]; [ | reflexivity].
  rewrite extract_metadata_run.
  destruct (extraction_outcome _ _ _ _ _) as [md | e]; [ | reflexivity].
  destruct (clean_metadata nfkc md); reflexivity.
Qed.

Lemma excerpt_has_text post ex :
  excerpt py_format post = Ok ex -> dict_mem text_key post = true.
Proof.
  unfold excerpt, dict_mem.
  destruct (dict_get text_key post); [reflexivity | discriminate].
Qed.

(** With the excerpt available, the [try] body is the log line
    followed by the enrichment steps. *)
Lemma try_post_run i post ex w :
  excerpt py_format post = Ok ex ->
  try_post nfkc py_format json_parse llm i post w =
  match enrich_post nfkc py_format json_parse llm post
          (logged INFO (processing_msg i ex) w) with
  | (Ok p, w1) => (Ok (Some p), w1)
  | (Raise e, w1) => (Raise e, w1)
  end.
Proof.
  intros Hex. unfold try_post, bind, lift, logging, ret.
  rewrite Hex, (excerpt_has_text _ _ Hex). cbn [negb].
  destruct (enrich_post _ _ _ _ _ _) as [[p | e] w1]; reflexivity.
Qed.

Lemma except_post_run i post ex e w :
  excerpt py_format post = Ok ex ->
  except_post py_format i post e w = handler_outcome i ex e w.
Proof.
  intros Hex. unfold except_post, handler_outcome, bind, lift, logging, print, ret.
  rewrite Hex.
  destruct (find_surrogate 0 (error_msg i ex e)) as [[[pos c] run] | ];
    reflexivity.
Qed.

Lemma process_post_run i post ex w :
  excerpt py_format post = Ok ex ->
  process_post nfkc py_format json_parse llm i post w =
  match enrich_post nfkc py_format json_parse llm post
          (logged INFO (processing_msg i ex) w) with
  | (Ok p, w1) => (Ok (Some p), w1)
  | (Raise e, w1) => handler_outcome i ex e w1
  end.
Proof.
  intros Hex. unfold process_post, try_except.
  rewrite (try_post_run _ _ _ _ Hex).
  destruct (enrich_post _ _ _ _ _ _) as [[p | e] w1]; [reflexivity | ].
  apply except_post_run, Hex.
Qed.

(** When the expression [post['text'][:100]] raises, it raises in the
    [try] body and again in the handler. *)
Lemma process_post_no_excerpt i post e w :
  excerpt py_format post = Raise e ->
  process_post nfkc py_format json_parse llm i post w = (Raise e, w).
Proof.
  intros H.
  unfold process_post, try_except, try_post, except_post, bind, lift.
  rewrite H. reflexivity.
Qed.

(** Without a ['text'] key both the log line of the [try] body and
    the handler raise [KeyError]: the exception leaves the loop. *)
Lemma process_post_no_text i post w :
  dict_get text_key post = None ->
  process_post nfkc py_format json_parse llm i post w
  = (Raise (KeyError text_key), w).
Proof.
  intros H.
  unfold process_post, try_except, try_post, except_post, bind, lift, excerpt.
  rewrite H. reflexivity.
Qed.

Lemma process_loop_no_text i post rest acc w :
  dict_get text_key post = None ->
  process_loop nfkc py_format json_parse llm i (post :: rest) acc w
  = (Raise (KeyError text_key), w).
Proof.
  intros H. cbn [process_loop]. unfold bind.
  rewrite process_post_no_text by assumption. reflexivity.
Qed.

Lemma process_loop_step i post rest acc w :
  process_loop nfkc py_format json_parse llm i (post :: rest) acc w =
  match process_post nfkc py_format json_parse llm i post w with
  | (Ok (Some p), w1) =>
      process_loop nfkc py_format json_parse llm (S i) rest (acc ++ [p]) w1
  | (Ok None, w1) =>
      process_loop nfkc py_format json_parse llm (S i) rest acc w1
  | (Raise e, w1) => (Raise e, w1)
  end.
Proof.
  cbn [process_loop]. unfold bind.
  destruct (process_post _ _ _ _ _ _ _) as [[[p | ] | e] w1]; reflexivity.
Qed.

(** A failure of the enrichment steps whose record can be printed is
    logged, printed and skipped. *)
Lemma process_post_skips i post ex e w w1 :
  excerpt py_format post = Ok ex ->
  enrich_post nfkc py_format json_parse llm post
    (logged INFO (processing_msg i ex) w) = (Raise e, w1) ->
  printable (error_msg i ex e) ->
  process_post nfkc py_format json_parse llm i post w
  = (Ok None, printed (error_msg i ex e) (logged ERROR (error_msg i ex e) w1)).
Proof.
  intros Hex Hraise Hp.
  rewrite (process_post_run _ _ _ _ Hex), Hraise. cbv beta iota.
  unfold handler_outcome.
  rewrite (proj2 (find_surrogate_none _ 0) Hp). reflexivity.
Qed.


End Runs.

(* ================================================================== *)
(** * Validation *)
(* ================================================================== *)

Lemma py_eqb_str v s : py_eqb v (JStr s) = true <-> v = JStr s.
Proof.
  destruct v; cbn [py_eqb]; try (split; [discriminate | congruence]).
  rewrite pystr_eqb_eq. split; congruence.
Qed.

Lemma required_keys_mem d :
  forallb (fun k => dict_mem k d) required_keys = true <->
  (forall k, In k required_keys -> dict_mem k d = true).
Proof. apply forallb_forall. Qed.

Lemma language_ok lang :
  existsb (py_eqb lang) [JStr (py "English"); JStr (py "Sinhala")] = true <->
  lang = JStr (py "English") \/ lang = JStr (py "Sinhala").
Proof.
  cbn [existsb]. rewrite !orb_true_iff, !py_eqb_str.
  intuition discriminate.
Qed.

Lemma validate_metadata_ok py_format res d :
  validate_metadata py_format res = Ok d <-> valid_metadata res d.
Proof.
  unfold validate_metadata, valid_metadata. split.
  - destruct res as [ | | | | | d0]; try discriminate.
    destruct (forallb _ required_keys) eqn:Hk; [ | discriminate].
    destruct (dict_get language_key d0) as [lang | ] eqn:Hl; [ | discriminate].
    destruct (existsb _ _) eqn:He; [ | discriminate].
    intros [= <-]. split; [reflexivity | ]. split.
    + apply required_keys_mem, Hk.
    + apply language_ok in He. destruct He as [-> | ->]; auto.
  - intros (-> & Hk & Hl).
    rewrite (proj2 (required_keys_mem d) Hk).
    destruct Hl as [-> | ->]; reflexivity.
Qed.

Lemma validate_metadata_raises py_format res e :
  validate_metadata py_format res = Raise e ->
  e = ValueError invalid_format_msg
  \/ exists lang, e = ValueError (invalid_language_msg py_format lang).
Proof.
  unfold validate_metadata.
  destruct res as [ | | | | | d0]; try (intros [= <-]; left; reflexivity).
  destruct (forallb _ required_keys) eqn:Hk; [ | intros [= <-]; left; reflexivity].
  destruct (dict_get language_key d0) as [lang | ] eqn:Hl.
  - destruct (existsb _ _); [discriminate | ].
    intros [= <-]. right. exists lang. reflexivity.
  - exfalso.
    pose proof (proj1 (required_keys_mem d0) Hk language_key) as Hm.
    unfold dict_mem in Hm. rewrite Hl in Hm.
    assert (false = true) by (apply Hm; cbn; auto). discriminate.
Qed.

(* ================================================================== *)
(** * Posts whose text is a string *)
(* ================================================================== *)

Lemma is_post_error_relabelled e :
  is_post_error (ERROR, str_exc (metadata_relabelled e)) = false.
Proof.
  unfold metadata_relabelled, relabelled.
  destruct (is_OutputParserException e); reflexivity.
Qed.

Lemma is_post_error_info m : is_post_error (INFO, m) = false.
Proof. reflexivity. Qed.

Lemma is_post_error_error_msg i ex e :
  is_post_error (ERROR, error_msg i ex e) = true.
Proof. reflexivity. Qed.

Section StringPosts.

Variable nfkc : pystr -> pystr.
Variable py_format : json -> pystr.
Variable json_parse : pystr -> pyresult json.
Variable llm : nat -> template -> pystr -> pyresult pystr.

Lemma excerpt_str post t :
  dict_get text_key post = Some (JStr t) ->
  excerpt py_format post = Ok (firstn 100 t).
Proof. intros H. unfold excerpt. rewrite H. reflexivity. Qed.

Lemma excerpt_sliceable post v x :
  dict_get text_key post = Some v -> slice100 v = Ok x ->
  excerpt py_format post = Ok (format py_format x).
Proof. intros H Hs. unfold excerpt. rewrite H, Hs. reflexivity. Qed.

Lemma loop_step_enriches i post d rest acc w :
  enriches nfkc py_format json_parse llm (calls w) post d ->
  exists ex,
    process_loop nfkc py_format json_parse llm i (post :: rest) acc w
    = process_loop nfkc py_format json_parse llm (S i) rest (acc ++ [d])
        (called (logged INFO (processing_msg i ex) w)).
Proof.
  intros (t & md & cmd & Ht & Hwf & Hext & Hclean & ->).
  exists (firstn 100 t).
  rewrite process_loop_step.
  rewrite (process_post_run _ _ _ _ i post _ w (excerpt_str post t Ht)).
  rewrite enrich_post_run. unfold subscript. rewrite Ht.
  cbn [call_clean_text]. rewrite clean_text_primary by assumption.
  fold (cleaned_text t). cbn [calls logged].
  rewrite Hext, Hclean. reflexivity.
Qed.

Lemma loop_step_throws i post ex e rest acc w :
  extraction_throws py_format json_parse llm (calls w) post ex e ->
  printable (error_msg i ex (metadata_relabelled e)) ->
  process_loop nfkc py_format json_parse llm i (post :: rest) acc w
  = process_loop nfkc py_format json_parse llm (S i) rest acc
      (printed (error_msg i ex (metadata_relabelled e))
         (logged ERROR (error_msg i ex (metadata_relabelled e))
            (logged ERROR (str_exc (metadata_relabelled e))
               (called (logged INFO (processing_msg i ex) w))))).
Proof.
  intros (t & Ht & Hwf & -> & Hext) Hp.
  rewrite process_loop_step.
  rewrite (process_post_skips _ _ _ _ i post _ (metadata_relabelled e) w
             (logged ERROR (str_exc (metadata_relabelled e))
                (called (logged INFO (processing_msg i (firstn 100 t)) w)))
             (excerpt_str post t Ht)); [reflexivity | | exact Hp].
  rewrite enrich_post_run. unfold subscript. rewrite Ht.
  cbn [call_clean_text]. rewrite clean_text_primary by assumption.
  fold (cleaned_text t). cbn [calls logged].
  rewrite Hext. reflexivity.
Qed.

(** The record of a failed extraction can be printed when the excerpt
    and the text of the exception hold no lone surrogate. *)
Lemma printable_error_msg i ex e :
  printable ex -> printable (str_exc e) ->
  printable (error_msg i ex (metadata_relabelled e)).
Proof.
  intros Hex He. unfold error_msg, dec.
  repeat (apply printable_app; [try apply printable_py; assumption | ]).
  unfold metadata_relabelled, relabelled.
  destruct (is_OutputParserException e); cbn [str_exc];
    (apply printable_app; [apply printable_py | exact He]).
Qed.

End StringPosts.

(* ================================================================== *)
(** * From the loop to the result of the run *)
(* ================================================================== *)

Lemma mapM_Forall2 {A B} (f : A -> pyresult B) l l' :
  mapM f l = Ok l' -> Forall2 (fun x y => f x = Ok y) l l'.
Proof.
  revert l'. induction l as [| x r IH]; intros l' H; cbn [mapM] in H.
  - injection H as <-. constructor.
  - destruct (f x) as [y | e] eqn:E; cbn [rbind] in H; [ | discriminate].
    destruct (mapM f r) as [ys | e]; cbn [rbind] in H; [ | discriminate].
    injection H as <-. constructor; [exact E | apply IH; reflexivity].
Qed.

Section RunResult.

Variable nfkc : pystr -> pystr.
Variable py_format : json -> pystr.
Variable json_parse : pystr -> pyresult json.
Variable llm : nat -> template -> pystr -> pyresult pystr.

(** A run that returns went through the loop with at least one
    survivor and rewrote the tags of each with one map. *)
Lemma process_posts_ok posts w out w2 :
  process_posts nfkc py_format json_parse llm posts w = (Ok out, w2) ->
  exists enriched w1 cleaned_unified_tags,
    process_loop nfkc py_format json_parse llm 0 posts [] w = (Ok enriched, w1)
    /\ enriched <> []
    /\ Forall2 (fun p q => unify_post_tags cleaned_unified_tags p = Ok q)
               enriched out.
Proof.
  unfold process_posts, try_except, process_posts_body, bind.
  destruct (process_loop _ _ _ _ 0 posts [] w) as [[enriched | e] w1];
    [ | discriminate].
  destruct enriched as [| p0 ps]; [discriminate | ].
  destruct (get_unified_tags _ _ _ _ _) as [[m | e] w3]; [ | discriminate].
  unfold lift.
  destruct (clean_metadata nfkc m) as [cm | e]; [ | discriminate].
  destruct (mapM (unify_post_tags cm) (p0 :: ps)) as [l | e] eqn:E;
    [ | discriminate].
  intros [= <- <-]. exists (p0 :: ps), w1, cm.
  split; [reflexivity | ]. split; [discriminate | ].
  apply mapM_Forall2, E.
Qed.

Lemma process_posts_ok_length posts w enriched w1 out w2 :
  process_loop nfkc py_format json_parse llm 0 posts [] w = (Ok enriched, w1) ->
  process_posts nfkc py_format json_parse llm posts w = (Ok out, w2) ->
  List.length out = List.length enriched.
Proof.
  intros Hloop Hrun.
  destruct (process_posts_ok _ _ _ _ Hrun) as (en & w1' & cm & Hl & _ & HF).
  rewrite Hloop in Hl. injection Hl as <- <-.
  symmetry. eapply Forall2_length, HF.
Qed.

End RunResult.

(* ================================================================== *)
(** * What an enriched post keeps of its original *)
(* ================================================================== *)

Lemma enriched_from_app R ps es p e :
  enriched_from R ps es -> R p e -> enriched_from R (ps ++ [p]) (es ++ [e]).
Proof.
  intros H Hr. induction H; cbn [app].
  - apply ef_keep; [exact Hr | apply ef_nil].
  - apply ef_skip. exact IHenriched_from.
  - apply ef_keep; assumption.
Qed.

Lemma enriched_from_Forall2 (R U S : dict -> dict -> Prop) ps es out :
  (forall p e q, R p e -> U e q -> S p q) ->
  enriched_from R ps es -> Forall2 U es out -> enriched_from S ps out.
Proof.
  intros HS H. revert out.
  induction H as [| p ps es H IH | p e ps es Hr H IH]; intros out HF.
  - inversion HF. apply ef_nil.
  - apply ef_skip. apply IH. exact HF.
  - inversion HF as [| e' q es' out' Hu HF' ]; subst.
    apply ef_keep; [exact (HS _ _ _ Hr Hu) | apply IH; exact HF'].
Qed.

Lemma unify_post_tags_frame m p q :
  unify_post_tags m p = Ok q ->
  forall k, k <> tags_key -> dict_get k q = dict_get k p.
Proof.
  unfold unify_post_tags. intros H k Hk.
  destruct (py_iter (post_tags p)) as [tags | e]; cbn [rbind] in H; [ | discriminate].
  destruct (map_tags m [] tags) as [new | e]; cbn [rbind] in H; [ | discriminate].
  injection H as <-. apply dict_get_set_other. exact Hk.
Qed.

Lemma loop_trace_Forall2 nfkc py_format json_parse llm
    (R S : world -> dict -> dict -> Prop) (U : dict -> dict -> Prop)
    i w ps es out :
  (forall w p e q, R w p e -> U e q -> S w p q) ->
  loop_trace nfkc py_format json_parse llm R i w ps es ->
  Forall2 U es out ->
  loop_trace nfkc py_format json_parse llm S i w ps out.
Proof.
  intros HS H. revert out.
  induction H as [i w | i w p ps es w1 E H IH | i w p e q ps es w1 E Hr H IH];
    intros out HF.
  - inversion HF. apply trace_end.
  - eapply trace_skip; [exact E | apply IH; exact HF].
  - inversion HF as [| q' q2 es' out' Hu HF']; subst.
    eapply trace_keep; [exact E | exact (HS _ _ _ _ Hr Hu) | apply IH; exact HF'].
Qed.

Section Frame.

Variable nfkc : pystr -> pystr.
Variable py_format : json -> pystr.
Variable json_parse : pystr -> pyresult json.
Variable llm : nat -> template -> pystr -> pyresult pystr.

Lemma extraction_outcome_keys n post metadata :
  extraction_outcome py_format json_parse llm n post = Ok metadata ->
  forall k, In k required_keys -> In k (dict_keys metadata).
Proof.
  unfold extraction_outcome. intros H k Hk.
  destruct (llm n MetadataPrompt post) as [r | e]; cbn [rbind] in H; [ | discriminate].
  destruct (extract_json_from_response r) as [js | e]; cbn [rbind] in H;
    [ | discriminate].
  destruct (json_parse js) as [res | e]; cbn [rbind] in H; [ | discriminate].
  apply validate_metadata_ok in H. destruct H as (_ & Hkeys & _).
  apply dict_mem_keys, Hkeys, Hk.
Qed.

Ltac handler_absurd :=
  cbv beta iota; unfold handler_outcome;
  destruct (find_surrogate _ _) as [[[? ?] ?] | ]; discriminate.

Lemma process_post_some_at i post w e w1 :
  process_post nfkc py_format json_parse llm i post w = (Ok (Some e), w1) ->
  enriched_at nfkc py_format json_parse llm w post e.
Proof.
  destruct (excerpt py_format post) as [ex | x] eqn:Hex.
  - rewrite (process_post_run _ _ _ _ _ _ _ _ Hex), enrich_post_run.
    unfold subscript.
    destruct (dict_get text_key post) as [text | ] eqn:Ht;
      [ | handler_absurd].
    destruct (call_clean_text nfkc text) as [cleaned | x] eqn:Hc;
      [ | handler_absurd].
    cbn [calls logged].
    destruct (extraction_outcome _ _ _ _ cleaned) as [md | x] eqn:Hext;
      [ | handler_absurd].
    destruct (clean_metadata nfkc md) as [cmd | x] eqn:Hclean;
      [ | handler_absurd].
    intros [= <- _].
    destruct text; try discriminate Hc. cbn [call_clean_text] in Hc.
    exists s, cleaned, md, cmd. repeat split; assumption.
  - rewrite (process_post_no_excerpt _ _ _ _ _ _ _ _ Hex). discriminate.
Qed.

Lemma process_post_some i post w e w1 :
  process_post nfkc py_format json_parse llm i post w = (Ok (Some e), w1) ->
  merged_from nfkc py_format json_parse llm post e.
Proof.
  intros H. destruct (process_post_some_at _ _ _ _ _ H)
    as (text & cleaned & md & cmd & _ & _ & Hext & Hclean & ->).
  exists (calls w), cleaned, md, cmd. repeat split; assumption.
Qed.

(** The loop, post by post, with the world in which each is processed. *)
Lemma process_loop_trace posts :
  forall i acc w out w1,
    process_loop nfkc py_format json_parse llm i posts acc w = (Ok out, w1) ->
    exists es,
      out = acc ++ es
      /\ loop_trace nfkc py_format json_parse llm
           (enriched_at nfkc py_format json_parse llm) i w posts es.
Proof.
  induction posts as [| post rest IH]; intros i acc w out w1 H.
  - cbn [process_loop] in H. unfold ret in H. injection H as <- _.
    exists []. split; [symmetry; apply app_nil_r | apply trace_end].
  - rewrite process_loop_step in H.
    destruct (process_post _ _ _ _ i post w) as [[[e | ] | x] w'] eqn:E;
      [ | | discriminate].
    + destruct (IH _ _ _ _ _ H) as (es & -> & Hes).
      exists (e :: es). split; [rewrite <- app_assoc; reflexivity | ].
      eapply trace_keep; [exact E | exact (process_post_some_at _ _ _ _ _ E) | exact Hes].
    + destruct (IH _ _ _ _ _ H) as (es & -> & Hes).
      exists es. split; [reflexivity | eapply trace_skip; [exact E | exact Hes]].
Qed.

Lemma process_loop_enriched posts :
  forall i acc w out w1,
    process_loop nfkc py_format json_parse llm i posts acc w = (Ok out, w1) ->
    exists es, out = acc ++ es /\ enriched_from (merged_from nfkc py_format json_parse llm) posts es.
Proof.
  induction posts as [| post rest IH]; intros i acc w out w1 H.
  - cbn [process_loop] in H. unfold ret in H. injection H as <- _.
    exists []. split; [symmetry; apply app_nil_r | apply ef_nil].
  - rewrite process_loop_step in H.
    destruct (process_post _ _ _ _ i post w) as [[[e | ] | x] w'] eqn:E;
      [ | | discriminate].
    + destruct (IH _ _ _ _ _ H) as (es & -> & Hes).
      exists (e :: es). split; [rewrite <- app_assoc; reflexivity | ].
      apply ef_keep; [exact (process_post_some _ _ _ _ _ E) | exact Hes].
    + destruct (IH _ _ _ _ _ H) as (es & -> & Hes).
      exists es. split; [reflexivity | apply ef_skip, Hes].
Qed.

Lemma merged_frame post cleaned cleaned_metadata k :
  k <> text_key -> ~ In k (dict_keys cleaned_metadata) ->
  dict_get k (merged post cleaned cleaned_metadata) = dict_get k post.
Proof.
  intros Hk Hn. unfold merged.
  rewrite dict_get_update_other by assumption.
  apply dict_get_set_other. exact Hk.
Qed.

End Frame.

(* ================================================================== *)
(** * Applying a tag map *)
(* ================================================================== *)

Lemma map_tags_app m l1 :
  forall acc l2,
    map_tags m acc (l1 ++ l2)
    = rbind (map_tags m acc l1) (fun s => map_tags m s l2).
Proof.
  induction l1 as [| t r IH]; intros acc l2; cbn [app map_tags rbind].
  - reflexivity.
  - destruct (tagmap_get m t) as [v | e]; cbn [rbind]; [ | reflexivity].
    destruct (set_add v acc) as [s | e]; cbn [rbind]; [ | reflexivity].
    apply IH.
Qed.

Lemma set_add_pyset v s s' : set_add v s = Ok s' -> pyset s -> pyset s'.
Proof.
  unfold set_add. destruct (hashable v) eqn:Hh; [ | discriminate].
  destruct (existsb (py_eqb v) s) eqn:Hex; intros [= <-] Hs.
  - exact Hs.
  - apply pyset_snoc; assumption.
Qed.

Lemma set_add_members v s s' :
  set_add v s = Ok s' -> forall x, In x s' -> In x s \/ x = v.
Proof.
  unfold set_add. destruct (hashable v); [ | discriminate].
  destruct (existsb (py_eqb v) s); intros [= <-] x Hx.
  - left. exact Hx.
  - apply in_app_or in Hx. destruct Hx as [Hx | [Hx | []]]; auto.
Qed.

Lemma map_tags_pyset m l :
  forall acc s, map_tags m acc l = Ok s -> pyset acc -> pyset s.
Proof.
  induction l as [| t r IH]; intros acc s H Hacc; cbn [map_tags] in H.
  - injection H as <-. exact Hacc.
  - destruct (tagmap_get m t) as [v | e]; cbn [rbind] in H; [ | discriminate].
    destruct (set_add v acc) as [s1 | e] eqn:E; cbn [rbind] in H; [ | discriminate].
    apply (IH _ _ H). apply (set_add_pyset _ _ _ E Hacc).
Qed.

Lemma fixed_by_closed m v :
  fixed_by m v
  <-> hashable v = true
      /\ forall s, v = JStr s -> dict_get s m = None \/ dict_get s m = Some v.
Proof.
  unfold fixed_by. split.
  - intros H. destruct v as [ | b | n | s | l | d];
      cbn [tagmap_get hashable] in *; try discriminate;
      (split; [reflexivity | ]); try (intros s' Hs; discriminate Hs).
    intros s' [= <-]. destruct (dict_get s m) as [v' | ]; [right | left; reflexivity].
    injection H as ->. reflexivity.
  - intros (Hh & Hs). destruct v as [ | b | n | s | l | d];
      cbn [tagmap_get hashable] in *; try discriminate; try reflexivity.
    destruct (Hs s eq_refl) as [-> | ->]; reflexivity.
Qed.

Lemma tagmap_get_fixed m t v :
  canonical_closed m -> tagmap_get m t = Ok v -> fixed_by m v.
Proof.
  intros Hm H.
  destruct t as [ | b | n | s | l | d]; cbn [tagmap_get hashable] in H;
    try discriminate; try (injection H as <-; reflexivity).
  destruct (dict_get s m) as [v' | ] eqn:E; injection H as <-.
  - apply fixed_by_closed. exact (Hm _ _ E).
  - unfold fixed_by. cbn [tagmap_get]. rewrite E. reflexivity.
Qed.

Lemma map_tags_fixed m l :
  canonical_closed m ->
  forall acc s,
    map_tags m acc l = Ok s ->
    (forall x, In x acc -> fixed_by m x) ->
    forall x, In x s -> fixed_by m x.
Proof.
  intros Hm. induction l as [| t r IH]; intros acc s H Hacc; cbn [map_tags] in H.
  - injection H as <-. exact Hacc.
  - destruct (tagmap_get m t) as [v | e] eqn:Eg; cbn [rbind] in H; [ | discriminate].
    destruct (set_add v acc) as [s1 | e] eqn:E; cbn [rbind] in H; [ | discriminate].
    apply (IH _ _ H). intros x Hx.
    destruct (set_add_members _ _ _ E x Hx) as [Hin | ->].
    + apply Hacc, Hin.
    + apply (tagmap_get_fixed m t v Hm Eg).
Qed.

(** A set of tags the map fixes is rewritten into itself. *)
Lemma map_tags_identity m s :
  pyset s -> (forall x, In x s -> fixed_by m x) -> map_tags m [] s = Ok s.
Proof.
  induction 1 as [| s v Hs IH Hh Hex]; intros Hfix; [reflexivity | ].
  rewrite map_tags_app, IH by (intros x Hx; apply Hfix, in_or_app; left; exact Hx).
  cbn [rbind map_tags].
  rewrite (Hfix v) by (apply in_or_app; right; left; reflexivity).
  cbn [rbind]. unfold set_add. rewrite Hh, Hex. reflexivity.
Qed.

(* ================================================================== *)
(** * Properties of the text normaliser *)
(* ================================================================== *)

Lemma sample_text_wf : pystr_wf sample_text.
Proof. repeat constructor; unfold valid_cp; lia. Defined.

(** C6. [clean_text] is idempotent: cleaning a string returns a string
    that cleaning leaves as it is. *)
Theorem clean_text_idempotent (nfkc : pystr -> pystr) (x : pystr) :
  pystr_wf x ->
  exists y, clean_text nfkc x = Ok y /\ clean_text nfkc y = Ok y.
Proof.
  intros Hx. exists (cleaned_text x). split.
  - apply clean_text_primary, Hx.
  - destruct (clean_text_kept nfkc x (cleaned_text x) Hx
                (clean_text_primary nfkc x Hx)) as (Hk & Hl & Ht).
    apply clean_text_fixed; assumption.
Qed.

Lemma clean_text_idempotent_witness :
  pystr_wf sample_text /\
  exists y, clean_text (fun s => s) sample_text = Ok y
            /\ clean_text (fun s => s) y = Ok y.
Proof.
  split; [exact sample_text_wf | ].
  apply (clean_text_idempotent (fun s => s) sample_text). exact sample_text_wf.
Defined.

Lemma kept_emitted c : kept c -> emitted c.
Proof.
  intros [Hk _]. unfold in_keep_class in Hk. unfold emitted. lia.
Qed.

(** C7. Every character [clean_text] returns lies in 0x20-0x7E,
    U+00A0-U+FFFF or U+0D80-U+0DFF (or is a space), every other
    character of the input having been replaced by one space, and the
    result has no leading and no trailing whitespace. *)
Theorem clean_text_alphabet (nfkc : pystr -> pystr) (text : pystr) :
  pystr_wf text ->
  exists out,
    clean_text nfkc text = Ok out
    /\ Forall emitted out
    /\ no_leading_ws out /\ no_trailing_ws out
    /\ out = strip (map substitute (drop_surrogates text)).
Proof.
  intros H. exists (cleaned_text text).
  pose proof (clean_text_primary nfkc text H) as E.
  destruct (clean_text_kept nfkc text _ H E) as (Hk & Hl & Ht).
  repeat split; try assumption.
  eapply Forall_impl; [ | exact Hk]. exact kept_emitted.
Qed.

Lemma clean_text_alphabet_witness :
  pystr_wf sample_text /\
  exists out,
    clean_text (fun s => s) sample_text = Ok out
    /\ Forall emitted out
    /\ no_leading_ws out /\ no_trailing_ws out
    /\ out = strip (map substitute (drop_surrogates sample_text)).
Proof.
  split; [exact sample_text_wf | ].
  apply (clean_text_alphabet (fun s => s) sample_text). exact sample_text_wf.
Defined.

(** C10. [clean_text] is total and its [except] branch is dead: the
    encoding with [errors='ignore'] never raises, the re-encoding
    returns the text without its surrogates, so the result is the one
    of the primary path whatever the normalisation table of the
    fallback is. *)
Theorem clean_text_total (nfkc : pystr -> pystr) (text : pystr) :
  pystr_wf text ->
  (exists b, str_encode Ignore text = Ok b)
  /\ reencode text = Ok (drop_surrogates text)
  /\ clean_text nfkc text = Ok (strip (re_sub_keep (drop_surrogates text)))
  /\ (forall nfkc', clean_text nfkc' text = clean_text nfkc text).
Proof.
  intros H. split; [apply str_encode_ignore_ok | ].
  split; [apply reencode_drops_surrogates, H | ].
  split; [apply clean_text_primary, H | ].
  intros nfkc'. rewrite !clean_text_primary by assumption. reflexivity.
Qed.

Lemma clean_text_total_witness :
  pystr_wf sample_text /\
  clean_text (fun _ => []) sample_text = Ok [72; 32; 105; 32; 0x0D85].
Proof.
  split; [exact sample_text_wf | ].
  destruct (clean_text_total (fun _ => []) sample_text sample_text_wf)
    as (_ & _ & E & _).
  rewrite E. reflexivity.
Defined.

(* ================================================================== *)
(** * Properties of the brace extraction and of the extractor *)
(* ================================================================== *)

(** C4. The extractor takes the first brace-delimited substring of the
    response, the shortest one from its opening brace, whatever
    characters it spans, and parses it: the response with prose around
    the object gives the three expected fields, and a response without
    such a substring fails with the extraction format error. *)
Theorem brace_extraction
    (py_format : json -> pystr) (json_parse : pystr -> pyresult json)
    (llm : nat -> template -> pystr -> pyresult pystr) :
  (forall response m,
      re_search_braces response = Some m <->
      exists pre body post,
        response = pre ++ lbrace :: body ++ rbrace :: post
        /\ m = lbrace :: body ++ [rbrace]
        /\ ~ In rbrace body /\ ~ In lbrace pre)
  /\ (forall post w response m,
         llm (calls w) MetadataPrompt post = Ok response ->
         re_search_braces response = Some m ->
         extract_metadata py_format json_parse llm post w =
         match rbind (json_parse m) (validate_metadata py_format) with
         | Ok d => (Ok d, called w)
         | Raise e =>
             (Raise (metadata_relabelled e),
              logged ERROR (str_exc (metadata_relabelled e)) (called w))
         end)
  /\ (extract_json_from_response sure_response
        = Ok (pyj "{'line_count': 3, 'language': 'English', 'tags': ['Motivation']}")
      /\ forall post w,
           extract_metadata py_format json_loads (fun _ _ _ => Ok sure_response) post w
           = (Ok sure_metadata, called w))
  /\ (forall post w response,
         llm (calls w) MetadataPrompt post = Ok response ->
         (forall pre body post', response <> pre ++ lbrace :: body ++ rbrace :: post') ->
         extract_json_from_response response = Raise (ValueError no_json_msg)
         /\ extract_metadata py_format json_parse llm post w
            = (Raise ExtractionFormatError,
               logged ERROR (str_exc ExtractionFormatError) (called w))).
Proof.
  split; [ | split; [ | split]].
  - intros response m. split.
    + apply re_search_braces_some.
    + intros (pre & body & post & -> & -> & Hb & Hp).
      apply re_search_braces_first; assumption.
  - intros post w response m Hllm Hm.
    rewrite extract_metadata_run.
    unfold extraction_outcome, extract_json_from_response.
    rewrite Hllm; cbn [rbind]. rewrite Hm; cbn [rbind]. reflexivity.
  - split; [reflexivity | ].
    intros post w. rewrite extract_metadata_run. reflexivity.
  - intros post w response Hllm Hno.
    apply re_search_braces_none in Hno. split.
    + unfold extract_json_from_response. rewrite Hno. reflexivity.
    + rewrite extract_metadata_run.
      unfold extraction_outcome, extract_json_from_response.
      rewrite Hllm; cbn [rbind]. rewrite Hno. reflexivity.
Qed.

Lemma brace_extraction_witness :
  (forall pre body post', prose_response <> pre ++ lbrace :: body ++ rbrace :: post')
  /\ extract_metadata py_repr json_loads (fun _ _ _ => Ok prose_response) [] w0
     = (Raise ExtractionFormatError,
        logged ERROR (str_exc ExtractionFormatError) (called w0)).
Proof.
  assert (H : forall pre body post',
             prose_response <> pre ++ lbrace :: body ++ rbrace :: post').
  { apply re_search_braces_none. reflexivity. }
  split; [exact H | ].
  destruct (brace_extraction py_repr json_loads
              (fun _ _ _ => Ok prose_response)) as (_ & _ & _ & Hnone).
  exact (proj2 (Hnone [] w0 prose_response eq_refl H)).
Defined.

(** C5. The extractor returns the parsed result, as it is, exactly when
    it is a mapping that has the keys [line_count], [language] and
    [tags] and whose language is "English" or "Sinhala"; otherwise it
    fails with a validation error, as it does on the language
    "French". *)
Theorem metadata_validation
    (py_format : json -> pystr) (json_parse : pystr -> pyresult json)
    (llm : nat -> template -> pystr -> pyresult pystr) :
  (forall res d, validate_metadata py_format res = Ok d <-> valid_metadata res d)
  /\ (forall post w response json_str res,
         llm (calls w) MetadataPrompt post = Ok response ->
         extract_json_from_response response = Ok json_str ->
         json_parse json_str = Ok res ->
         (forall d, valid_metadata res d ->
                    extract_metadata py_format json_parse llm post w
                    = (Ok d, called w))
         /\ ((forall d, ~ valid_metadata res d) ->
             exists e,
               ValidationError py_format e
               /\ extract_metadata py_format json_parse llm post w
                  = (Raise e, logged ERROR (str_exc e) (called w))))
  /\ (forall post w,
         let e := PyException
                    (py "Error extracting metadata: Invalid language 'French' returned by LLM.") in
         ValidationError py_format e
         /\ extract_metadata py_format json_loads (fun _ _ _ => Ok french_response) post w
            = (Raise e, logged ERROR (str_exc e) (called w))).
Proof.
  split; [ | split].
  - intros res d. apply validate_metadata_ok.
  - intros post w response js res Hllm Hjs Hres. split.
    + intros d Hd. rewrite extract_metadata_run. unfold extraction_outcome.
      rewrite Hllm; cbn [rbind]. rewrite Hjs; cbn [rbind]. rewrite Hres; cbn [rbind].
      apply (validate_metadata_ok py_format) in Hd. rewrite Hd. reflexivity.
    + intros Hno. rewrite extract_metadata_run. unfold extraction_outcome.
      rewrite Hllm; cbn [rbind]. rewrite Hjs; cbn [rbind]. rewrite Hres; cbn [rbind].
      destruct (validate_metadata py_format res) as [d | e] eqn:E.
      * exfalso. apply (Hno d), (validate_metadata_ok py_format), E.
      * exists (metadata_relabelled e). split; [ | reflexivity].
        destruct (validate_metadata_raises _ _ _ E) as [-> | [lang ->]].
        -- left. reflexivity.
        -- right. exists lang. reflexivity.
  - intros post w e. split.
    + right. exists (JStr (py "French")). reflexivity.
    + rewrite extract_metadata_run. reflexivity.
Qed.

Lemma metadata_validation_witness :
  valid_metadata (JDict sure_metadata) sure_metadata
  /\ extract_metadata py_repr json_loads (fun _ _ _ => Ok sure_response) [] w0
     = (Ok sure_metadata, called w0).
Proof.
  assert (H : valid_metadata (JDict sure_metadata) sure_metadata).
  { destruct (metadata_validation py_repr json_loads (fun _ _ _ => Ok []))
      as (Hv & _).
    apply Hv. reflexivity. }
  split; [exact H | ].
  destruct (metadata_validation py_repr json_loads
              (fun _ _ _ => Ok sure_response)) as (_ & Hrun & _).
  destruct (Hrun [] w0 sure_response
              (pyj "{'line_count': 3, 'language': 'English', 'tags': ['Motivation']}")
              (JDict sure_metadata) eq_refl eq_refl eq_refl) as [Hok _].
  exact (Hok sure_metadata H).
Defined.

(* ================================================================== *)
(** * Properties of the batch loop *)
(* ================================================================== *)

(** C1. A post without a ['text'] key is not skipped: line 65 reads
    [post['text']] before the membership test of line 66, the handler
    of line 81 reads it again, and the [KeyError] leaves the loop. The
    run stops at that post, whatever follows it, with the message of
    the [KeyError] and not with the empty-result error; neither the
    "missing 'text' field" warning nor a per-post error is logged. *)
Theorem missing_text_aborts_run
    (nfkc : pystr -> pystr) (py_format : json -> pystr)
    (json_parse : pystr -> pyresult json)
    (llm : nat -> template -> pystr -> pyresult pystr)
    (rest : list dict) (w : world) :
  process_posts nfkc py_format json_parse llm (untitled_post :: rest) w
  = (Raise (PyException (py "Error processing posts: 'text'")),
     logged ERROR (py "Error processing posts: 'text'") w)
  /\ PyException (py "Error processing posts: 'text'") <> EmptyResultError.
Proof.
  split; [ | discriminate].
  unfold process_posts, process_posts_body, try_except, bind.
  rewrite process_loop_no_text by reflexivity. reflexivity.
Qed.

(** C3. When no post is left after the loop the run fails with the
    empty-result error: the [ValueError] of line 89, re-raised by the
    outer handler under its prefix. The empty batch is such a run. *)
Theorem empty_result_is_fatal
    (nfkc : pystr -> pystr) (py_format : json -> pystr)
    (json_parse : pystr -> pyresult json)
    (llm : nat -> template -> pystr -> pyresult pystr) :
  (forall posts w w1,
      process_loop nfkc py_format json_parse llm 0 posts [] w = (Ok [], w1) ->
      process_posts_body nfkc py_format json_parse llm posts w
      = (Raise (ValueError empty_msg), logged ERROR empty_msg w1)
      /\ process_posts nfkc py_format json_parse llm posts w
         = (Raise EmptyResultError,
            logged ERROR (str_exc EmptyResultError) (logged ERROR empty_msg w1)))
  /\ (forall w,
         process_posts nfkc py_format json_parse llm [] w
         = (Raise EmptyResultError,
            logged ERROR (str_exc EmptyResultError) (logged ERROR empty_msg w)))
  /\ str_exc EmptyResultError
     = py "Error processing posts: No posts were successfully processed.".
Proof.
  assert (Hbody : forall posts w w1,
             process_loop nfkc py_format json_parse llm 0 posts [] w = (Ok [], w1) ->
             process_posts_body nfkc py_format json_parse llm posts w
             = (Raise (ValueError empty_msg), logged ERROR empty_msg w1)).
  { intros posts w w1 H. unfold process_posts_body, bind. rewrite H. reflexivity. }
  assert (Hrun : forall posts w w1,
             process_loop nfkc py_format json_parse llm 0 posts [] w = (Ok [], w1) ->
             process_posts nfkc py_format json_parse llm posts w
             = (Raise EmptyResultError,
                logged ERROR (str_exc EmptyResultError) (logged ERROR empty_msg w1))).
  { intros posts w w1 H. unfold process_posts, try_except.
    rewrite (Hbody _ _ _ H). reflexivity. }
  split; [ | split].
  - intros posts w w1 H. split; [apply Hbody | apply Hrun]; exact H.
  - intros w. apply Hrun. reflexivity.
  - reflexivity.
Qed.

Lemma empty_result_is_fatal_witness :
  let posts := [[(text_key, JStr (py "Hello"))]] in
  exists w1,
    process_loop (fun s => s) py_repr json_loads failing_llm 0 posts [] w0
    = (Ok [], w1)
    /\ process_posts (fun s => s) py_repr json_loads failing_llm posts w0
       = (Raise EmptyResultError,
          logged ERROR (str_exc EmptyResultError) (logged ERROR empty_msg w1)).
Proof.
  intros posts.
  destruct (process_loop (fun s => s) py_repr json_loads failing_llm 0 posts [] w0)
    as [r w1] eqn:E.
  vm_compute in E. injection E as <- <-.
  eexists. split; [reflexivity | ].
  destruct (empty_result_is_fatal (fun s => s) py_repr json_loads failing_llm)
    as (Hfatal & _).
  refine (proj2 (Hfatal posts w0 _ _)). reflexivity.
Defined.

(** C2. The isolation of a failing post is not achieved, because the
    handler of lines 80-84 can itself raise, and what it raises leaves
    the loop. It evaluates [post['text'][:100]] again, which raises for
    a text that cannot be sliced (here the number 5); and it prints the
    record, which raises when the excerpt holds a lone surrogate (here
    the text "Hi" followed by half of a surrogate pair, the extraction
    failing). In both cases the run stops at that post, whatever posts
    follow: none of them is processed. *)
Theorem handler_failure_aborts_run
    (nfkc : pystr -> pystr) (py_format : json -> pystr)
    (json_parse : pystr -> pyresult json) (rest : list dict) (w : world) :
  (forall llm,
      let failure :=
        py "Error processing posts: 'int' object is not subscriptable" in
      process_posts nfkc py_format json_parse llm (number_post :: rest) w
      = (Raise (PyException failure), logged ERROR failure w))
  /\ (let excerpt := py "Hi" ++ [0xD83D] in
      let record :=
        py "Error processing post 0: " ++ excerpt
           ++ py "... | Error: Error extracting metadata: connection reset" in
      let failure :=
        py "Error processing posts: 'utf-8' codec can't encode character '\ud83d' in position 27: surrogates not allowed" in
      process_posts nfkc py_format json_parse failing_llm
        (half_emoji_post :: rest) w
      = (Raise (PyException failure),
         logged ERROR failure
           (logged ERROR record
              (logged ERROR (py "Error extracting metadata: connection reset")
                 (called
                    (logged INFO
                       (py "Processing post 0: " ++ excerpt ++ py "...") w)))))).
Proof.
  split.
  - intros llm failure. reflexivity.
  - reflexivity.
Qed.

Ltac wf_literal :=
  match goal with
  | |- pystr_wf ?s =>
      let l := eval vm_compute in s in
      change (pystr_wf l);
      repeat (apply Forall_cons; [unfold valid_cp; lia | ]);
      apply Forall_nil
  end.

(* ================================================================== *)
(** * The merge and the tag map *)
(* ================================================================== *)

(** C8, as stated, fails: [update] merges every key of the answer of
    the model, here an ['author'] key that replaces the one of the
    post. *)
Lemma merge_overwrites_extra_key :
  exists e w,
    process_posts (fun s => s) py_repr json_loads chatty_llm [authored_post] w0
    = (Ok [e], w)
    /\ ~ In (py "author") [text_key; line_count_key; language_key; tags_key]
    /\ dict_get (py "author") authored_post = Some (JStr (py "Alice"))
    /\ dict_get (py "author") e = Some (JStr (py "model"))
    /\ dict_get (py "author") e <> dict_get (py "author") authored_post.
Proof.
  destruct (process_posts (fun s => s) py_repr json_loads chatty_llm
              [authored_post] w0) as [r w] eqn:E.
  vm_compute in E. injection E as <- <-.
  eexists. eexists. split; [reflexivity | ].
  split.
  - intros [H | [H | [H | [H | []]]]]; discriminate H.
  - split; [reflexivity | ]. split; [reflexivity | ]. discriminate.
Qed.

(** C8, amended. Every post a run returns agrees with its original on
    every field that is neither ['text'] nor a key of the metadata the
    extractor returned for that post (for its cleaned text, at the
    invocation made for it); these keys include [line_count],
    [language] and [tags]. *)
Theorem merge_frame
    (nfkc : pystr -> pystr) (py_format : json -> pystr)
    (json_parse : pystr -> pyresult json)
    (llm : nat -> template -> pystr -> pyresult pystr)
    (posts : list dict) (w : world) (out : list dict) (w2 : world) :
  process_posts nfkc py_format json_parse llm posts w = (Ok out, w2) ->
  loop_trace nfkc py_format json_parse llm
    (keeps_other_fields nfkc py_format json_parse llm) 0 w posts out.
Proof.
  intros Hrun.
  destruct (process_posts_ok _ _ _ _ _ _ _ _ Hrun)
    as (enriched & w1 & cm & Hloop & _ & HF).
  destruct (process_loop_trace _ _ _ _ _ _ _ _ _ _ Hloop) as (es & Hes & Hen).
  cbn [app] in Hes. subst es.
  eapply loop_trace_Forall2; [ | exact Hen | exact HF].
  intros wp p e q Hr Hu. cbv beta in Hu.
  destruct Hr as (text & cleaned & md & cmd & Ht & Hc & Hext & Hclean & ->).
  exists text, cleaned, md.
  split; [exact Ht | ]. split; [exact Hc | ]. split; [exact Hext | ]. split.
  - apply (extraction_outcome_keys _ _ _ _ _ _ Hext).
  - intros k Hk Hn.
    rewrite (unify_post_tags_frame _ _ _ Hu).
    + apply merged_frame; [exact Hk | ].
      intros Hin. apply Hn. apply (clean_metadata_keys _ _ _ Hclean). exact Hin.
    + intros ->. apply Hn.
      apply (extraction_outcome_keys _ _ _ _ _ _ Hext). cbn. auto.
Qed.

Lemma merge_frame_witness :
  exists e w,
    process_posts (fun s => s) py_repr json_loads chatty_llm [authored_post] w0
    = (Ok [e], w)
    /\ loop_trace (fun s => s) py_repr json_loads chatty_llm
         (keeps_other_fields (fun s => s) py_repr json_loads chatty_llm)
         0 w0 [authored_post] [e].
Proof.
  destruct (process_posts (fun s => s) py_repr json_loads chatty_llm
              [authored_post] w0) as [r w] eqn:E.
  vm_compute in E. injection E as <- <-.
  eexists. eexists. split; [reflexivity | ].
  eapply (merge_frame (fun s => s) py_repr json_loads chatty_llm
            [authored_post] w0).
  vm_compute. reflexivity.
Defined.

(** C9, as stated, fails: nothing makes the map the model returns send
    its own values to themselves. Here "Careers" is a value of the map
    and the map sends it to "Work"; a tag set already rewritten is
    rewritten again into another one. *)
Lemma tagmap_not_idempotent :
  (exists w,
      get_unified_tags (fun s => s) json_loads chained_llm
        [[(tags_key, JList [JStr (py "Jobs"); JStr (py "Careers")])]] w0
      = (Ok chained_map, w))
  /\ clean_metadata (fun s => s) chained_map = Ok chained_map
  /\ dict_get (py "Jobs") chained_map = Some (JStr (py "Careers"))
  /\ tagmap_get chained_map (JStr (py "Careers")) = Ok (JStr (py "Work"))
  /\ tagmap_get chained_map (JStr (py "Careers")) <> Ok (JStr (py "Careers"))
  /\ map_tags chained_map [] [JStr (py "Jobs")] = Ok [JStr (py "Careers")]
  /\ map_tags chained_map [] [JStr (py "Careers")] = Ok [JStr (py "Work")].
Proof.
  split.
  - eexists. vm_compute. reflexivity.
  - split; [reflexivity | ]. split; [reflexivity | ]. split; [reflexivity | ].
    split; [discriminate | ]. split; reflexivity.
Qed.

(** The condition on the values has to be read on the cleaned map,
    the one the tags are looked up in: cleaning can turn a value that
    is no key into one that is. *)
Example closed_before_cleaning :
  canonical_closed spaced_map
  /\ clean_metadata (fun s => s) spaced_map = Ok unspaced_map
  /\ tagmap_get unspaced_map (JStr (py "Hiring")) = Ok (JStr (py "Work"))
  /\ ~ canonical_closed unspaced_map.
Proof.
  split; [ | split; [reflexivity | split; [reflexivity | ]]].
  - intros k v H. unfold spaced_map in H. cbn [dict_get] in H.
    destruct (pystr_eqb k (py "Jobs")).
    + injection H as <-. split; [reflexivity | ].
      intros s [= <-]. left. reflexivity.
    + destruct (pystr_eqb k (py "Hiring")); [ | discriminate].
      injection H as <-. split; [reflexivity | ].
      intros s [= <-]. left. reflexivity.
  - intros H.
    destruct (H (py "Jobs") (JStr (py "Hiring")) eq_refl) as (_ & Hs).
    destruct (Hs (py "Hiring") eq_refl) as [E | E]; discriminate E.
Qed.

(** C9, amended. Take the map [get_unified_tags] returns, cleaned by
    [clean_metadata] as lines 91-96 apply it. It sends every tag of its
    value set to itself exactly when each of its values can be looked
    up and, if it is also a key of the cleaned map, is its own image (a
    tag that is no key is returned by the default of the lookup). When
    that holds, rewriting the tags of a post that were already
    rewritten through the map gives the same tags. *)
Theorem tagmap_idempotent_when_closed
    (nfkc : pystr -> pystr) (json_parse : pystr -> pyresult json)
    (llm : nat -> template -> pystr -> pyresult pystr)
    (posts : list dict) (w w1 : world)
    (unified_tags cleaned_unified_tags : dict) :
  get_unified_tags nfkc json_parse llm posts w = (Ok unified_tags, w1) ->
  clean_metadata nfkc unified_tags = Ok cleaned_unified_tags ->
  ((forall k v, dict_get k cleaned_unified_tags = Some v ->
                tagmap_get cleaned_unified_tags v = Ok v)
   <-> canonical_closed cleaned_unified_tags)
  /\ (canonical_closed cleaned_unified_tags ->
      forall post rewritten,
        unify_post_tags cleaned_unified_tags post = Ok rewritten ->
        exists again,
          unify_post_tags cleaned_unified_tags rewritten = Ok again
          /\ same_tags rewritten again).
Proof.
  intros _ _. split.
  - split.
    + intros H k v Hk. apply fixed_by_closed. exact (H k v Hk).
    + intros H k v Hk. apply fixed_by_closed. exact (H k v Hk).
  - intros Hm post rewritten H.
    unfold unify_post_tags in H.
    destruct (py_iter (post_tags post)) as [tags | e]; cbn [rbind] in H;
      [ | discriminate].
    destruct (map_tags cleaned_unified_tags [] tags) as [new | e] eqn:E;
      cbn [rbind] in H; [ | discriminate].
    injection H as <-.
    assert (Hget : dict_get tags_key (dict_set tags_key (JList new) post)
                   = Some (JList new)) by apply dict_get_set_same.
    assert (Hid : map_tags cleaned_unified_tags [] new = Ok new).
    { apply map_tags_identity.
      - apply (map_tags_pyset _ _ _ _ E). constructor.
      - apply (map_tags_fixed cleaned_unified_tags tags Hm _ _ E). intros x []. }
    exists (dict_set tags_key (JList new) (dict_set tags_key (JList new) post)).
    split.
    + unfold unify_post_tags, post_tags. rewrite Hget. cbn [py_iter rbind].
      rewrite Hid. reflexivity.
    + exists new, new. split; [exact Hget | ]. split.
      * apply dict_get_set_same.
      * split; [intros x; reflexivity | ].
        intros k Hk. apply dict_get_set_other. exact Hk.
Qed.

Lemma tagmap_idempotent_when_closed_witness :
  exists w1,
    get_unified_tags (fun s => s) json_loads closed_llm
      [[(tags_key, JList [JStr (py "Jobs"); JStr (py "Careers")])]] w0
    = (Ok closed_map, w1)
    /\ clean_metadata (fun s => s) closed_map = Ok closed_map
    /\ canonical_closed closed_map
    /\ tagmap_get closed_map (JStr (py "Careers")) = Ok (JStr (py "Careers"))
    /\ exists again,
         unify_post_tags closed_map [(tags_key, JList [JStr (py "Careers")])]
         = Ok again
         /\ same_tags [(tags_key, JList [JStr (py "Careers")])] again.
Proof.
  assert (Hc : canonical_closed closed_map).
  { intros k v H. unfold closed_map in H. cbn [dict_get] in H.
    destruct (pystr_eqb k (py "Jobs")).
    - injection H as <-. split; [reflexivity | ].
      intros s [= <-]. right. reflexivity.
    - destruct (pystr_eqb k (py "Careers")); [ | discriminate].
      injection H as <-. split; [reflexivity | ].
      intros s [= <-]. right. reflexivity. }
  assert (E : exists w1,
             get_unified_tags (fun s => s) json_loads closed_llm
               [[(tags_key, JList [JStr (py "Jobs"); JStr (py "Careers")])]] w0
             = (Ok closed_map, w1)).
  { eexists. vm_compute. reflexivity. }
  destruct E as (w1 & E). exists w1. split; [exact E | ].
  assert (Hclean : clean_metadata (fun s => s) closed_map = Ok closed_map)
    by reflexivity.
  split; [exact Hclean | ]. split; [exact Hc | ].
  destruct (tagmap_idempotent_when_closed (fun s => s) json_loads closed_llm
              _ w0 w1 closed_map closed_map E Hclean) as (Hiff & Hset).
  split.
  - apply (proj2 Hiff Hc (py "Jobs")). reflexivity.
  - apply (Hset Hc [(tags_key, JList [JStr (py "Jobs")])]). reflexivity.
Defined.

(* ================================================================== *)
(** * Further properties of the text normaliser *)
(* ================================================================== *)

(** X1. The strings [clean_text] returns unchanged are exactly those
    made of characters of the class, without surrogate, that neither
    start nor end with whitespace. *)
Theorem clean_text_fixed_points (nfkc : pystr -> pystr) (x : pystr) :
  pystr_wf x ->
  (clean_text nfkc x = Ok x <->
   Forall kept x /\ no_leading_ws x /\ no_trailing_ws x).
Proof.
  intros Hx. split.
  - intros H. exact (clean_text_kept nfkc x x Hx H).
  - intros (Hk & Hl & Ht). apply clean_text_fixed; assumption.
Qed.

Lemma clean_text_fixed_points_witness :
  pystr_wf (py "Job Search") /\
  (clean_text (fun s => s) (py "Job Search") = Ok (py "Job Search") <->
   Forall kept (py "Job Search") /\ no_leading_ws (py "Job Search")
   /\ no_trailing_ws (py "Job Search")).
Proof.
  assert (H : pystr_wf (py "Job Search")) by wf_literal.
  split; [exact H | ].
  exact (clean_text_fixed_points (fun s => s) (py "Job Search") H).
Defined.

Lemma length_lstrip s : (List.length (lstrip s) <= List.length s)%nat.
Proof.
  induction s as [| c r IH]; cbn [lstrip]; [apply Nat.le_refl | ].
  destruct (py_isspace c); cbn [List.length]; lia.
Qed.

Lemma length_strip s : (List.length (strip s) <= List.length s)%nat.
Proof.
  unfold strip, rstrip. rewrite length_rev.
  pose proof (length_lstrip (rev (lstrip s))) as H1.
  rewrite length_rev in H1. pose proof (length_lstrip s). lia.
Qed.

Lemma length_drop_surrogates s :
  (List.length (drop_surrogates s) <= List.length s)%nat.
Proof. apply filter_length_le. Qed.

(** X2. [clean_text] never lengthens a text: a character is kept,
    replaced by one space, or removed. *)
Theorem clean_text_length (nfkc : pystr -> pystr) (text out : pystr) :
  pystr_wf text -> clean_text nfkc text = Ok out ->
  (List.length out <= List.length text)%nat.
Proof.
  intros H E. rewrite clean_text_primary in E by assumption.
  injection E as <-.
  pose proof (length_strip (re_sub_keep (drop_surrogates text))) as H1.
  unfold re_sub_keep in H1 at 2. rewrite length_map in H1.
  pose proof (length_drop_surrogates text). lia.
Qed.

Lemma clean_text_length_witness :
  pystr_wf sample_text /\
  (List.length (cleaned_text sample_text) <= List.length sample_text)%nat.
Proof.
  split; [exact sample_text_wf | ].
  apply (clean_text_length (fun s => s) sample_text _ sample_text_wf).
  reflexivity.
Defined.

Lemma utf8_encode_cp_bytes c :
  valid_cp c -> Forall is_byte (utf8_encode_cp c).
Proof.
  intros Hv. rewrite utf8_encode_cp_arith by assumption.
  destruct Hv as [Hlo Hhi]. unfold is_byte.
  destruct (Z.ltb_spec c 0x80); [repeat constructor; lia | ].
  destruct (Z.ltb_spec c 0x800); [repeat constructor; divmod | ].
  destruct (Z.ltb_spec c 0x10000); repeat constructor; divmod.
Qed.

Lemma utf8_encode_cp_length c :
  (1 <= List.length (utf8_encode_cp c) <= 4)%nat.
Proof.
  unfold utf8_encode_cp.
  destruct (c <? 0x80); [cbn; lia | ].
  destruct (c <? 0x800); [cbn; lia | ].
  destruct (c <? 0x10000); cbn; lia.
Qed.

(** X3. The encoding of line 21 writes bytes, at most four for a
    character and none for a surrogate, and decoding them gives the
    text back without its surrogates: a text without surrogates comes
    back unchanged. *)
Theorem reencode_round_trip (text : pystr) :
  pystr_wf text ->
  exists b,
    str_encode Ignore text = Ok b
    /\ Forall is_byte b
    /\ (List.length (drop_surrogates text) <= List.length b
        <= 4 * List.length (drop_surrogates text))%nat
    /\ bytes_decode b = Ok (drop_surrogates text)
    /\ (Forall (fun c => is_surrogate c = false) text -> bytes_decode b = Ok text).
Proof.
  intros Hwf.
  assert (Hb : exists b,
             str_encode Ignore text = Ok b /\ Forall is_byte b
             /\ (List.length (drop_surrogates text) <= List.length b
                 <= 4 * List.length (drop_surrogates text))%nat).
  { induction Hwf as [| c r Hc Hr (b & Eb & Hbytes & Hlen)].
    - exists []. repeat split; cbn; try constructor; lia.
    - cbn [str_encode drop_surrogates filter].
      destruct (is_surrogate c); cbn [negb].
      + exists b. repeat split; assumption || apply Hlen.
      + rewrite Eb. cbn [rbind]. eexists. split; [reflexivity | ]. split.
        * apply Forall_app. split; [apply utf8_encode_cp_bytes, Hc | exact Hbytes].
        * rewrite length_app. cbn [List.length].
          fold (drop_surrogates r).
          pose proof (utf8_encode_cp_length c). lia. }
  destruct Hb as (b & Eb & Hbytes & Hlen).
  pose proof (reencode_drops_surrogates text Hwf) as Hre.
  unfold reencode in Hre. rewrite Eb in Hre. cbn [rbind] in Hre.
  exists b. repeat split; try assumption; try apply Hlen.
  intros Hns. rewrite Hre. f_equal.
  unfold drop_surrogates. clear -Hns.
  induction Hns as [| c r Hc Hr IH]; cbn [filter]; [reflexivity | ].
  rewrite Hc. cbn [negb]. f_equal. exact IH.
Qed.

Lemma reencode_round_trip_witness :
  pystr_wf sample_text /\
  exists b,
    str_encode Ignore sample_text = Ok b
    /\ Forall is_byte b
    /\ (List.length (drop_surrogates sample_text) <= List.length b
        <= 4 * List.length (drop_surrogates sample_text))%nat
    /\ bytes_decode b = Ok (drop_surrogates sample_text)
    /\ (Forall (fun c => is_surrogate c = false) sample_text ->
        bytes_decode b = Ok sample_text).
Proof.
  split; [exact sample_text_wf | ].
  exact (reencode_round_trip sample_text sample_text_wf).
Defined.

(* ================================================================== *)
(** * Further properties of [clean_metadata] *)
(* ================================================================== *)

Lemma clean_item_ok nfkc item :
  item_wf item -> clean_item nfkc item = Ok (cleaned_item item).
Proof.
  destruct item; cbn [item_wf clean_item cleaned_item]; try reflexivity.
  intros H. rewrite clean_text_primary by assumption. reflexivity.
Qed.

Lemma mapM_clean_items nfkc l :
  Forall item_wf l -> mapM (clean_item nfkc) l = Ok (map cleaned_item l).
Proof.
  induction 1 as [| x r Hx Hr IH]; cbn [mapM map]; [reflexivity | ].
  rewrite clean_item_ok by assumption. cbn [rbind]. rewrite IH. reflexivity.
Qed.

Lemma clean_value_ok nfkc v :
  value_wf v -> clean_value nfkc v = Ok (cleaned_value v).
Proof.
  destruct v; cbn [value_wf clean_value cleaned_value]; try reflexivity.
  - intros H. rewrite clean_text_primary by assumption. reflexivity.
  - intros H. rewrite mapM_clean_items by assumption. reflexivity.
Qed.

Lemma dict_set_fresh k v d :
  ~ In k (dict_keys d) -> dict_set k v d = d ++ [(k, v)].
Proof.
  induction d as [| [k0 v0] r IH]; intros H; cbn [dict_set app]; [reflexivity | ].
  cbn [dict_keys map fst In] in H.
  rewrite pystr_eqb_neq by (intros ->; apply H; left; reflexivity).
  rewrite IH by (intros X; apply H; right; exact X). reflexivity.
Qed.

Lemma clean_metadata_from_ok nfkc items :
  forall cleaned,
    metadata_wf items ->
    NoDup (dict_keys cleaned ++ dict_keys items) ->
    clean_metadata_from nfkc cleaned items
    = Ok (cleaned ++ cleaned_metadata_of items).
Proof.
  induction items as [| [k v] r IH]; intros cleaned Hwf Hnd;
    cbn [clean_metadata_from cleaned_metadata_of map].
  - rewrite app_nil_r. reflexivity.
  - inversion Hwf as [| x l Hv Hr]; subst. cbn [snd fst] in *.
    rewrite clean_value_ok by assumption. cbn [rbind].
    cbn [dict_keys map fst] in Hnd.
    rewrite dict_set_fresh.
    + rewrite IH; [rewrite <- app_assoc; reflexivity | exact Hr | ].
      unfold dict_keys. rewrite map_app. cbn [map fst].
      rewrite <- app_assoc. exact Hnd.
    + apply NoDup_remove_2 in Hnd. intros X. apply Hnd.
      apply in_or_app. left. exact X.
Qed.

Lemma dict_get_cleaned k m :
  dict_get k (cleaned_metadata_of m) = option_map cleaned_value (dict_get k m).
Proof.
  induction m as [| [k0 v0] r IH]; cbn [cleaned_metadata_of map dict_get fst snd];
    [reflexivity | ].
  destruct (pystr_eqb k k0); [reflexivity | exact IH].
Qed.

(** X4. On a mapping with distinct keys [clean_metadata] keeps the keys
    and their order and cleans each value on its own: a string is
    cleaned, a list has its string items cleaned, any other value (a
    number, a nested mapping, a list inside a list) is returned as it
    is. *)
Theorem clean_metadata_values (nfkc : pystr -> pystr) (metadata : dict) :
  metadata_wf metadata -> NoDup (dict_keys metadata) ->
  exists cleaned,
    clean_metadata nfkc metadata = Ok cleaned
    /\ dict_keys cleaned = dict_keys metadata
    /\ (forall key, dict_get key cleaned
                    = option_map cleaned_value (dict_get key metadata)).
Proof.
  intros Hwf Hnd. exists (cleaned_metadata_of metadata). split; [ | split].
  - unfold clean_metadata. rewrite clean_metadata_from_ok; trivial.
  - unfold dict_keys, cleaned_metadata_of. rewrite map_map. reflexivity.
  - intros key. apply dict_get_cleaned.
Qed.

Ltac nodup_literal :=
  repeat (apply NoDup_cons;
          [ let H := fresh in
            intros H; vm_compute in H;
            repeat (destruct H as [H | H]; [discriminate H | ]); exact H
          | ]);
  apply NoDup_nil.

Lemma dirty_metadata_wf : metadata_wf dirty_metadata.
Proof.
  unfold dirty_metadata, metadata_wf.
  apply Forall_cons; [ | apply Forall_cons; [ | apply Forall_cons; [ | apply Forall_nil]]];
    cbn [snd value_wf].
  - wf_literal.
  - apply Forall_cons; [ | apply Forall_cons; [exact I | apply Forall_nil]].
    cbn [item_wf]. wf_literal.
  - exact I.
Defined.

Lemma dirty_metadata_nodup : NoDup (dict_keys dirty_metadata).
Proof. nodup_literal. Defined.

Lemma clean_metadata_values_witness :
  exists cleaned,
    clean_metadata (fun s => s) dirty_metadata = Ok cleaned
    /\ dict_keys cleaned = dict_keys dirty_metadata
    /\ (forall key, dict_get key cleaned
                    = option_map cleaned_value (dict_get key dirty_metadata)).
Proof.
  exact (clean_metadata_values (fun s => s) dirty_metadata
           dirty_metadata_wf dirty_metadata_nodup).
Defined.

Lemma cleaned_text_idempotent t : cleaned_text (cleaned_text t) = cleaned_text t.
Proof.
  unfold cleaned_text at 1.
  assert (Hk : Forall kept (cleaned_text t))
    by apply Forall_strip, Forall_kept_normal.
  rewrite drop_surrogates_kept, re_sub_keep_kept by assumption.
  apply strip_fixed; [apply strip_no_leading | apply strip_no_trailing].
Qed.

Lemma cleaned_text_wf t : pystr_wf (cleaned_text t).
Proof. apply kept_wf, Forall_strip, Forall_kept_normal. Qed.

Lemma cleaned_item_idempotent x : cleaned_item (cleaned_item x) = cleaned_item x.
Proof.
  destruct x; cbn [cleaned_item]; try reflexivity.
  rewrite cleaned_text_idempotent. reflexivity.
Qed.

Lemma cleaned_value_idempotent v : cleaned_value (cleaned_value v) = cleaned_value v.
Proof.
  destruct v; cbn [cleaned_value]; try reflexivity.
  - rewrite cleaned_text_idempotent. reflexivity.
  - rewrite map_map. f_equal. apply map_ext. exact cleaned_item_idempotent.
Qed.

Lemma cleaned_value_wf v : value_wf (cleaned_value v).
Proof.
  destruct v; cbn [cleaned_value value_wf]; try exact I.
  - apply cleaned_text_wf.
  - apply Forall_map. apply Forall_forall. intros x _.
    destruct x; cbn [cleaned_item item_wf]; try exact I. apply cleaned_text_wf.
Qed.

(** X5. [clean_metadata] is idempotent on a mapping with distinct keys:
    cleaning what it returned returns the same mapping. *)
Theorem clean_metadata_idempotent (nfkc : pystr -> pystr) (metadata : dict) :
  metadata_wf metadata -> NoDup (dict_keys metadata) ->
  exists cleaned,
    clean_metadata nfkc metadata = Ok cleaned
    /\ clean_metadata nfkc cleaned = Ok cleaned.
Proof.
  intros Hwf Hnd. exists (cleaned_metadata_of metadata).
  unfold clean_metadata. split.
  - rewrite clean_metadata_from_ok; trivial.
  - rewrite clean_metadata_from_ok.
    + cbn [app]. unfold cleaned_metadata_of. rewrite map_map. f_equal.
      apply map_ext. intros [k v]. cbn [fst snd].
      rewrite cleaned_value_idempotent. reflexivity.
    + unfold metadata_wf, cleaned_metadata_of. apply Forall_map.
      apply Forall_forall. intros x _. cbn [snd]. apply cleaned_value_wf.
    + change (NoDup (dict_keys (cleaned_metadata_of metadata))).
      unfold dict_keys, cleaned_metadata_of.
      rewrite map_map. cbn [fst]. exact Hnd.
Qed.

Lemma clean_metadata_idempotent_witness :
  exists cleaned,
    clean_metadata (fun s => s) dirty_metadata = Ok cleaned
    /\ clean_metadata (fun s => s) cleaned = Ok cleaned.
Proof.
  exact (clean_metadata_idempotent (fun s => s) dirty_metadata
           dirty_metadata_wf dirty_metadata_nodup).
Defined.

(* ================================================================== *)
(** * Further properties of the extractor *)
(* ================================================================== *)

(** X6. What [extract_json_from_response] returns starts with an
    opening brace, ends with the only closing brace it has, and is
    returned unchanged when the function is applied to it again. *)
Theorem extract_json_idempotent (response_text m : pystr) :
  extract_json_from_response response_text = Ok m ->
  (exists body, m = lbrace :: body ++ [rbrace] /\ ~ In rbrace body)
  /\ extract_json_from_response m = Ok m.
Proof.
  unfold extract_json_from_response.
  destruct (re_search_braces response_text) as [m' | ] eqn:E; [ | discriminate].
  intros [= ->].
  destruct (re_search_braces_some _ _ E) as (pre & body & post & _ & -> & Hb & _).
  split; [exists body; split; [reflexivity | exact Hb] | ].
  pose proof (re_search_braces_first [] body [] (fun x => x) Hb) as H.
  cbn [app] in H. rewrite H. reflexivity.
Qed.

Lemma extract_json_idempotent_witness :
  extract_json_from_response sure_response
  = Ok (pyj "{'line_count': 3, 'language': 'English', 'tags': ['Motivation']}")
  /\ extract_json_from_response
       (pyj "{'line_count': 3, 'language': 'English', 'tags': ['Motivation']}")
     = Ok (pyj "{'line_count': 3, 'language': 'English', 'tags': ['Motivation']}").
Proof.
  split; [reflexivity | ].
  apply (extract_json_idempotent sure_response). reflexivity.
Defined.

Lemma extraction_outcome_valid py_format json_parse llm n post d :
  extraction_outcome py_format json_parse llm n post = Ok d ->
  valid_metadata (JDict d) d.
Proof.
  unfold extraction_outcome. intros E.
  destruct (llm n MetadataPrompt post) as [r | x]; cbn [rbind] in E;
    [ | discriminate].
  destruct (extract_json_from_response r) as [js | x]; cbn [rbind] in E;
    [ | discriminate].
  destruct (json_parse js) as [res | x]; cbn [rbind] in E; [ | discriminate].
  apply validate_metadata_ok in E. destruct E as (-> & Hk & Hl).
  split; [reflexivity | split; assumption].
Qed.

(** X7. [extract_metadata] invokes the model exactly once and prints
    nothing. When it returns, it has logged nothing and the mapping has
    passed the validation. When it raises, one [ERROR] record was added
    to the log, and the exception is an [OutputParserException] or an
    [Exception] built with the message of that record, which starts
    with "Failed to parse LLM response: " for the first and with
    "Error extracting metadata: " for the second. *)
Theorem extract_metadata_accounting
    (py_format : json -> pystr) (json_parse : pystr -> pyresult json)
    (llm : nat -> template -> pystr -> pyresult pystr)
    (post : pystr) (w : world) :
  let '(r, w1) := extract_metadata py_format json_parse llm post w in
  calls w1 = S (calls w) /\ stdout w1 = stdout w
  /\ match r with
     | Ok d => log w1 = log w /\ valid_metadata (JDict d) d
     | Raise e =>
         exists m,
           log w1 = log w ++ [(ERROR, m)]
           /\ ((e = OutputParserException m
                /\ exists r, m = py "Failed to parse LLM response: " ++ r)
               \/ (e = PyException m
                   /\ exists r, m = py "Error extracting metadata: " ++ r))
     end.
Proof.
  rewrite extract_metadata_run.
  destruct (extraction_outcome py_format json_parse llm (calls w) post)
    as [d | e] eqn:E.
  - split; [reflexivity | ]. split; [reflexivity | ]. split; [reflexivity | ].
    apply (extraction_outcome_valid _ _ _ _ _ _ E).
  - split; [reflexivity | ]. split; [reflexivity | ].
    unfold metadata_relabelled, relabelled.
    destruct (is_OutputParserException e); eexists;
      (split; [reflexivity | ]); [left | right];
      (split; [reflexivity | eexists; reflexivity]).
Qed.

(* ================================================================== *)
(** * Further properties of [get_unified_tags] *)
(* ================================================================== *)

Lemma py_eqb_str_l t y : py_eqb (JStr t) y = true <-> y = JStr t.
Proof.
  destruct y; cbn [py_eqb]; try (split; [discriminate | congruence]).
  rewrite pystr_eqb_eq. split; congruence.
Qed.

Lemma existsb_py_eqb_str t s :
  existsb (py_eqb (JStr t)) s = true <-> In (JStr t) s.
Proof.
  rewrite existsb_exists. split.
  - intros (x & Hx & E). apply py_eqb_str_l in E. subst x. exact Hx.
  - intros H. exists (JStr t). split; [exact H | apply py_eqb_str_l; reflexivity].
Qed.

Lemma set_add_str t s :
  exists s', set_add (JStr t) s = Ok s'
             /\ (pyset s -> pyset s')
             /\ (forall x, In x s' <-> In x s \/ x = JStr t).
Proof.
  unfold set_add. cbn [hashable].
  destruct (existsb (py_eqb (JStr t)) s) eqn:E.
  - exists s. split; [reflexivity | ]. split; [auto | ].
    apply existsb_py_eqb_str in E. intros x. split; [auto | ].
    intros [H | ->]; assumption.
  - exists (s ++ [JStr t]). split; [reflexivity | ]. split.
    + intros Hs. apply pyset_snoc; trivial.
    + intros x. rewrite in_app_iff. cbn [In]. intuition congruence.
Qed.

Lemma update_tags_strings nfkc l :
  Forall pystr_wf l ->
  forall acc,
  exists s,
    update_tags nfkc acc (map JStr l) = Ok s
    /\ (pyset acc -> pyset s)
    /\ (forall x, In x s <->
                  In x acc \/ exists t, In t l /\ x = JStr (cleaned_text t)).
Proof.
  induction 1 as [| t r Ht Hr IH]; intros acc; cbn [map update_tags].
  - exists acc. split; [reflexivity | ]. split; [auto | ].
    intros x. split; [auto | ]. intros [H | (t & [] & _)]. exact H.
  - cbn [call_clean_text]. rewrite clean_text_primary by assumption.
    fold (cleaned_text t). cbn [rbind].
    destruct (set_add_str (cleaned_text t) acc) as (s1 & E1 & P1 & M1).
    rewrite E1. cbn [rbind].
    destruct (IH s1) as (s & E & P & M).
    exists s. split; [exact E | ]. split; [auto | ].
    intros x. rewrite M, M1. cbn [In]. split.
    + intros [[H | ->] | (t' & Ht' & ->)]; eauto 6.
    + intros [H | (t' & [-> | Ht'] & ->)]; eauto 6.
Qed.

Lemma collect_tags_strings nfkc posts :
  Forall (fun post => exists l, string_tags post l) posts ->
  forall acc,
  exists s,
    collect_tags nfkc acc posts = Ok s
    /\ (pyset acc -> pyset s)
    /\ (forall x, In x s <->
                  In x acc
                  \/ exists post t,
                       In post posts /\ tag_of post t /\ x = JStr (cleaned_text t)).
Proof.
  induction 1 as [| post rest (l & Hl & Hwf) Hrest IH]; intros acc;
    cbn [collect_tags].
  - exists acc. split; [reflexivity | ]. split; [auto | ].
    intros x. split; [auto | ]. intros [H | (p & t & [] & _)]. exact H.
  - rewrite Hl. cbn [py_iter rbind].
    destruct (update_tags_strings nfkc l Hwf acc) as (s1 & E1 & P1 & M1).
    rewrite E1. cbn [rbind].
    destruct (IH s1) as (s & E & P & M).
    exists s. split; [exact E | ]. split; [auto | ].
    intros x. rewrite M, M1. cbn [In]. split.
    + intros [[H | (t & Ht & ->)] | (p & t & Hp & Ht & ->)].
      * left. exact H.
      * right. exists post, t. split; [left; reflexivity | ]. split; [ | reflexivity].
        exists (map JStr l). split; [exact Hl | apply in_map, Ht].
      * right. exists p, t. auto.
    + intros [H | (p & t & [<- | Hp] & (l' & Hl' & Hin) & ->)].
      * auto.
      * left. right. exists t. split; [ | reflexivity].
        rewrite Hl in Hl'. injection Hl' as <-.
        apply in_map_iff in Hin. destruct Hin as (t' & [= ->] & Ht'). exact Ht'.
      * right. exists p, t. split; [exact Hp | ]. split; [ | reflexivity].
        exists l'. auto.
Qed.

(** X8. Over posts whose tags are lists of strings, the set of tags
    that [get_unified_tags] collects has no duplicate and holds exactly
    the cleaned tags of the posts. *)
Theorem collected_tags (nfkc : pystr -> pystr) (posts : list dict) :
  Forall (fun post => exists l, string_tags post l) posts ->
  exists unique_tags,
    collect_tags nfkc [] posts = Ok unique_tags
    /\ pyset unique_tags
    /\ (forall x, In x unique_tags <->
                  exists post t,
                    In post posts /\ tag_of post t /\ x = JStr (cleaned_text t)).
Proof.
  intros H. destruct (collect_tags_strings nfkc posts H []) as (s & E & P & M).
  exists s. split; [exact E | ]. split; [apply P; constructor | ].
  intros x. rewrite M. cbn [In]. intuition auto.
Qed.

Lemma tagged_posts_strings :
  Forall (fun post => exists l, string_tags post l) tagged_posts.
Proof.
  apply Forall_cons; [ | apply Forall_cons; [ | apply Forall_nil]].
  - exists [py "Job Search "; py "Motivation"]. split; [reflexivity | ].
    apply Forall_cons; [wf_literal | apply Forall_cons; [wf_literal | apply Forall_nil]].
  - exists [py "Job Search"]. split; [reflexivity | ].
    apply Forall_cons; [wf_literal | apply Forall_nil].
Defined.

Lemma collected_tags_witness :
  collect_tags (fun s => s) [] tagged_posts
  = Ok [JStr (py "Job Search"); JStr (py "Motivation")]
  /\ exists unique_tags,
       collect_tags (fun s => s) [] tagged_posts = Ok unique_tags
       /\ pyset unique_tags
       /\ (forall x, In x unique_tags <->
                     exists post t,
                       In post tagged_posts /\ tag_of post t
                       /\ x = JStr (cleaned_text t)).
Proof.
  split; [reflexivity | ].
  exact (collected_tags (fun s => s) tagged_posts tagged_posts_strings).
Defined.




Section UnifierRuns.

Variable nfkc : pystr -> pystr.
Variable json_parse : pystr -> pyresult json.
Variable llm : nat -> template -> pystr -> pyresult pystr.



End UnifierRuns.



Lemma update_tags_non_string nfkc l1 v l2 :
  Forall pystr_wf l1 -> is_str v = false ->
  forall acc,
    update_tags nfkc acc (map JStr l1 ++ v :: l2) = Raise (no_encode v).
Proof.
  intros Hwf Hv. induction Hwf as [| t r Ht Hr IH]; intros acc;
    cbn [map app update_tags].
  - destruct v; try discriminate; reflexivity.
  - cbn [call_clean_text]. rewrite clean_text_primary by assumption.
    cbn [rbind].
    destruct (set_add_str (strip (re_sub_keep (drop_surrogates t))) acc)
      as (s1 & E1 & _).
    rewrite E1. cbn [rbind]. apply IH.
Qed.

Lemma collect_tags_app nfkc pre :
  forall acc rest,
    collect_tags nfkc acc (pre ++ rest)
    = rbind (collect_tags nfkc acc pre) (fun s => collect_tags nfkc s rest).
Proof.
  induction pre as [| p r IH]; intros acc rest; cbn [app collect_tags rbind];
    [reflexivity | ].
  destruct (py_iter (post_tags p)) as [tags | e]; cbn [rbind]; [ | reflexivity].
  destruct (update_tags nfkc acc tags) as [s | e]; cbn [rbind]; [ | reflexivity].
  apply IH.
Qed.

(** X10. A tag that is not a string stops the whole run, after the
    loop: when the posts before it have lists of strings as tags,
    [get_unified_tags] raises the [AttributeError] of [clean_text]
    outside its own [try], without invoking the model and without a
    log record, and [process_posts] re-raises it under its prefix in
    place of the enriched posts. *)
Theorem non_string_tag_aborts_run
    (nfkc : pystr -> pystr) (py_format : json -> pystr)
    (json_parse : pystr -> pyresult json)
    (llm : nat -> template -> pystr -> pyresult pystr)
    (posts : list dict) (w w1 : world)
    (pre : list dict) (post : dict) (rest : list dict)
    (l1 : list pystr) (v : json) (l2 : list json) :
  process_loop nfkc py_format json_parse llm 0 posts [] w
  = (Ok (pre ++ post :: rest), w1) ->
  Forall (fun p => exists l, string_tags p l) pre ->
  post_tags post = JList (map JStr l1 ++ v :: l2) ->
  Forall pystr_wf l1 -> is_str v = false ->
  get_unified_tags nfkc json_parse llm (pre ++ post :: rest) w1
  = (Raise (no_encode v), w1)
  /\ process_posts nfkc py_format json_parse llm posts w
     = (Raise (PyException (run_error_prefix ++ str_exc (no_encode v))),
        logged ERROR (run_error_prefix ++ str_exc (no_encode v)) w1).
Proof.
  intros Hloop Hpre Htags Hwf Hv.
  assert (Hc : collect_tags nfkc [] (pre ++ post :: rest) = Raise (no_encode v)).
  { rewrite collect_tags_app.
    destruct (collect_tags_strings nfkc pre Hpre []) as (s & E & _).
    rewrite E. cbn [rbind collect_tags]. rewrite Htags. cbn [py_iter rbind].
    rewrite update_tags_non_string by assumption. reflexivity. }
  assert (Hu : get_unified_tags nfkc json_parse llm (pre ++ post :: rest) w1
               = (Raise (no_encode v), w1)).
  { unfold get_unified_tags, bind, lift. rewrite Hc. reflexivity. }
  split; [exact Hu | ].
  unfold process_posts, try_except, process_posts_body, bind.
  rewrite Hloop.
  destruct (pre ++ post :: rest) as [| p0 ps] eqn:El.
  - destruct pre; discriminate El.
  - rewrite Hu. reflexivity.
Qed.

Lemma non_string_tag_aborts_run_witness :
  fst (process_posts (fun s => s) py_repr json_loads number_tag_llm
         [post_of "one"] w0)
  = Raise (PyException
             (py "Error processing posts: 'int' object has no attribute 'encode'")).
Proof.
  assert (E : exists p w1,
             process_loop (fun s => s) py_repr json_loads number_tag_llm 0
               [post_of "one"] [] w0 = (Ok ([] ++ p :: []), w1)
             /\ post_tags p = JList (map JStr [py "Hiring"] ++ JInt 7 :: [])).
  { eexists. eexists. split; vm_compute; reflexivity. }
  destruct E as (p & w1 & E & Ht).
  destruct (non_string_tag_aborts_run (fun s => s) py_repr json_loads
              number_tag_llm [post_of "one"] w0 w1 [] p []
              [py "Hiring"] (JInt 7) []) as (_ & Hrun).
  - exact E.
  - apply Forall_nil.
  - exact Ht.
  - apply Forall_cons; [wf_literal | apply Forall_nil].
  - reflexivity.
  - rewrite Hrun. reflexivity.
Defined.

(* ================================================================== *)
(** * Further properties of [process_posts] *)
(* ================================================================== *)

Lemma enriched_from_length R ps es :
  enriched_from R ps es -> (List.length es <= List.length ps)%nat.
Proof. induction 1; cbn [List.length]; lia. Qed.

(** X11. A run that returns gives back at least one post and at most
    as many as it was given. *)
Theorem process_posts_size
    (nfkc : pystr -> pystr) (py_format : json -> pystr)
    (json_parse : pystr -> pyresult json)
    (llm : nat -> template -> pystr -> pyresult pystr)
    (posts : list dict) (w : world) (out : list dict) (w2 : world) :
  process_posts nfkc py_format json_parse llm posts w = (Ok out, w2) ->
  (1 <= List.length out <= List.length posts)%nat.
Proof.
  intros Hrun.
  destruct (process_posts_ok _ _ _ _ _ _ _ _ Hrun)
    as (enriched & w1 & cm & Hloop & Hne & HF).
  destruct (process_loop_enriched _ _ _ _ _ _ _ _ _ _ Hloop) as (es & Hes & Hen).
  cbn [app] in Hes. subst es.
  pose proof (enriched_from_length _ _ _ Hen) as Hle.
  pose proof (Forall2_length HF) as Hlen.
  destruct enriched; [contradiction Hne; reflexivity | ].
  cbn [List.length] in *. lia.
Qed.

Lemma process_posts_size_witness :
  exists out w2,
    process_posts (fun s => s) py_repr json_loads flaky_llm
      [post_of "one"; post_of "two"; post_of "three"; post_of "four";
       post_of "five"] w0 = (Ok out, w2)
    /\ (1 <= List.length out <= 5)%nat.
Proof.
  assert (E : exists out w2,
             process_posts (fun s => s) py_repr json_loads flaky_llm
               [post_of "one"; post_of "two"; post_of "three"; post_of "four";
                post_of "five"] w0 = (Ok out, w2)).
  { eexists. eexists. vm_compute. reflexivity. }
  destruct E as (out & w2 & E). exists out, w2. split; [exact E | ].
  exact (process_posts_size _ _ _ _ _ _ _ _ E).
Defined.

Lemma grows_by_refl w : grows_by 0 w w.
Proof.
  unfold grows_by. split; [lia | ].
  split; exists []; rewrite app_nil_r; reflexivity.
Qed.

Lemma grows_by_trans n m w w1 w2 :
  grows_by n w w1 -> grows_by m w1 w2 -> grows_by (n + m) w w2.
Proof.
  intros (Hc1 & (l1 & Hl1) & (o1 & Ho1)) (Hc2 & (l2 & Hl2) & (o2 & Ho2)).
  split; [lia | ]. split.
  - exists (l1 ++ l2). rewrite Hl2, Hl1, app_assoc. reflexivity.
  - exists (o1 ++ o2). rewrite Ho2, Ho1, app_assoc. reflexivity.
Qed.

Lemma grows_by_le n m w w1 : (n <= m)%nat -> grows_by n w w1 -> grows_by m w w1.
Proof. intros H ((Ha & Hb) & Hl & Ho). split; [lia | split; assumption]. Qed.

Lemma grows_by_logged lvl msg w : grows_by 0 w (logged lvl msg w).
Proof.
  split; [cbn; lia | ]. split.
  - eexists. reflexivity.
  - exists []. cbn. rewrite app_nil_r. reflexivity.
Qed.

Lemma grows_by_printed msg w : grows_by 0 w (printed msg w).
Proof.
  split; [cbn; lia | ]. split.
  - exists []. cbn. rewrite app_nil_r. reflexivity.
  - eexists. reflexivity.
Qed.

Lemma grows_by_called w : grows_by 1 w (called w).
Proof.
  split; [cbn; lia | ].
  split; exists []; cbn; rewrite app_nil_r; reflexivity.
Qed.

Section Accounting.

Variable nfkc : pystr -> pystr.
Variable py_format : json -> pystr.
Variable json_parse : pystr -> pyresult json.
Variable llm : nat -> template -> pystr -> pyresult pystr.

Lemma enrich_post_grows post w :
  grows_by 1 w (snd (enrich_post nfkc py_format json_parse llm post w)).
Proof.
  rewrite enrich_post_run.
  destruct (subscript post text_key); cbn [snd];
    [ | apply (grows_by_le 0 1); [lia | apply grows_by_refl]].
  destruct (call_clean_text nfkc a); cbn [snd];
    [ | apply (grows_by_le 0 1); [lia | apply grows_by_refl]].
  destruct (extraction_outcome _ _ _ _ _); cbn [snd].
  - destruct (clean_metadata nfkc a1); cbn [snd]; apply grows_by_called.
  - eapply (grows_by_trans 1 0); [apply grows_by_called | apply grows_by_logged].
Qed.

Lemma process_post_grows i post w :
  grows_by 1 w (snd (process_post nfkc py_format json_parse llm i post w)).
Proof.
  destruct (excerpt py_format post) as [ex | x] eqn:Hex.
  - rewrite (process_post_run _ _ _ _ i post ex w Hex).
    pose proof (enrich_post_grows post (logged INFO (processing_msg i ex) w)) as H.
    destruct (enrich_post _ _ _ _ _ _) as [[p | e] w1]; cbn [snd] in *.
    + eapply (grows_by_trans 0 1); [apply grows_by_logged | exact H].
    + eapply (grows_by_trans 0 1); [apply grows_by_logged | ].
      eapply (grows_by_trans 1 0); [exact H | ].
      unfold handler_outcome.
      destruct (find_surrogate 0 (error_msg i ex e)) as [[[pos c] run] | ];
        cbn [snd].
      * apply grows_by_logged.
      * eapply (grows_by_trans 0 0); [apply grows_by_logged | apply grows_by_printed].
  - rewrite (process_post_no_excerpt _ _ _ _ _ _ _ _ Hex). cbn [snd].
    apply (grows_by_le 0 1); [lia | apply grows_by_refl].
Qed.

Lemma process_loop_grows posts :
  forall i acc w,
    grows_by (List.length posts) w
      (snd (process_loop nfkc py_format json_parse llm i posts acc w)).
Proof.
  induction posts as [| post rest IH]; intros i acc w.
  - cbn. apply grows_by_refl.
  - rewrite process_loop_step.
    pose proof (process_post_grows i post w) as H.
    destruct (process_post _ _ _ _ i post w) as [[[p | ] | e] w1]; cbn [snd] in H.
    + eapply (grows_by_trans 1 (List.length rest)); [exact H | apply IH].
    + eapply (grows_by_trans 1 (List.length rest)); [exact H | apply IH].
    + cbn [snd]. apply (grows_by_le 1); [cbn; lia | exact H].
Qed.

Lemma relabel_grows {A} p1 p2 e w :
  grows_by 0 w (snd (@relabel A p1 p2 e w)).
Proof. rewrite relabel_run. cbn [snd]. apply grows_by_logged. Qed.

Lemma get_unified_tags_grows posts w :
  grows_by 1 w (snd (get_unified_tags nfkc json_parse llm posts w)).
Proof.
  unfold get_unified_tags, bind, lift, try_except, invoke.
  destruct (collect_tags nfkc [] posts) as [s | e]; cbn [snd];
    [ | apply (grows_by_le 0 1); [lia | apply grows_by_refl]].
  destruct (clean_text nfkc _) as [tags | e].
  - destruct (llm (calls w) TagsPrompt tags) as [r | e].
    + destruct (extract_json_from_response r) as [js | e].
      * destruct (json_parse js) as [res | e].
        -- destruct res;
             try (eapply (grows_by_trans 1 0);
                  [apply grows_by_called | apply relabel_grows]).
           cbn [snd]. apply grows_by_called.
        -- eapply (grows_by_trans 1 0); [apply grows_by_called | apply relabel_grows].
      * eapply (grows_by_trans 1 0); [apply grows_by_called | apply relabel_grows].
    + eapply (grows_by_trans 1 0); [apply grows_by_called | apply relabel_grows].
  - apply (grows_by_le 0 1); [lia | apply relabel_grows].
Qed.

Lemma process_posts_body_grows posts w :
  grows_by (List.length posts + 1) w
    (snd (process_posts_body nfkc py_format json_parse llm posts w)).
Proof.
  unfold process_posts_body, bind.
  pose proof (process_loop_grows posts 0 [] w) as H.
  destruct (process_loop _ _ _ _ 0 posts [] w) as [[enriched | e] w1];
    cbn [snd] in H.
  - destruct enriched as [| p ps].
    + cbn [snd]. eapply (grows_by_trans _ 1); [exact H | ].
      apply (grows_by_le 0 1); [lia | apply grows_by_logged].
    + pose proof (get_unified_tags_grows (p :: ps) w1) as Hu.
      destruct (get_unified_tags _ _ _ _ _) as [[m | e] w2]; cbn [snd] in Hu.
      * unfold lift. cbv beta. destruct (clean_metadata nfkc m); cbn [snd];
          eapply (grows_by_trans _ 1); eassumption.
      * cbn [snd]. eapply (grows_by_trans _ 1); eassumption.
  - cbn [snd]. apply (grows_by_le (List.length posts)); [lia | exact H].
Qed.

End Accounting.

(** X12. In a run whose posts were read and that has no file to write
    (lines 62-98 and the last handler, lines 111-113), whatever the
    posts and the answers of the model, at most one invocation of the
    model is made for each post and one more for the tags, and the log
    and the output only grow. When such a run fails, the exception is a
    plain [Exception] whose message starts with
    "Error processing posts: ", and that message is the last record of
    the log, at level [ERROR]. *)
Theorem process_posts_accounting
    (nfkc : pystr -> pystr) (py_format : json -> pystr)
    (json_parse : pystr -> pyresult json)
    (llm : nat -> template -> pystr -> pyresult pystr)
    (posts : list dict) (w : world) :
  let '(r, w1) := process_posts nfkc py_format json_parse llm posts w in
  grows_by (List.length posts + 1) w w1
  /\ match r with
     | Ok _ => True
     | Raise e =>
         (exists m, e = PyException (py "Error processing posts: " ++ m))
         /\ exists records, log w1 = records ++ [(ERROR, str_exc e)]
     end.
Proof.
  unfold process_posts, try_except.
  pose proof (process_posts_body_grows nfkc py_format json_parse llm posts w) as H.
  destruct (process_posts_body _ _ _ _ posts w) as [[out | e] w1]; cbn [snd] in H.
  - split; [exact H | exact I].
  - unfold bind, logging, raise. split.
    + replace (List.length posts + 1)%nat with (List.length posts + 1 + 0)%nat by lia.
      apply (grows_by_trans _ 0 _ _ _ H). apply grows_by_logged.
    + split; [eexists; reflexivity | ].
      eexists. reflexivity.
Qed.

Lemma dict_keys_update d m k :
  In k (dict_keys (dict_update d m)) <-> In k (dict_keys d) \/ In k (dict_keys m).
Proof.
  unfold dict_update. revert d.
  induction m as [| [k0 v0] r IH]; intros d; cbn [fold_left dict_keys map fst In].
  - intuition auto.
  - fold (dict_keys r). rewrite IH, dict_keys_set. cbn [fst snd]. intuition auto.
Qed.

Lemma dict_get_update_in d m k v :
  NoDup (dict_keys m) -> dict_get k m = Some v ->
  dict_get k (dict_update d m) = Some v.
Proof.
  unfold dict_update. revert d.
  induction m as [| [k0 v0] r IH]; intros d Hnd Hk; [discriminate | ].
  cbn [dict_keys map fst] in Hnd. inversion Hnd as [| x l Hnin Hnd']; subst.
  cbn [fold_left fst snd]. cbn [dict_get] in Hk.
  destruct (pystr_eqb k k0) eqn:E.
  - apply pystr_eqb_eq in E. subst k0. injection Hk as ->.
    change (dict_get k (dict_update (dict_set k v d) r) = Some v).
    rewrite dict_get_update_other by exact Hnin.
    apply dict_get_set_same.
  - apply IH; assumption.
Qed.

Lemma dict_set_nodup k v d :
  NoDup (dict_keys d) -> NoDup (dict_keys (dict_set k v d)).
Proof.
  induction d as [| [k0 v0] r IH]; intros H; cbn [dict_set].
  - cbn. constructor; [intros [] | constructor].
  - cbn [dict_keys map fst] in H. inversion H as [| x l Hnin Hnd]; subst.
    destruct (pystr_eqb k k0) eqn:E; cbn [dict_keys map fst].
    + apply pystr_eqb_eq in E. subst k0. constructor; assumption.
    + constructor; [ | apply IH, Hnd].
      fold (dict_keys (dict_set k v r)). rewrite dict_keys_set.
      intros [-> | X]; [rewrite pystr_eqb_refl in E; discriminate | ].
      apply Hnin, X.
Qed.

Lemma clean_metadata_from_nodup nfkc items :
  forall cleaned r,
    clean_metadata_from nfkc cleaned items = Ok r ->
    NoDup (dict_keys cleaned) -> NoDup (dict_keys r).
Proof.
  induction items as [| [k v] rest IH]; intros cleaned r H Hnd;
    cbn [clean_metadata_from] in H.
  - injection H as <-. exact Hnd.
  - destruct (clean_value nfkc v) as [v' | e]; cbn [rbind] in H; [ | discriminate].
    apply (IH _ _ H). apply dict_set_nodup, Hnd.
Qed.

Lemma clean_metadata_from_other nfkc items :
  forall cleaned r k,
    clean_metadata_from nfkc cleaned items = Ok r ->
    ~ In k (dict_keys items) -> dict_get k r = dict_get k cleaned.
Proof.
  induction items as [| [k0 v0] rest IH]; intros cleaned r k H Hk;
    cbn [clean_metadata_from] in H.
  - injection H as <-. reflexivity.
  - destruct (clean_value nfkc v0) as [v' | e]; cbn [rbind] in H; [ | discriminate].
    cbn [dict_keys map fst In] in Hk.
    rewrite (IH _ _ k H) by (intros X; apply Hk; right; exact X).
    apply dict_get_set_other. intros ->. apply Hk. left. reflexivity.
Qed.

Lemma clean_metadata_from_get nfkc items :
  forall cleaned r k v,
    clean_metadata_from nfkc cleaned items = Ok r ->
    NoDup (dict_keys items) ->
    dict_get k items = Some v ->
    exists v', clean_value nfkc v = Ok v' /\ dict_get k r = Some v'.
Proof.
  induction items as [| [k0 v0] rest IH]; intros cleaned r k v H Hnd Hk;
    [discriminate | ].
  cbn [clean_metadata_from] in H.
  destruct (clean_value nfkc v0) as [v' | e] eqn:Ec; cbn [rbind] in H;
    [ | discriminate].
  cbn [dict_keys map fst] in Hnd. inversion Hnd as [| x l Hnin Hnd']; subst.
  cbn [dict_get] in Hk. destruct (pystr_eqb k k0) eqn:E.
  - apply pystr_eqb_eq in E. subst k0. injection Hk as ->.
    exists v'. split; [exact Ec | ].
    rewrite (clean_metadata_from_other _ _ _ _ k H Hnin).
    apply dict_get_set_same.
  - apply (IH _ _ _ _ H Hnd' Hk).
Qed.

Lemma enriched_from_impl (R S : dict -> dict -> Prop) ps es :
  (forall p e, R p e -> S p e) -> enriched_from R ps es -> enriched_from S ps es.
Proof.
  intros HS H. induction H.
  - apply ef_nil.
  - apply ef_skip. assumption.
  - apply ef_keep; [apply HS | ]; assumption.
Qed.

Lemma enriched_from_Forall (R : dict -> dict -> Prop) ps es :
  enriched_from R ps es -> Forall (fun e => exists p, In p ps /\ R p e) es.
Proof.
  induction 1 as [| p ps es H IH | p e ps es Hr H IH].
  - constructor.
  - eapply Forall_impl; [ | exact IH].
    intros e (p' & Hp & Hr). exists p'. split; [right; exact Hp | exact Hr].
  - constructor.
    + exists p. split; [left; reflexivity | exact Hr].
    + eapply Forall_impl; [ | exact IH].
      intros e' (p' & Hp & Hr'). exists p'. split; [right; exact Hp | exact Hr'].
Qed.

Lemma Forall2_Forall_r {A B} (U : A -> B -> Prop) (P : A -> Prop) (Q : B -> Prop) l l' :
  (forall x y, P x -> U x y -> Q y) ->
  Forall P l -> Forall2 U l l' -> Forall Q l'.
Proof.
  intros HQ HP HF. induction HF as [| x y l l' Hu HF IH]; [constructor | ].
  inversion HP; subst. constructor; [eapply HQ; eassumption | apply IH; assumption].
Qed.

Lemma py_eqb_refl v : hashable v = true -> py_eqb v v = true.
Proof.
  destruct v; cbn [hashable py_eqb]; try discriminate; intros _.
  - reflexivity.
  - apply Bool.eqb_reflx.
  - apply Z.eqb_refl.
  - apply pystr_eqb_refl.
Qed.

Lemma set_add_spec v s s' :
  set_add v s = Ok s' ->
  hashable v = true
  /\ (forall x, In x s -> In x s')
  /\ (forall x, In x s' -> In x s \/ x = v)
  /\ existsb (py_eqb v) s' = true.
Proof.
  unfold set_add. destruct (hashable v) eqn:Hh; [ | discriminate].
  destruct (existsb (py_eqb v) s) eqn:E; intros [= <-].
  - repeat split; auto.
  - repeat split.
    + intros x Hx. apply in_or_app. left. exact Hx.
    + intros x Hx. apply in_app_or in Hx. destruct Hx as [Hx | [<- | []]]; auto.
    + rewrite existsb_app. cbn [existsb]. rewrite py_eqb_refl by assumption.
      rewrite orb_true_r. reflexivity.
Qed.

Lemma existsb_incl (f : json -> bool) s s' :
  (forall x, In x s -> In x s') -> existsb f s = true -> existsb f s' = true.
Proof.
  intros H E. apply existsb_exists in E. destruct E as (x & Hx & Hf).
  apply existsb_exists. exists x. split; [apply H, Hx | exact Hf].
Qed.

Lemma map_tags_spec m cur :
  forall acc new,
    map_tags m acc cur = Ok new ->
    (forall x, In x acc -> In x new)
    /\ (forall x, In x new ->
                  In x acc \/ exists t, In t cur /\ tagmap_get m t = Ok x)
    /\ (forall t, In t cur ->
                  exists v, tagmap_get m t = Ok v /\ existsb (py_eqb v) new = true).
Proof.
  induction cur as [| t r IH]; intros acc new H; cbn [map_tags] in H.
  - injection H as <-. repeat split; auto. intros t [].
  - destruct (tagmap_get m t) as [v | e] eqn:Eg; cbn [rbind] in H; [ | discriminate].
    destruct (set_add v acc) as [s1 | e] eqn:Es; cbn [rbind] in H; [ | discriminate].
    destruct (set_add_spec _ _ _ Es) as (_ & Hin & Hout & Hex).
    destruct (IH _ _ H) as (I1 & I2 & I3).
    split; [ | split].
    + intros x Hx. apply I1, Hin, Hx.
    + intros x Hx. destruct (I2 x Hx) as [Hs | (t' & Ht' & Hg)].
      * destruct (Hout x Hs) as [Ha | ->]; [left; exact Ha | ].
        right. exists t. split; [left; reflexivity | exact Eg].
      * right. exists t'. split; [right; exact Ht' | exact Hg].
    + intros t' [<- | Ht'].
      * exists v. split; [exact Eg | ]. apply (existsb_incl _ s1 new I1 Hex).
      * apply I3, Ht'.
Qed.

Lemma unify_post_tags_rewritten m p q :
  unify_post_tags m p = Ok q -> tags_rewritten m p q /\
  exists new, q = dict_set tags_key (JList new) p /\ pyset new.
Proof.
  unfold unify_post_tags. intros H.
  destruct (py_iter (post_tags p)) as [cur | e] eqn:Ei; cbn [rbind] in H;
    [ | discriminate].
  destruct (map_tags m [] cur) as [new | e] eqn:Em; cbn [rbind] in H;
    [ | discriminate].
  injection H as <-.
  destruct (map_tags_spec _ _ _ _ Em) as (_ & I2 & I3).
  split.
  - exists cur, new. split; [exact Ei | ]. split; [reflexivity | ]. split.
    + intros x Hx. destruct (I2 x Hx) as [[] | Ht]. exact Ht.
    + exact I3.
  - exists new. split; [reflexivity | ].
    apply (map_tags_pyset _ _ _ _ Em). constructor.
Qed.

Section Values.

Variable nfkc : pystr -> pystr.
Variable py_format : json -> pystr.
Variable json_parse : pystr -> pyresult json.
Variable llm : nat -> template -> pystr -> pyresult pystr.

(** A run that returns: the loop, the map of the unifier once cleaned,
    and the rewriting of each survivor. *)
Lemma process_posts_ok_map posts w out w2 :
  process_posts nfkc py_format json_parse llm posts w = (Ok out, w2) ->
  exists enriched w1 unified_tags cleaned_unified_tags,
    process_loop nfkc py_format json_parse llm 0 posts [] w = (Ok enriched, w1)
    /\ get_unified_tags nfkc json_parse llm enriched w1 = (Ok unified_tags, w2)
    /\ clean_metadata nfkc unified_tags = Ok cleaned_unified_tags
    /\ Forall2 (fun p q => unify_post_tags cleaned_unified_tags p = Ok q)
               enriched out.
Proof.
  unfold process_posts, try_except, process_posts_body, bind.
  destruct (process_loop _ _ _ _ 0 posts [] w) as [[enriched | e] w1];
    [ | discriminate].
  destruct enriched as [| p0 ps]; [discriminate | ].
  destruct (get_unified_tags _ _ _ _ _) as [[m | e] w3] eqn:Eu; [ | discriminate].
  unfold lift.
  destruct (clean_metadata nfkc m) as [cm | e] eqn:Ec; [ | discriminate].
  destruct (mapM (unify_post_tags cm) (p0 :: ps)) as [l | e] eqn:E;
    [ | discriminate].
  intros [= <- <-]. exists (p0 :: ps), w1, m, cm.
  split; [reflexivity | ]. split; [exact Eu | ]. split; [exact Ec | ].
  apply mapM_Forall2, E.
Qed.

End Values.

(** X13. Every post a run returns has the fields [text],
    [line_count], [language] and [tags], and its [tags] are a list
    without duplicate. *)
Theorem returned_posts_shape
    (nfkc : pystr -> pystr) (py_format : json -> pystr)
    (json_parse : pystr -> pyresult json)
    (llm : nat -> template -> pystr -> pyresult pystr)
    (posts : list dict) (w : world) (out : list dict) (w2 : world) :
  process_posts nfkc py_format json_parse llm posts w = (Ok out, w2) ->
  Forall enriched_shape out.
Proof.
  intros Hrun.
  destruct (process_posts_ok _ _ _ _ _ _ _ _ Hrun)
    as (enriched & w1 & cm & Hloop & _ & HF).
  destruct (process_loop_enriched _ _ _ _ _ _ _ _ _ _ Hloop) as (es & Hes & Hen).
  cbn [app] in Hes. subst es.
  apply enriched_from_Forall in Hen.
  eapply Forall2_Forall_r; [ | exact Hen | exact HF].
  intros p q Hp Hu. cbv beta in Hp, Hu.
  destruct Hp as (p0 & _ & n & cleaned & md & cmd & Hext & Hclean & ->).
  destruct (unify_post_tags_rewritten _ _ _ Hu) as (_ & new & -> & Hset).
  split.
  - intros k Hk. apply dict_mem_keys, dict_keys_set.
    destruct (pystr_eq_dec k tags_key) as [-> | Hne]; [left; reflexivity | right].
    unfold merged. apply dict_keys_update.
    destruct (pystr_eq_dec k text_key) as [-> | Hnt].
    + left. apply dict_keys_set. left. reflexivity.
    + right. apply (clean_metadata_keys _ _ _ Hclean).
      apply (extraction_outcome_keys _ _ _ _ _ _ Hext).
      cbn [post_keys In] in Hk. cbn [required_keys In].
      destruct Hk as [<- | [<- | [<- | [<- | []]]]]; auto; contradiction.
  - exists new. split; [apply dict_get_set_same | exact Hset].
Qed.

Lemma returned_posts_shape_witness :
  exists out w2,
    process_posts (fun s => s) py_repr json_loads chatty_llm [authored_post] w0
    = (Ok out, w2)
    /\ Forall enriched_shape out.
Proof.
  assert (E : exists out w2,
             process_posts (fun s => s) py_repr json_loads chatty_llm
               [authored_post] w0 = (Ok out, w2)).
  { eexists. eexists. vm_compute. reflexivity. }
  destruct E as (out & w2 & E). exists out, w2. split; [exact E | ].
  exact (returned_posts_shape _ _ _ _ _ _ _ _ E).
Defined.

Lemma merged_frame_text post cleaned cleaned_metadata :
  ~ In text_key (dict_keys cleaned_metadata) ->
  dict_get text_key (merged post cleaned cleaned_metadata) = Some (JStr cleaned).
Proof.
  intros Hn. unfold merged.
  rewrite dict_get_update_other by assumption.
  apply dict_get_set_same.
Qed.

Lemma clean_text_language nfkc lang :
  lang = py "English" \/ lang = py "Sinhala" ->
  clean_value nfkc (JStr lang) = Ok (JStr lang).
Proof.
  intros [-> | ->]; cbn [clean_value];
    rewrite clean_text_primary by wf_literal; reflexivity.
Qed.

(** X14. In every post a run returns, the [text] is the cleaned text of
    the original post, unless the answer the model gave for that post
    had a [text] key of its own, and the [language] is "English" or
    "Sinhala" (the keys of that answer being distinct, as those of a
    Python mapping are). The answer is the one the extractor returned
    for the cleaned text of the post at the invocation made for it. *)
Theorem returned_posts_values
    (nfkc : pystr -> pystr) (py_format : json -> pystr)
    (json_parse : pystr -> pyresult json)
    (llm : nat -> template -> pystr -> pyresult pystr)
    (posts : list dict) (w : world) (out : list dict) (w2 : world) :
  process_posts nfkc py_format json_parse llm posts w = (Ok out, w2) ->
  loop_trace nfkc py_format json_parse llm
    (enriched_values nfkc py_format json_parse llm) 0 w posts out.
Proof.
  intros Hrun.
  destruct (process_posts_ok _ _ _ _ _ _ _ _ Hrun)
    as (enriched & w1 & cm & Hloop & _ & HF).
  destruct (process_loop_trace _ _ _ _ _ _ _ _ _ _ Hloop) as (es & Hes & Hen).
  cbn [app] in Hes. subst es.
  eapply loop_trace_Forall2; [ | exact Hen | exact HF].
  intros wp p e q Hr Hu. cbv beta in Hu.
  destruct Hr as (text & cleaned & md & cmd & Ht & Hc & Hext & Hclean & ->).
  exists text, cleaned, md.
  split; [exact Ht | ]. split; [exact Hc | ]. split; [exact Hext | ]. split.
  - intros Hno.
    rewrite (unify_post_tags_frame _ _ _ Hu) by discriminate.
    rewrite merged_frame_text.
    + reflexivity.
    + intros X. apply Hno. apply (clean_metadata_keys _ _ _ Hclean). exact X.
  - intros Hnd.
    destruct (extraction_outcome_valid _ _ _ _ _ _ Hext) as (_ & _ & Hl).
    assert (Hlang : exists lang,
               (lang = py "English" \/ lang = py "Sinhala")
               /\ dict_get language_key md = Some (JStr lang)).
    { destruct Hl as [Hl | Hl]; eexists; (split; [ | exact Hl]); auto. }
    destruct Hlang as (lang & Hlang & Hget).
    unfold clean_metadata in Hclean.
    destruct (clean_metadata_from_get _ _ _ _ _ _ Hclean Hnd Hget)
      as (v' & Hv' & Hcm).
    rewrite (clean_text_language nfkc lang Hlang) in Hv'. injection Hv' as <-.
    assert (Hq : dict_get language_key q = Some (JStr lang)).
    { rewrite (unify_post_tags_frame _ _ _ Hu) by discriminate.
      unfold merged. apply dict_get_update_in; [ | exact Hcm].
      apply (clean_metadata_from_nodup _ _ _ _ Hclean). constructor. }
    destruct Hlang as [-> | ->]; [left | right]; exact Hq.
Qed.

Lemma returned_posts_values_witness :
  exists out w2,
    process_posts (fun s => s) py_repr json_loads chatty_llm [authored_post] w0
    = (Ok out, w2)
    /\ loop_trace (fun s => s) py_repr json_loads chatty_llm
         (enriched_values (fun s => s) py_repr json_loads chatty_llm)
         0 w0 [authored_post] out.
Proof.
  assert (E : exists out w2,
             process_posts (fun s => s) py_repr json_loads chatty_llm
               [authored_post] w0 = (Ok out, w2)).
  { eexists. eexists. vm_compute. reflexivity. }
  destruct E as (out & w2 & E). exists out, w2. split; [exact E | ].
  exact (returned_posts_values _ _ _ _ _ _ _ _ E).
Defined.

(** X15. In a run that returns, the tags of every post are rewritten
    through one map, the cleaned answer of [get_unified_tags] on the
    enriched posts: every tag of the returned post is the image of a
    tag the post had, by the lookup that defaults to the tag itself,
    and the image of every tag the post had is among them. *)
Theorem returned_posts_tags
    (nfkc : pystr -> pystr) (py_format : json -> pystr)
    (json_parse : pystr -> pyresult json)
    (llm : nat -> template -> pystr -> pyresult pystr)
    (posts : list dict) (w : world) (out : list dict) (w2 : world) :
  process_posts nfkc py_format json_parse llm posts w = (Ok out, w2) ->
  exists enriched_posts w1 unified_tags cleaned_unified_tags,
    process_loop nfkc py_format json_parse llm 0 posts [] w
    = (Ok enriched_posts, w1)
    /\ get_unified_tags nfkc json_parse llm enriched_posts w1
       = (Ok unified_tags, w2)
    /\ clean_metadata nfkc unified_tags = Ok cleaned_unified_tags
    /\ Forall2 (tags_rewritten cleaned_unified_tags) enriched_posts out.
Proof.
  intros Hrun.
  destruct (process_posts_ok_map _ _ _ _ _ _ _ _ Hrun)
    as (enriched & w1 & um & cm & Hloop & Hu & Hc & HF).
  exists enriched, w1, um, cm.
  split; [exact Hloop | ]. split; [exact Hu | ]. split; [exact Hc | ].
  eapply Forall2_impl; [ | exact HF].
  intros p q H. apply (unify_post_tags_rewritten _ _ _ H).
Qed.

Lemma returned_posts_tags_witness :
  exists out w2 enriched_posts w1 unified_tags cleaned_unified_tags,
    process_posts (fun s => s) py_repr json_loads chained_llm
      [post_of "one"] w0 = (Ok out, w2)
    /\ process_loop (fun s => s) py_repr json_loads chained_llm 0
         [post_of "one"] [] w0 = (Ok enriched_posts, w1)
    /\ get_unified_tags (fun s => s) json_loads chained_llm enriched_posts w1
       = (Ok unified_tags, w2)
    /\ clean_metadata (fun s => s) unified_tags = Ok cleaned_unified_tags
    /\ Forall2 (tags_rewritten cleaned_unified_tags) enriched_posts out.
Proof.
  assert (E : exists out w2,
             process_posts (fun s => s) py_repr json_loads chained_llm
               [post_of "one"] w0 = (Ok out, w2)).
  { eexists. eexists. vm_compute. reflexivity. }
  destruct E as (out & w2 & E).
  destruct (returned_posts_tags _ _ _ _ _ _ _ _ E)
    as (en & w1 & um & cm & H1 & H2 & H3 & H4).
  exists out, w2, en, w1, um, cm. auto.
Defined.

(* ================================================================== *)
(** * [post_generator.py]: the reasoning block *)
(* ================================================================== *)

Lemma is_prefix_spec p s : is_prefix p s = true <-> exists r, s = p ++ r.
Proof.
  revert s. induction p as [| a p IH]; intros s; cbn [is_prefix].
  - split; [intros _; exists s; reflexivity | reflexivity].
  - destruct s as [| b s]; [split; [discriminate | intros (r & H); discriminate H] | ].
    rewrite andb_true_iff, Z.eqb_eq, IH. split.
    + intros (-> & r & ->). exists r. reflexivity.
    + intros (r & H). cbn [app] in H. injection H as -> ->. eauto.
Qed.

Lemma contains_spec sub s : contains sub s = true <-> occurs sub s.
Proof.
  unfold occurs. induction s as [| c r IH]; cbn [contains].
  - rewrite is_prefix_spec. split.
    + intros (x & H). exists [], x. exact H.
    + intros (pre & post & H). destruct pre; [ | discriminate H].
      exists post. exact H.
  - rewrite orb_true_iff, is_prefix_spec, IH. split.
    + intros [(x & ->) | (pre & post & ->)].
      * exists [], x. reflexivity.
      * exists (c :: pre), post. reflexivity.
    + intros (pre & post & H). destruct pre as [| c' pre].
      * left. exists post. exact H.
      * right. cbn [app] in H. injection H as -> ->. eauto.
Qed.

Lemma split_aux_skip sep x :
  forall r cur, split_aux sep (List.length x) cur (x ++ r) = split_aux sep 0 cur r.
Proof.
  induction x as [| c x IH]; intros r cur; [reflexivity | ].
  cbn [List.length app split_aux]. apply IH.
Qed.

Lemma split_aux_match h tail rest cur :
  split_aux (h :: tail) 0 cur ((h :: tail) ++ rest)
  = rev cur :: split_aux (h :: tail) 0 [] rest.
Proof.
  cbn [app]. cbn [split_aux].
  assert (E : is_prefix (h :: tail) (h :: tail ++ rest) = true).
  { apply is_prefix_spec. exists rest. reflexivity. }
  rewrite E. f_equal.
  replace (List.length (h :: tail) - 1)%nat with (List.length tail)
    by (cbn [List.length]; lia).
  apply split_aux_skip.
Qed.

Lemma split_aux_none sep s :
  ~ occurs sep s -> forall cur, split_aux sep 0 cur s = [rev cur ++ s].
Proof.
  induction s as [| c r IH]; intros Hno cur; cbn [split_aux].
  - rewrite app_nil_r. reflexivity.
  - destruct (is_prefix sep (c :: r)) eqn:E.
    + exfalso. apply Hno. apply contains_spec. cbn [contains]. rewrite E. reflexivity.
    + rewrite IH.
      * cbn [rev]. rewrite <- app_assoc. reflexivity.
      * intros (pre & post & ->). apply Hno. exists (c :: pre), post. reflexivity.
Qed.

Lemma split_aux_not_nil sep s : forall skip cur, split_aux sep skip cur s <> [].
Proof.
  induction s as [| c r IH]; intros skip cur; cbn [split_aux]; [discriminate | ].
  destruct skip; [ | apply IH].
  destruct (is_prefix sep (c :: r)); [discriminate | apply IH].
Qed.

Lemma last_cons_not_nil (x : pystr) l d : l <> [] -> last (x :: l) d = last l d.
Proof. destruct l; [contradiction | reflexivity]. Qed.

(** The last piece of a split is what follows the last separator, for
    a separator whose first character occurs in it only once. *)
Lemma split_last h tail b :
  ~ In h tail -> ~ occurs (h :: tail) b ->
  forall n a cur,
    (List.length a <= n)%nat ->
    last_piece (split_aux (h :: tail) 0 cur (a ++ (h :: tail) ++ b)) = b.
Proof.
  intros Hh Hb. unfold last_piece.
  induction n as [| n IH]; intros a cur Hn.
  - destruct a; [ | cbn in Hn; lia]. cbn [app].
    change (h :: tail ++ b) with ((h :: tail) ++ b).
    rewrite split_aux_match, split_aux_none by assumption. reflexivity.
  - destruct a as [| c a'].
    + apply (IH [] cur). cbn; lia.
    + cbn [List.length] in Hn.
      destruct (is_prefix (h :: tail) ((c :: a') ++ (h :: tail) ++ b)) eqn:E.
      * apply is_prefix_spec in E. destruct E as (rest & E).
        destruct (app_eq_app _ _ _ _ E) as (l & [(Ha & Hr) | (Hs & Hx)]).
        -- rewrite Ha, <- app_assoc, split_aux_match.
           rewrite last_cons_not_nil by apply split_aux_not_nil.
           apply IH. assert (Hl := f_equal (@List.length Z) Ha).
           rewrite length_app in Hl. cbn [List.length] in Hl. lia.
        -- destruct l as [| x l'].
           ++ rewrite app_nil_r in Hs. rewrite <- Hs.
              rewrite split_aux_match.
              rewrite last_cons_not_nil by apply split_aux_not_nil.
              apply (IH [] []). cbn; lia.
           ++ exfalso. cbn [app] in Hs, Hx. injection Hs as Hc Ht.
              injection Hx as Hx _. apply Hh. rewrite Ht, Hx.
              apply in_or_app. right. left. reflexivity.
      * change ((c :: a') ++ (h :: tail) ++ b)
          with (c :: (a' ++ (h :: tail) ++ b)) in *.
        cbn [split_aux]. rewrite E. apply IH. lia.
Qed.

Lemma split_think_close a b :
  ~ occurs think_close b ->
  last_piece (split think_close (a ++ think_close ++ b)) = b.
Proof.
  intros Hb. unfold split.
  apply (split_last 60 (py "/think>") b) with (n := List.length a).
  - vm_compute. intros H.
    repeat (destruct H as [H | H]; [discriminate H | ]). exact H.
  - exact Hb.
  - apply Nat.le_refl.
Qed.

Lemma strip_sublist s : exists pre post, s = pre ++ strip s ++ post.
Proof.
  assert (Hl : forall t, exists pre, t = pre ++ lstrip t).
  { induction t as [| c r (pre & IH)]; cbn [lstrip]; [exists []; reflexivity | ].
    destruct (py_isspace c); [ | exists []; reflexivity].
    exists (c :: pre). cbn [app]. f_equal. exact IH. }
  destruct (Hl s) as (pre & Hpre).
  destruct (Hl (rev (lstrip s))) as (post & Hpost).
  exists pre, (rev post). unfold strip, rstrip.
  rewrite <- rev_app_distr, <- Hpost, rev_involutive. exact Hpre.
Qed.

(** X16. When the answer of the model holds "<think>" and a closing
    "</think>", [generate_post] returns what follows the last closing
    tag, stripped of the whitespace around it: no closing tag is left
    in it. *)
Theorem think_block_removed
    (py_format : json -> pystr)
    (get_filtered_posts : pystr -> pystr -> pystr -> list dict)
    (llm_invoke : pystr -> pyresult pystr)
    (length language tag prompt content a b : pystr) :
  get_prompt py_format get_filtered_posts length language tag = Ok prompt ->
  llm_invoke prompt = Ok content ->
  occurs think_open content ->
  content = a ++ think_close ++ b ->
  ~ occurs think_close b ->
  generate_post py_format get_filtered_posts llm_invoke length language tag
  = Ok (strip b)
  /\ ~ occurs think_close (strip b).
Proof.
  intros Hp Hl Hopen -> Hb. split.
  - unfold generate_post. rewrite Hp; cbn [rbind]. rewrite Hl; cbn [rbind].
    unfold strip_think. apply contains_spec in Hopen. rewrite Hopen.
    rewrite split_think_close by assumption. reflexivity.
  - intros (pre & post & H). apply Hb.
    destruct (strip_sublist b) as (p & q & Hs).
    exists (p ++ pre), (post ++ q).
    rewrite Hs at 1. rewrite H. rewrite <- !app_assoc. reflexivity.
Qed.

Lemma think_block_removed_witness :
  generate_post py_repr three_examples (fun _ => Ok thinking_content)
    (py "Short") (py "English") (py "Motivation")
  = Ok (py "Stay curious!").
Proof.
  assert (Hp : exists prompt,
             get_prompt py_repr three_examples (py "Short") (py "English")
               (py "Motivation") = Ok prompt).
  { eexists. vm_compute. reflexivity. }
  destruct Hp as (prompt & Hp).
  destruct (think_block_removed py_repr three_examples
              (fun _ => Ok thinking_content)
              (py "Short") (py "English") (py "Motivation") prompt
              thinking_content (py "<think>The user wants a post.")
              (nl ++ py "Stay curious! ")) as (Hrun & _).
  - exact Hp.
  - reflexivity.
  - apply contains_spec. reflexivity.
  - reflexivity.
  - intros H. apply contains_spec in H. discriminate H.
  - rewrite Hrun. reflexivity.
Defined.

(** X17. Without a closing "</think>" nothing is cut: an answer that
    holds "<think>" is returned whole, reasoning included, stripped of
    the whitespace around it, and an answer without "<think>" is
    returned as it is, whitespace included. *)
Theorem unclosed_think_block_kept
    (py_format : json -> pystr)
    (get_filtered_posts : pystr -> pystr -> pystr -> list dict)
    (llm_invoke : pystr -> pyresult pystr)
    (length language tag prompt content : pystr) :
  get_prompt py_format get_filtered_posts length language tag = Ok prompt ->
  llm_invoke prompt = Ok content ->
  ~ occurs think_close content ->
  (occurs think_open content ->
   generate_post py_format get_filtered_posts llm_invoke length language tag
   = Ok (strip content))
  /\ (~ occurs think_open content ->
      generate_post py_format get_filtered_posts llm_invoke length language tag
      = Ok content).
Proof.
  intros Hp Hl Hno. unfold generate_post.
  rewrite Hp; cbn [rbind]. rewrite Hl; cbn [rbind]. unfold strip_think. split.
  - intros Hopen. apply contains_spec in Hopen. rewrite Hopen.
    unfold split. rewrite split_aux_none by assumption. reflexivity.
  - intros Hopen. destruct (contains think_open content) eqn:E; [ | reflexivity].
    exfalso. apply Hopen, contains_spec, E.
Qed.

Lemma unclosed_think_block_kept_witness :
  generate_post py_repr three_examples (fun _ => Ok (py " <think>still planning "))
    (py "Short") (py "English") (py "Motivation")
  = Ok (py "<think>still planning").
Proof.
  assert (Hp : exists prompt,
             get_prompt py_repr three_examples (py "Short") (py "English")
               (py "Motivation") = Ok prompt).
  { eexists. vm_compute. reflexivity. }
  destruct Hp as (prompt & Hp).
  destruct (unclosed_think_block_kept py_repr three_examples
              (fun _ => Ok (py " <think>still planning "))
              (py "Short") (py "English") (py "Motivation") prompt
              (py " <think>still planning ")) as (Hrun & _).
  - exact Hp.
  - reflexivity.
  - intros H. apply contains_spec in H. discriminate H.
  - rewrite Hrun; [reflexivity | ]. apply contains_spec. reflexivity.
Defined.

(* ================================================================== *)
(** * [post_generator.py]: the prompt *)
(* ================================================================== *)

(** X18. [get_prompt] reads at most two examples: what the selector
    returns after the second one changes nothing, not even when it has
    no text. With two examples or more the prompt is the header, the
    style line and the two numbered examples. *)
Theorem get_prompt_two_examples
    (py_format : json -> pystr)
    (get_filtered_posts : pystr -> pystr -> pystr -> list dict)
    (length language tag : pystr) :
  get_prompt py_format get_filtered_posts length language tag
  = get_prompt py_format
      (fun l g t => firstn 2 (get_filtered_posts l g t)) length language tag
  /\ (forall p1 p2 rest v1 v2,
         get_filtered_posts length language tag = p1 :: p2 :: rest ->
         dict_get text_key p1 = Some v1 -> dict_get text_key p2 = Some v2 ->
         get_prompt py_format get_filtered_posts length language tag
         = Ok (prompt_header tag (get_length_str length) language ++ style_line
                 ++ example_block py_format 0 v1
                 ++ example_block py_format 1 v2)).
Proof.
  unfold get_prompt. split.
  - destruct (get_filtered_posts length language tag) as [| p1 [| p2 rest]];
      reflexivity.
  - intros p1 p2 rest v1 v2 -> H1 H2.
    cbn [List.length Nat.ltb Nat.leb add_examples Nat.eqb].
    rewrite H1, H2. rewrite <- !app_assoc. reflexivity.
Qed.

Lemma get_prompt_two_examples_witness :
  get_prompt py_repr three_examples (py "Short") (py "English") (py "Motivation")
  = Ok (prompt_header (py "Motivation") (get_length_str (py "Short")) (py "English")
          ++ style_line
          ++ example_block py_repr 0 (JStr (py "First post"))
          ++ example_block py_repr 1 (JStr (py "Second post"))).
Proof.
  destruct (get_prompt_two_examples py_repr three_examples
              (py "Short") (py "English") (py "Motivation")) as (_ & H).
  apply (H (post_of "First post") (post_of "Second post") [untitled_post]);
    reflexivity.
Defined.

(** X19. [get_prompt] fails exactly when one of the first two examples
    has no ['text'] key, and then with the [KeyError] of that key; the
    length, the language and the tag never make it fail, whatever they
    are. *)
Theorem get_prompt_failure
    (py_format : json -> pystr)
    (get_filtered_posts : pystr -> pystr -> pystr -> list dict)
    (length language tag : pystr) :
  (forall e,
      get_prompt py_format get_filtered_posts length language tag = Raise e ->
      e = KeyError text_key)
  /\ ((exists e,
          get_prompt py_format get_filtered_posts length language tag = Raise e)
      <-> exists post,
            In post (firstn 2 (get_filtered_posts length language tag))
            /\ dict_get text_key post = None).
Proof.
  unfold get_prompt.
  destruct (get_filtered_posts length language tag) as [| p1 [| p2 rest]];
    cbn [firstn List.length Nat.ltb Nat.leb add_examples Nat.eqb In].
  - split; [discriminate | ]. split.
    + intros (e & H). discriminate H.
    + intros (p & [] & _).
  - destruct (dict_get text_key p1) eqn:E1.
    + split; [discriminate | ]. split.
      * intros (e & H). discriminate H.
      * intros (p & [<- | []] & H). congruence.
    + split; [intros e [= <-]; reflexivity | ]. split.
      * intros _. exists p1. auto.
      * intros _. eexists. reflexivity.
  - destruct (dict_get text_key p1) eqn:E1.
    + destruct (dict_get text_key p2) eqn:E2.
      * split; [discriminate | ]. split.
        -- intros (e & H). discriminate H.
        -- intros (p & [<- | [<- | []]] & H); congruence.
      * split; [intros e [= <-]; reflexivity | ]. split.
        -- intros _. exists p2. auto.
        -- intros _. eexists. reflexivity.
    + split; [intros e [= <-]; reflexivity | ]. split.
      * intros _. exists p1. auto.
      * intros _. eexists. reflexivity.
Qed.

(** X20. Every prompt starts with the header, which holds the tag, the
    language and the line range of the length. A length that is not
    exactly "Short", "Medium" or "Long" raises nothing: the header then
    reads "2) Length: None". *)
Theorem get_prompt_header
    (py_format : json -> pystr)
    (get_filtered_posts : pystr -> pystr -> pystr -> list dict)
    (length language tag prompt : pystr) :
  get_prompt py_format get_filtered_posts length language tag = Ok prompt ->
  (exists rest,
      prompt = prompt_header tag (get_length_str length) language ++ rest)
  /\ (~ In length [py "Short"; py "Medium"; py "Long"] ->
      get_length_str length = None
      /\ occurs (py "2) Length: None") prompt).
Proof.
  intros H.
  assert (Hpre : exists rest,
             prompt = prompt_header tag (get_length_str length) language ++ rest).
  { unfold get_prompt in H.
    remember (prompt_header tag (get_length_str length) language) as header.
    destruct (get_filtered_posts length language tag) as [| p1 [| p2 rest]];
      cbn [List.length Nat.ltb Nat.leb add_examples Nat.eqb] in H.
    - injection H as <-. exists []. rewrite app_nil_r. reflexivity.
    - destruct (dict_get text_key p1); [ | discriminate].
      injection H as <-. rewrite <- app_assoc. eexists. reflexivity.
    - destruct (dict_get text_key p1); [ | discriminate].
      destruct (dict_get text_key p2); [ | discriminate].
      injection H as <-. rewrite <- !app_assoc. eexists. reflexivity. }
  split; [exact Hpre | ].
  intros Hl.
  assert (Hnone : get_length_str length = None).
  { unfold get_length_str.
    rewrite !pystr_eqb_neq; [reflexivity | | | ];
      intros ->; apply Hl; cbn [In]; auto. }
  split; [exact Hnone | ].
  destruct Hpre as (rest & ->). rewrite Hnone.
  exists (nl ++ py "    Generate a LinkedIn post using the below information. Do not include any reasoning, planning, or <think> tags in the response"
             ++ em_dash ++ py "provide only the post content. No preamble." ++ nl
             ++ py "    1) Topic: " ++ tag ++ nl ++ py "    ").
  exists (nl ++ py "    3) Language: " ++ language ++ nl
             ++ py "    If Language is Sinhala then it means it is a mix of Sinhala and English. " ++ nl
             ++ py "    The script for the generated post should always be English." ++ nl
             ++ py "    " ++ rest).
  unfold prompt_header, format_length.
  rewrite <- !app_assoc. reflexivity.
Qed.

Lemma get_prompt_header_witness :
  exists prompt,
    get_prompt py_repr three_examples (py "short") (py "English") (py "Motivation")
    = Ok prompt
    /\ get_length_str (py "short") = None
    /\ occurs (py "2) Length: None") prompt.
Proof.
  assert (Hp : exists prompt,
             get_prompt py_repr three_examples (py "short") (py "English")
               (py "Motivation") = Ok prompt).
  { eexists. vm_compute. reflexivity. }
  destruct Hp as (prompt & Hp). exists prompt. split; [exact Hp | ].
  destruct (get_prompt_header _ _ _ _ _ _ Hp) as (_ & H).
  apply H. intros X. vm_compute in X.
  repeat (destruct X as [X | X]; [discriminate X | ]). exact X.
Defined.


(* ================================================================== *)
(** * Further properties of the batch loop *)
(* ================================================================== *)

Section LoopOutcomes.

Variable nfkc : pystr -> pystr.
Variable py_format : json -> pystr.
Variable json_parse : pystr -> pyresult json.
Variable llm : nat -> template -> pystr -> pyresult pystr.




End LoopOutcomes.





(** X23. A failure in the enrichment steps of a post whose text can be
    sliced, when the record of the failure holds no lone surrogate, is
    logged with the index of the post and the excerpt of its text and
    printed, the post is skipped and the loop goes on with the rest.
    In a batch of five posts with string texts where the extraction
    raises for the post of index 3, the excerpt and the text of the
    exception holding no lone surrogate, four posts are enriched and
    the log holds one "Error processing post" record, the one of
    index 3. *)
Theorem printable_failure_isolated
    (nfkc : pystr -> pystr) (py_format : json -> pystr)
    (json_parse : pystr -> pyresult json)
    (llm : nat -> template -> pystr -> pyresult pystr) :
  (forall i post rest acc w v x e w1,
      dict_get text_key post = Some v -> slice100 v = Ok x ->
      enrich_post nfkc py_format json_parse llm post
        (logged INFO (processing_msg i (format py_format x)) w) = (Raise e, w1) ->
      printable (error_msg i (format py_format x) e) ->
      exists msg tail,
        msg = py "Error processing post " ++ dec i ++ py ": "
                 ++ format py_format x ++ py "... | Error: " ++ tail
        /\ process_post nfkc py_format json_parse llm i post w
           = (Ok None, printed msg (logged ERROR msg w1))
        /\ process_loop nfkc py_format json_parse llm i (post :: rest) acc w
           = process_loop nfkc py_format json_parse llm (S i) rest acc
               (printed msg (logged ERROR msg w1)))
  /\ (forall p0 p1 p2 p3 p4 d0 d1 d2 d4 ex e w,
         enriches nfkc py_format json_parse llm (0 + calls w) p0 d0 ->
         enriches nfkc py_format json_parse llm (1 + calls w) p1 d1 ->
         enriches nfkc py_format json_parse llm (2 + calls w) p2 d2 ->
         extraction_throws py_format json_parse llm (3 + calls w) p3 ex e ->
         printable ex -> printable (str_exc e) ->
         enriches nfkc py_format json_parse llm (4 + calls w) p4 d4 ->
         exists w1 records tail,
           process_loop nfkc py_format json_parse llm 0 [p0; p1; p2; p3; p4] [] w
           = (Ok [d0; d1; d2; d4], w1)
           /\ log w1 = log w ++ records
           /\ filter is_post_error records
              = [(ERROR, py "Error processing post 3: " ++ ex ++ py "... | Error: "
                            ++ tail)]
           /\ (forall out w2,
                  process_posts nfkc py_format json_parse llm [p0; p1; p2; p3; p4] w
                  = (Ok out, w2) ->
                  List.length out = 4%nat)).
Proof.
  split.
  - intros i post rest acc w v x e w1 Hv Hx Hraise Hp.
    pose proof (excerpt_sliceable py_format post v x Hv Hx) as Hex.
    pose proof (process_post_skips nfkc py_format json_parse llm
                  i post _ e w w1 Hex Hraise Hp) as Hpost.
    exists (error_msg i (format py_format x) e), (str_exc e).
    split; [reflexivity | ]. split; [exact Hpost | ].
    rewrite process_loop_step, Hpost. reflexivity.
  - intros p0 p1 p2 p3 p4 d0 d1 d2 d4 ex e w H0 H1 H2 H3 Hpx Hpe H4.
    destruct (loop_step_enriches nfkc py_format json_parse llm
                0 p0 d0 [p1; p2; p3; p4] [] w H0) as [x0 E0].
    pose (wa := called (logged INFO (processing_msg 0 x0) w)).
    destruct (loop_step_enriches nfkc py_format json_parse llm
                1 p1 d1 [p2; p3; p4] [d0] wa H1) as [x1 E1].
    pose (wb := called (logged INFO (processing_msg 1 x1) wa)).
    destruct (loop_step_enriches nfkc py_format json_parse llm
                2 p2 d2 [p3; p4] [d0; d1] wb H2) as [x2 E2].
    pose (wc := called (logged INFO (processing_msg 2 x2) wb)).
    pose proof (loop_step_throws nfkc py_format json_parse llm
                  3 p3 ex e [p4] [d0; d1; d2] wc H3
                  (printable_error_msg 3 ex e Hpx Hpe)) as E3.
    pose (wd := printed (error_msg 3 ex (metadata_relabelled e))
                  (logged ERROR (error_msg 3 ex (metadata_relabelled e))
                     (logged ERROR (str_exc (metadata_relabelled e))
                        (called (logged INFO (processing_msg 3 ex) wc))))).
    destruct (loop_step_enriches nfkc py_format json_parse llm
                4 p4 d4 [] [d0; d1; d2] wd H4) as [x4 E4].
    subst wa wb wc wd.
    cbn [app] in E0, E1, E2, E3, E4.
    assert (Hloop : exists w1,
               process_loop nfkc py_format json_parse llm 0 [p0; p1; p2; p3; p4] [] w
               = (Ok [d0; d1; d2; d4], w1)
               /\ log w1 = log w ++
                    [(INFO, processing_msg 0 x0); (INFO, processing_msg 1 x1);
                     (INFO, processing_msg 2 x2); (INFO, processing_msg 3 ex);
                     (ERROR, str_exc (metadata_relabelled e));
                     (ERROR, error_msg 3 ex (metadata_relabelled e));
                     (INFO, processing_msg 4 x4)]).
    { eexists. split.
      - rewrite E0, E1, E2, E3, E4. cbn [process_loop]. unfold ret. reflexivity.
      - cbn [log logged printed called]. rewrite <- !app_assoc. reflexivity. }
    destruct Hloop as (w1 & Hrun & Hlog).
    exists w1. eexists. exists (str_exc (metadata_relabelled e)).
    split; [exact Hrun | ]. split; [exact Hlog | ]. split.
    + cbn [filter].
      rewrite !is_post_error_info, is_post_error_relabelled, is_post_error_error_msg.
      reflexivity.
    + intros out w2 Hout.
      apply (process_posts_ok_length _ _ _ _ _ _ _ _ _ _ Hrun Hout).
Qed.

Lemma printable_failure_isolated_witness :
  exists w1 records tail,
    process_loop (fun s => s) py_repr json_loads flaky_llm 0
      [post_of "one"; post_of "two"; post_of "three"; post_of "four"; post_of "five"]
      [] w0
    = (Ok [enriched_of "one"; enriched_of "two"; enriched_of "three";
           enriched_of "five"], w1)
    /\ log w1 = log w0 ++ records
    /\ filter is_post_error records
       = [(ERROR, py "Error processing post 3: " ++ py "four"
                     ++ py "... | Error: " ++ tail)]
    /\ exists out w2,
         process_posts (fun s => s) py_repr json_loads flaky_llm
           [post_of "one"; post_of "two"; post_of "three"; post_of "four";
            post_of "five"] w0 = (Ok out, w2)
         /\ List.length out = 4%nat.
Proof.
  assert (Hen : forall n s,
             Nat.eqb n 3 = false ->
             pystr_wf (py s) -> cleaned_text (py s) = py s ->
             enriches (fun s => s) py_repr json_loads flaky_llm n
               (post_of s) (enriched_of s)).
  { intros n s Hn Hs Hc. exists (py s), sure_metadata, sure_metadata.
    split; [reflexivity | ]. split; [exact Hs | ]. split.
    - unfold extraction_outcome, flaky_llm. rewrite Hn. reflexivity.
    - split; [reflexivity | ]. unfold enriched_of. rewrite Hc. reflexivity. }
  assert (Hthrow : extraction_throws py_repr json_loads flaky_llm 3
                     (post_of "four") (py "four") (PyException (py "timeout"))).
  { exists (py "four"). split; [reflexivity | ]. split.
    - wf_literal.
    - split; reflexivity. }
  destruct (printable_failure_isolated (fun s => s) py_repr json_loads flaky_llm)
    as (_ & Hbatch).
  destruct (Hbatch (post_of "one") (post_of "two") (post_of "three")
              (post_of "four") (post_of "five")
              (enriched_of "one") (enriched_of "two") (enriched_of "three")
              (enriched_of "five") (py "four") (PyException (py "timeout")) w0)
    as (w1 & records & tail & Hrun & Hlog & Hfilter & Hlen).
  - apply Hen; [reflexivity | | reflexivity].
    wf_literal.
  - apply Hen; [reflexivity | | reflexivity].
    wf_literal.
  - apply Hen; [reflexivity | | reflexivity].
    wf_literal.
  - exact Hthrow.
  - apply printable_py.
  - apply printable_py.
  - apply Hen; [reflexivity | | reflexivity].
    wf_literal.
  - exists w1, records, tail. split; [exact Hrun | ]. split; [exact Hlog | ].
    split; [exact Hfilter | ].
    destruct (process_posts (fun s => s) py_repr json_loads flaky_llm
                [post_of "one"; post_of "two"; post_of "three"; post_of "four";
                 post_of "five"] w0) as [r w2] eqn:E.
    vm_compute in E. injection E as <- <-.
    eexists. eexists. split; reflexivity.
Defined.

Lemma get_prompt_failure_witness :
  get_prompt py_repr broken_examples (py "Long") (py "Sinhala") (py "Careers")
  = Raise (KeyError text_key)
  /\ exists post,
       In post (firstn 2 (broken_examples (py "Long") (py "Sinhala") (py "Careers")))
       /\ dict_get text_key post = None.
Proof.
  destruct (get_prompt_failure py_repr broken_examples
              (py "Long") (py "Sinhala") (py "Careers")) as (Hkey & Hiff).
  assert (Hp : exists e,
             get_prompt py_repr broken_examples (py "Long") (py "Sinhala")
               (py "Careers") = Raise e).
  { apply Hiff. exists untitled_post. split; [right; left; reflexivity | reflexivity]. }
  destruct Hp as (e & He). split.
  - rewrite He. f_equal. apply (Hkey e He).
  - apply Hiff. exists e. exact He.
Defined.
